(** * pytmx: the TMX loader ("mason"), its document model and the demo viewer

    A shallow embedding of [src/pytmx/mason.py], [src/pytmx/dc.py] and
    [src/apps/viewer.py].  Python integers are [Z], Python floats are the
    kernel's binary64 floats, dictionaries are [gmap]s, dataclasses are
    records, and a call that may raise returns a [result]. *)

From Stdlib Require Import ZArith String Ascii List Bool Lia.
From Stdlib Require Import Strings.Byte.
From Stdlib Require Import Floats.
From stdpp Require Import gmap strings list fin_maps.

Set Warnings "-register-all".

Open Scope string_scope.
Open Scope list_scope.
Open Scope Z_scope.

(** ** Exceptions and results *)

(** The Python exception classes the three modules raise or let escape.
    Messages are the source's f-string text; a string-valued interpolation
    is spliced in, any other interpolated value is left as its placeholder. *)
Inductive exn : Type :=
  | Exception (msg : string)
  | MasonException (msg : string)
  | ValueError (msg : string)
  | TypeError (msg : string)
  | AttributeError (msg : string)
  | KeyError (msg : string)
  | IndexError (msg : string)
  | NameError (name : string)
  | AssertionError
  | RecursionError
  | LibraryError (origin : string).

Inductive result (A : Type) : Type :=
  | Ok (a : A)
  | Raise (e : exn).

Arguments Ok {A} a.
Arguments Raise {A} e.

Definition bind {A B : Type} (r : result A) (k : A -> result B) : result B :=
  match r with
  | Ok a => k a
  | Raise e => Raise e
  end.

Notation "x <- r ;; k" := (bind r (fun x => k))
  (at level 100, r at next level, right associativity).

Definition rmap {A B : Type} (f : A -> B) (r : result A) : result B :=
  match r with
  | Ok a => Ok (f a)
  | Raise e => Raise e
  end.

(** [value or TypeError] for an operand that may be [None]. *)
Definition not_none {A : Type} (what : string) (o : option A) : result A :=
  match o with
  | Some a => Ok a
  | None => Raise (TypeError what)
  end.

Definition is_Ok {A : Type} (r : result A) : bool :=
  match r with Ok _ => true | Raise _ => false end.

(** ** mason.py: gid flags *)

Module Gid.

Definition GID_TRANS_FLIPX : Z := Z.shiftl 1 31.
Definition GID_TRANS_FLIPY : Z := Z.shiftl 1 30.
Definition GID_TRANS_ROT : Z := Z.shiftl 1 29.

Record TileFlags : Type := mkTileFlags {
  horizontal : bool;
  vertical : bool;
  diagonal : bool
}.

(** [decode_gid], lines 47-55.  Python's [~] on an unbounded integer is [Z.lnot]. *)
Definition decode_gid (raw_gid : Z) : Z * TileFlags :=
  let flags := mkTileFlags
    (Z.land raw_gid GID_TRANS_FLIPX =? GID_TRANS_FLIPX)
    (Z.land raw_gid GID_TRANS_FLIPY =? GID_TRANS_FLIPY)
    (Z.land raw_gid GID_TRANS_ROT =? GID_TRANS_ROT) in
  let gid := Z.land raw_gid
    (Z.lnot (Z.lor (Z.lor GID_TRANS_FLIPX GID_TRANS_FLIPY) GID_TRANS_ROT)) in
  (gid, flags).

(** The flag word selected by a triple of booleans: a subset of bits 31, 30, 29. *)
Definition flag_bits (h v d : bool) : Z :=
  Z.lor (Z.lor (if h then GID_TRANS_FLIPX else 0)
               (if v then GID_TRANS_FLIPY else 0))
        (if d then GID_TRANS_ROT else 0).

End Gid.

(** ** Python builtins used by the sources *)

Module Builtins.

(** The length CPython computes for [range(start, stop, step)], [step <> 0]. *)
Definition range_length (start stop step : Z) : Z :=
  if 0 <? step
  then (if start <? stop then (stop - start - 1) / step + 1 else 0)
  else (if stop <? start then (start - stop - 1) / (- step) + 1 else 0).

(** [range(start, stop, step)], materialised; a zero step raises. *)
Definition range (start stop step : Z) : result (list Z) :=
  if step =? 0 then Raise (ValueError "range() arg 3 must not be zero")
  else Ok (map (fun k : nat => start + Z.of_nat k * step)
               (seq 0 (Z.to_nat (range_length start stop step)))).

(** [itertools.product(xs, ys)]: the rightmost iterable advances fastest. *)
Definition product {A B : Type} (xs : list A) (ys : list B) : list (A * B) :=
  flat_map (fun x => map (pair x) ys) xs.

(** [enumerate(xs, start)]. *)
Fixpoint enumerate {A : Type} (xs : list A) (start : Z) : list (Z * A) :=
  match xs with
  | [] => []
  | x :: rest => (start, x) :: enumerate rest (start + 1)
  end.

End Builtins.

(** ** mason.py: sprite-sheet slicing *)

Module Slicing.
Import Builtins.

(** [iter_image_tiles], lines 122-126.  The pairs are [(y, x)].  The
    image size and the tile size come from attributes read with
    [get(key, int)] and may be [None]; margin and spacing default to 0. *)
Definition iter_image_tiles
    (width height tilewidth tileheight : option Z) (margin spacing : Z)
    : result (list (Z * Z)) :=
  let missing := "unsupported operand type(s) for +: 'NoneType' and 'int'" in
  h <- not_none missing height ;;
  th <- not_none missing tileheight ;;
  ys <- range margin (h + margin - th + 1) (th + spacing) ;;
  w <- not_none missing width ;;
  tw <- not_none missing tilewidth ;;
  xs <- range margin (w + margin - tw + 1) (tw + spacing) ;;
  Ok (product ys xs).

(** The source rectangle [(x, y, tilewidth, tileheight)] that the
    [Tileset.Image] reducer (line 359) builds from an enumerated pair. *)
Definition rect_of (tilewidth tileheight : Z) (yx : Z * Z) : Z * Z * Z * Z :=
  let '(y, x) := yx in (x, y, tilewidth, tileheight).

(** The origin [(x, y)] of that rectangle. *)
Definition origin_of (yx : Z * Z) : Z * Z := let '(y, x) := yx in (x, y).

(** The arithmetic progression [start, start + step, ...] of [n] terms. *)
Definition progression (start step : Z) (n : nat) : list Z :=
  map (fun k : nat => start + Z.of_nat k * step) (seq 0 n).

End Slicing.

(** ** dc.py: the document model *)

Module Dc.

(** What an image loader was asked for.  The loader is a caller-supplied
    callback returning an opaque handle; the handle is represented by the
    request that produced it, as the bundled [default_image_loader] does
    (which returns the file name, the rectangle and the flags). *)
Record ImageHandle : Type := mkImageHandle {
  handle_filename : string;
  handle_colorkey : option string;
  handle_rect : option (Z * Z * Z * Z);
  handle_flags : option Gid.TileFlags
}.

Definition TileImageType : Type := option ImageHandle.

Record MapCoordinates : Type := mkMapCoordinates {
  coord_x : Z;
  coord_y : Z;
  coord_layer : Z
}.

Module Point.
Record t : Type := mk { x : option Z; y : option Z }.
End Point.

Module Text.
Record t : Type := mk {
  fontfamily : option string;
  pixelsize : option string;
  wrap : option string;
  color : option string;
  bold : option string;
  italic : option string;
  underline : option string;
  strikeout : option string;
  kerning : option string;
  halign : option string;
  valign : option string
}.
End Text.

(** [Tile]; [animation] is never assigned by any code path and is left out. *)
Module Tile.
Record t : Type := mk {
  id : option Z;
  gid : option Z;
  type : option string;
  terrain : option string;
  image : TileImageType;
  properties : option (gmap string string)
}.
End Tile.

Module Image.
Record t : Type := mk {
  source : option string;
  width : option Z;
  height : option Z;
  trans : option string
}.
End Image.

(** The values [TileLayer.data] holds.  Over the life of a layer the
    parser builds: the [data] attribute (or [None]) at construction, the
    flat gid list (or [None]) after [Layer.Data], the grid of resolved
    tiles after the map closes.  On a layer a caller of [dc.py] builds
    itself: a grid of integer gids, which is what the names and the
    annotations of the query methods speak of. *)
Inductive layer_data : Type :=
  | DataNone
  | DataAttr (s : string)
  | DataFlat (gids : list Z)
  | DataGrid (rows : list (list (option Tile.t)))
  | DataGids (rows : list (list Z)).

(** [properties] is the instance attribute the parser's reducers set. *)
Module TileLayer.
Record t : Type := mk {
  name : option string;
  opacity : float;
  visible : bool;
  tintcolor : option string;
  offsetx : option string;
  offsety : option string;
  data : layer_data;
  properties : option (gmap string string)
}.
End TileLayer.

Module Polygon.
Record t : Type := mk { points : list (list float) }.
End Polygon.

Module Polyline.
Record t : Type := mk { points : option string }.
End Polyline.

Inductive shape : Type :=
  | ShapeCircle
  | ShapePoint (p : Point.t)
  | ShapePolygon (p : Polygon.t)
  | ShapePolyline (p : Polyline.t)
  | ShapeText (t : Text.t).

(** [Object]; [image] is never assigned by any code path and is left out. *)
Module Object.
Record t : Type := mk {
  name : option string;
  type : option string;
  x : option float;
  y : option float;
  width : option float;
  height : option float;
  rotation : option float;
  gid : Z;
  visible : bool;
  shapes : list shape;
  properties : option (gmap string string)
}.
End Object.

Module ObjectGroup.
Record t : Type := mk {
  name : option string;
  color : option string;
  opacity : float;
  visible : bool;
  tintcolor : option string;
  offsetx : option float;
  offsety : option float;
  draworder : option string;
  objects : list Object.t
}.
End ObjectGroup.

(** [Group.layers] receives tile layers and object groups only
    (the reducers [Group.Layer] and [Group.Objectgroup]). *)
Module Group.
Record t : Type := mk {
  name : option string;
  opacity : float;
  visible : bool;
  tintcolor : option string;
  offsetx : option string;
  offsety : option string;
  layers : list (TileLayer.t + ObjectGroup.t)
}.
End Group.

(** [images] and [tiles] are never appended to and stay empty. *)
Module Tileset.
Record t : Type := mk {
  firstgid : Z;
  source : option string;
  name : option string;
  tilewidth : option Z;
  tileheight : option Z;
  spacing : Z;
  margin : Z;
  tilecount : option string;
  columns : option string;
  objectalignment : option string;
  orientation : option string;
  properties : option (gmap string string)
}.
End Tileset.

Module Property.
Record t : Type := mk {
  name : string;
  type : option string;
  value : string
}.
End Property.

(** [ImageLayer.image] is the [image] attribute until [Imagelayer.Image]
    replaces it by the [Image] record. *)
Module ImageLayer.
Record t : Type := mk {
  name : option string;
  visible : option string;
  image : option (string + Image.t)
}.
End ImageLayer.

Inductive layer : Type :=
  | LTileLayer (l : TileLayer.t)
  | LObjectGroup (l : ObjectGroup.t)
  | LGroup (l : Group.t)
  | LImageLayer (l : ImageLayer.t).

(** [nextlayerid] and [nextobjectid] are never assigned and are left out. *)
Module Map.
Record t : Type := mk {
  version : option string;
  tiledversion : option string;
  orientation : option string;
  renderorder : option string;
  compressionlevel : option string;
  width : option Z;
  height : option Z;
  tilewidth : option Z;
  tileheight : option Z;
  hexsidelength : option Z;
  staggeraxis : option Z;
  staggerindex : option Z;
  background_color : option string;
  infinite : bool;
  filename : string;
  layers : list layer;
  tilesets : list Tileset.t;
  images : list TileImageType;
  properties : gmap string string
}.
End Map.

(** *** Python values passed to the query methods *)

Inductive pyval : Type :=
  | PyNone
  | PyInt (z : Z)
  | PyFloat (f : float)
  | PyStr (s : string)
  | PyObj (cls : string).

(** [v >= 0]: a comparison of [None] or a string with an integer raises. *)
Definition py_ge0 (v : pyval) : result bool :=
  match v with
  | PyInt z => Ok (0 <=? z)
  | PyFloat f => Ok (PrimFloat.leb PrimFloat.zero f)
  | PyNone => Raise (TypeError "'>=' not supported between instances of 'NoneType' and 'int'")
  | PyStr _ => Raise (TypeError "'>=' not supported between instances of 'str' and 'int'")
  | PyObj _ => Raise (TypeError "'>=' not supported between instances of an object and 'int'")
  end.

(** Negative numbers, and the values that are not numbers at all. *)
Definition negative (v : pyval) : bool :=
  match v with
  | PyInt z => z <? 0
  | PyFloat f => PrimFloat.ltb f PrimFloat.zero
  | _ => false
  end.

Definition non_numeric (v : pyval) : bool :=
  match v with
  | PyNone | PyStr _ | PyObj _ => true
  | PyInt _ | PyFloat _ => false
  end.

(** [l[i]] on a list: negative integers count from the end, an integer
    outside [-len, len) raises IndexError, a non-integer raises TypeError. *)
Definition list_getitem {A : Type} (l : list A) (i : pyval) : result A :=
  match i with
  | PyInt z =>
      let n := Z.of_nat (length l) in
      let k := if z <? 0 then z + n else z in
      if (0 <=? k) && (k <? n)
      then match l !! Z.to_nat k with
           | Some a => Ok a
           | None => Raise (IndexError "list index out of range")
           end
      else Raise (IndexError "list index out of range")
  | _ => Raise (TypeError "list indices must be integers or slices")
  end.

(** [s[i]] on a string, with the same index rules; the result is a string
    of one character. *)
Definition str_getitem (s : string) (i : pyval) : result string :=
  match i with
  | PyInt z =>
      let n := Z.of_nat (String.length s) in
      let k := if z <? 0 then z + n else z in
      if (0 <=? k) && (k <? n)
      then match String.get (Z.to_nat k) s with
           | Some c => Ok (String c EmptyString)
           | None => Raise (IndexError "string index out of range")
           end
      else Raise (IndexError "string index out of range")
  | _ => Raise (TypeError "string indices must be integers")
  end.

(** What [layer.data[y][x]] can evaluate to. *)
Inductive cell : Type :=
  | CellTile (t : option Tile.t)
  | CellChar (c : string)
  | CellGid (gid : Z).

(** [layer.data]: only [TileLayer] has the attribute. *)
Definition layer_data_attr (l : layer) : result layer_data :=
  match l with
  | LTileLayer tl => Ok (TileLayer.data tl)
  | LObjectGroup _ => Raise (AttributeError "'ObjectGroup' object has no attribute 'data'")
  | LGroup _ => Raise (AttributeError "'Group' object has no attribute 'data'")
  | LImageLayer _ => Raise (AttributeError "'ImageLayer' object has no attribute 'data'")
  end.

(** [data[y][x]]. *)
Definition data_getitem2 (d : layer_data) (y x : pyval) : result cell :=
  match d with
  | DataNone => Raise (TypeError "'NoneType' object is not subscriptable")
  | DataAttr s =>
      c <- str_getitem s y ;; c' <- str_getitem c x ;; Ok (CellChar c')
  | DataFlat gids =>
      _ <- list_getitem gids y ;; Raise (TypeError "'int' object is not subscriptable")
  | DataGrid rows =>
      row <- list_getitem rows y ;; t <- list_getitem row x ;; Ok (CellTile t)
  | DataGids rows =>
      row <- list_getitem rows y ;; g <- list_getitem row x ;; Ok (CellGid g)
  end.

Definition NONNEGATIVE_MSG : string :=
  "Tile coordinates and layers must be non-negative, were ({x}, {y}), layer={layer}".
Definition LAYER_NOT_FOUND_MSG : string := "Layer not found: {layer}".
Definition COORDS_INVALID_MSG : string :=
  "Tile coordinates ({x},{y}) in layer {layer} are invalid".
Definition GID_NOT_NUMBER_MSG : string :=
  "GIDs must be expressed as a number.  Got: {gid}".
Definition GID_NOT_FOUND_MSG : string := "GID not found: {gid}".

(** [Map.get_tile_image_by_gid], lines 209-216. *)
Definition get_tile_image_by_gid (self : Map.t) (gid : pyval) : result TileImageType :=
  match list_getitem (Map.images self) gid with
  | Ok img => Ok img
  | Raise (TypeError _) => Raise (TypeError GID_NOT_NUMBER_MSG)
  | Raise (IndexError _) => Raise (ValueError GID_NOT_FOUND_MSG)
  | Raise e => Raise e
  end.

(** The asserted condition [x >= 0 and y >= 0 and layer >= 0], short-circuit. *)
Definition nonnegative_condition (x y layer : pyval) : result bool :=
  bx <- py_ge0 x ;;
  if bx then (by_ <- py_ge0 y ;; if by_ then py_ge0 layer else Ok false)
  else Ok false.

(** [Map.get_tile_gid], lines 218-233. *)
Definition get_tile_gid (self : Map.t) (x y layer : pyval) : result cell :=
  _ <- match nonnegative_condition x y layer with
       | Ok true => Ok tt
       | Ok false => Raise (ValueError NONNEGATIVE_MSG)
       | Raise (AssertionError | ValueError _ | TypeError _) =>
           Raise (ValueError NONNEGATIVE_MSG)
       | Raise e => Raise e
       end ;;
  l <- match list_getitem (Map.layers self) layer with
       | Raise (IndexError _) => Raise (ValueError LAYER_NOT_FOUND_MSG)
       | r => r
       end ;;
  match (d <- layer_data_attr l ;; data_getitem2 d y x) with
  | Raise (IndexError _) => Raise (ValueError COORDS_INVALID_MSG)
  | r => r
  end.

(** A cell as the Python value it is. *)
Definition pyval_of_cell (c : cell) : pyval :=
  match c with
  | CellTile None => PyNone
  | CellTile (Some _) => PyObj "Tile"
  | CellChar s => PyStr s
  | CellGid g => PyInt g
  end.

(** [Map.get_tile_image], lines 204-207. *)
Definition get_tile_image (self : Map.t) (x y layer : pyval) : result TileImageType :=
  gid <- get_tile_gid self x y layer ;;
  get_tile_image_by_gid self (pyval_of_cell gid).

(** *** The module's global names *)

(** Every name bound at the top level of [dc.py]: its imports, its
    assignments and its classes. *)
Definition module_globals : list string :=
  [ "annotations"; "namedtuple"; "dataclass"; "field"; "logging"; "chain";
    "product"; "Optional"; "Union"; "Iterator"; "List"; "Any"; "Dict";
    "logger"; "TileImageType"; "MapCoordinates"; "Point"; "Text";
    "Animation"; "AnimationFrame"; "Circle"; "Tile"; "Image"; "TileLayer";
    "ObjectGroup"; "Group"; "Tileset"; "Polygon"; "Polyline"; "Object";
    "Property"; "ImageLayer"; "Map" ].

(** Evaluating a global name: an unbound one raises NameError. *)
Definition load_global (name : string) : result string :=
  if existsb (String.eqb name) module_globals then Ok name
  else Raise (NameError name).

Definition class_name (l : layer) : string :=
  match l with
  | LTileLayer _ => "TileLayer"
  | LObjectGroup _ => "ObjectGroup"
  | LGroup _ => "Group"
  | LImageLayer _ => "ImageLayer"
  end.

(** [isinstance(l, cls)] for the classes of this module, none of which
    inherits from another. *)
Definition isinstance (l : layer) (cls : string) : bool :=
  String.eqb (class_name l) cls.

(** The truth value of [l.visible]. *)
Definition layer_visible (l : layer) : bool :=
  match l with
  | LTileLayer tl => TileLayer.visible tl
  | LObjectGroup og => ObjectGroup.visible og
  | LGroup g => Group.visible g
  | LImageLayer il =>
      match ImageLayer.visible il with
      | Some s => negb (String.eqb s EmptyString)
      | None => false
      end
  end.

(** *** Generators *)

(** A generator run to its end: the values it yielded, and the exception
    that ended it if it did not finish normally. *)
Definition stream (A : Type) : Type := list A * option exn.

(** [for a in s: yield from (body a)]; an exception in a body ends the
    iteration before the rest of [s] is pulled. *)
Fixpoint for_each {A B : Type} (items : list A) (ending : option exn)
    (body : A -> result (list B)) : stream B :=
  match items with
  | [] => ([], ending)
  | a :: rest =>
      match body a with
      | Raise e => ([], Some e)
      | Ok bs => let '(out, e) := for_each rest ending body in (bs ++ out, e)
      end
  end.

(** The generator expression
    [(i for (i, l) in enumerate(layers) if l.visible and isinstance(l, cls))]
    with [cls] a global name looked up each time the test reaches it. *)
Fixpoint visible_indices (cls : string) (layers : list (Z * layer)) : stream Z :=
  match layers with
  | [] => ([], None)
  | (i, l) :: rest =>
      if layer_visible l
      then match load_global cls with
           | Raise e => ([], Some e)
           | Ok c =>
               let '(out, e) := visible_indices cls rest in
               if isinstance l c then (i :: out, e) else (out, e)
           end
      else visible_indices cls rest
  end.

(** [Map.visible_tile_layers], lines 317-327. *)
Definition visible_tile_layers (self : Map.t) : stream Z :=
  visible_indices "TiledTileLayer" (Builtins.enumerate (Map.layers self) 0).

(** [Map.visible_object_groups], lines 329-339. *)
Definition visible_object_groups (self : Map.t) : stream Z :=
  visible_indices "TiledObjectGroup" (Builtins.enumerate (Map.layers self) 0).

(** [layer.iter_data()]: no class of the module defines the method. *)
Definition iter_data (l : layer) : result (list (Z * Z * pyval)) :=
  Raise (AttributeError ("'" +:+ class_name l +:+ "' object has no attribute 'iter_data'")).

Definition pyval_eqb (a b : pyval) : bool :=
  match a, b with
  | PyNone, PyNone => true
  | PyInt m, PyInt n => m =? n
  | PyFloat f, PyFloat g => PrimFloat.eqb f g
  | PyStr s, PyStr t => String.eqb s t
  | PyObj s, PyObj t => String.eqb s t
  | _, _ => false
  end.

(** [Map.get_tile_locations_by_gid], lines 235-242. *)
Definition get_tile_locations_by_gid (self : Map.t) (gid : pyval) : stream MapCoordinates :=
  let '(indices, ending) := visible_tile_layers self in
  for_each indices ending (fun l =>
    lay <- list_getitem (Map.layers self) (PyInt l) ;;
    cells <- iter_data lay ;;
    Ok (map (fun '(x, y, _) => mkMapCoordinates x y l)
            (filter (fun '(_, _, g) => pyval_eqb g gid = true) cells))).

(** [TileLayer.tiles], lines 83-87: the non-empty cells of a grid. *)
Definition row_tiles (y : Z) (row : list (option Tile.t)) : list (Z * Z * Tile.t) :=
  omap (fun '(x, c) => match c with Some t => Some (x, y, t) | None => None end)
       (Builtins.enumerate row 0).

Definition tiles (rows : list (list (option Tile.t))) : list (Z * Z * Tile.t) :=
  flat_map (fun '(y, row) => row_tiles y row) (Builtins.enumerate rows 0).

End Dc.

(** ** The library boundary *)

(** An XML element as [ElementTree] hands it to the parser: tag,
    attributes, the text seen at the start event, and the children. *)
Inductive element : Type :=
  | Element (tag : string) (attrib : gmap string string) (text : option string)
            (children : list element).

(** Induction on documents, with the hypothesis for every child. *)
Fixpoint element_children_ind (P : element -> Prop)
    (H : forall tag attrib text children,
           Forall P children -> P (Element tag attrib text children))
    (e : element) : P e :=
  match e with
  | Element tag attrib text children =>
      H tag attrib text children
        ((fix go (l : list element) : Forall P l :=
            match l with
            | [] => Forall_nil_2 P
            | c :: r => Forall_cons_2 P c r (element_children_ind P H c) (go r)
            end) children)
  end.

(** The functions of Python and its libraries that the parser calls and
    this development does not implement: [int] and [float] on a string
    ([None] stands for ValueError), [base64.b64decode], [gzip.decompress],
    [zlib.decompress] ([None]: the library's error), and
    [ElementTree.iterparse] on a path ([None]: the file is missing or is
    not well-formed XML). *)
Class Runtime : Type := {
  py_int : string -> option Z;
  py_float : string -> option float;
  b64decode : string -> option (list byte);
  gzip_decompress : list byte -> option (list byte);
  zlib_decompress : list byte -> option (list byte);
  iterparse : string -> option element
}.

(** ** Python string and path functions (ASCII) *)

Module Str.

Definition is_upper (c : ascii) : bool :=
  let n := nat_of_ascii c in (65 <=? n)%nat && (n <=? 90)%nat.

Definition is_lower (c : ascii) : bool :=
  let n := nat_of_ascii c in (97 <=? n)%nat && (n <=? 122)%nat.

Definition to_upper (c : ascii) : ascii :=
  if is_lower c then ascii_of_nat (nat_of_ascii c - 32) else c.

Definition to_lower (c : ascii) : ascii :=
  if is_upper c then ascii_of_nat (nat_of_ascii c + 32) else c.

(** [str.title()]: the first letter of every run of letters in upper
    case, the others in lower case. *)
Fixpoint title_from (previous_is_cased : bool) (s : string) : string :=
  match s with
  | EmptyString => EmptyString
  | String c rest =>
      if is_lower c
      then String (if previous_is_cased then c else to_upper c) (title_from true rest)
      else if is_upper c
      then String (if previous_is_cased then to_lower c else c) (title_from true rest)
      else String c (title_from false rest)
  end.

Definition title (s : string) : string := title_from false s.

(** [s.split(sep)] for a separator of one character. *)
Fixpoint split_on (sep : ascii) (s : string) : list string :=
  match s with
  | EmptyString => [EmptyString]
  | String c rest =>
      if Ascii.eqb c sep then EmptyString :: split_on sep rest
      else match split_on sep rest with
           | [] => [String c EmptyString]
           | w :: ws => String c w :: ws
           end
  end.

Definition is_space (c : ascii) : bool :=
  let n := nat_of_ascii c in
  (n =? 32)%nat || ((9 <=? n)%nat && (n <=? 13)%nat) || ((28 <=? n)%nat && (n <=? 31)%nat).

(** [s.split()]: the maximal runs of non-whitespace characters. *)
Fixpoint split_spaces_from (word : string) (s : string) : list string :=
  let flush := match word with EmptyString => [] | _ => [word] end in
  match s with
  | EmptyString => flush
  | String c rest =>
      if is_space c then flush ++ split_spaces_from EmptyString rest
      else split_spaces_from (word +:+ String c EmptyString) rest
  end.

Definition split_spaces (s : string) : list string := split_spaces_from EmptyString s.

Fixpoint ends_with_slash (s : string) : bool :=
  match s with
  | EmptyString => false
  | String c EmptyString => Ascii.eqb c "/"
  | String _ rest => ends_with_slash rest
  end.

Definition starts_with_slash (s : string) : bool :=
  match s with
  | String c _ => Ascii.eqb c "/"
  | EmptyString => false
  end.

(** [os.path.join(a, b)] (posixpath). *)
Definition path_join (a b : string) : string :=
  if starts_with_slash b then b
  else if String.eqb a EmptyString || ends_with_slash a then a +:+ b
  else a +:+ "/" +:+ b.

(** The characters of [s] up to and including its last slash. *)
Fixpoint head_through_last_slash (s : string) : string :=
  match s with
  | EmptyString => EmptyString
  | String c rest =>
      let h := head_through_last_slash rest in
      if Ascii.eqb c "/" then String c h
      else match h with EmptyString => EmptyString | _ => String c h end
  end.

Fixpoint all_slashes (s : string) : bool :=
  match s with
  | EmptyString => true
  | String c rest => Ascii.eqb c "/" && all_slashes rest
  end.

(** [s.rstrip("/")]. *)
Fixpoint rstrip_slashes (s : string) : string :=
  match s with
  | EmptyString => EmptyString
  | String c rest =>
      match rstrip_slashes rest with
      | EmptyString => if Ascii.eqb c "/" then EmptyString else String c EmptyString
      | r => String c r
      end
  end.

(** [os.path.dirname(p)] (posixpath). *)
Definition dirname (p : string) : string :=
  let head := head_through_last_slash p in
  if all_slashes head then head else rstrip_slashes head.

End Str.

(** ** mason.py: the parser *)

Module Mason.
Import Builtins Dc.

(** *** Parser-internal records *)

(** [Context]; [map] is never assigned, and the image loader is the
    request-recording one of [Dc.ImageHandle].  [load_tmx] sets every
    other field before the first use. *)
Module Context.
Record t : Type := mk {
  path : string;
  folder : string;
  invert_y : bool;
  tiles : gmap Z (option Tile.t);
  firstgid : Z
}.
End Context.

Module Data.
Record t : Type := mk {
  encoding : option string;
  compression : option string;
  text : option string
}.
End Data.

Module Properties.
Record t : Type := mk { data : gmap string string }.
End Properties.

Module Grid.
Record t : Type := mk {
  orientation : option string;
  width : option Z;
  height : option Z
}.
End Grid.

(** The objects [start] builds, one constructor per dataclass. *)
Inductive obj : Type :=
  | OData (d : Data.t)
  | OCircle
  | OGrid (g : Grid.t)
  | OGroup (g : Group.t)
  | OImage (i : Image.t)
  | OImageLayer (l : ImageLayer.t)
  | OTileLayer (l : TileLayer.t)
  | OMap (m : Map.t)
  | OObject (o : Object.t)
  | OObjectGroup (g : ObjectGroup.t)
  | OPoint (p : Point.t)
  | OPolygon (p : Polygon.t)
  | OPolyline (p : Polyline.t)
  | OProperties (p : Properties.t)
  | OProperty (p : Property.t)
  | OTile (t : Tile.t)
  | OText (t : Text.t)
  | OTileset (t : Tileset.t).

Module Token.
Record t : Type := mk {
  type : string;
  attrib : gmap string string;
  text : option string;
  obj : Mason.obj
}.
End Token.

(** *** Field updates (attribute assignments of the reducers) *)

Definition TileLayer_set_data (l : TileLayer.t) (d : layer_data) : TileLayer.t :=
  TileLayer.mk (TileLayer.name l) (TileLayer.opacity l) (TileLayer.visible l)
    (TileLayer.tintcolor l) (TileLayer.offsetx l) (TileLayer.offsety l) d
    (TileLayer.properties l).

Definition TileLayer_set_properties (l : TileLayer.t) (p : gmap string string) : TileLayer.t :=
  TileLayer.mk (TileLayer.name l) (TileLayer.opacity l) (TileLayer.visible l)
    (TileLayer.tintcolor l) (TileLayer.offsetx l) (TileLayer.offsety l)
    (TileLayer.data l) (Some p).

Definition Group_append (g : Group.t) (l : TileLayer.t + ObjectGroup.t) : Group.t :=
  Group.mk (Group.name g) (Group.opacity g) (Group.visible g) (Group.tintcolor g)
    (Group.offsetx g) (Group.offsety g) (Group.layers g ++ [l]).

Definition ImageLayer_set_image (l : ImageLayer.t) (i : Image.t) : ImageLayer.t :=
  ImageLayer.mk (ImageLayer.name l) (ImageLayer.visible l) (Some (inr i)).

Definition Map_update (m : Map.t) (orientation : option string) (layers : list layer)
    (tilesets : list Tileset.t) (properties : gmap string string) : Map.t :=
  Map.mk (Map.version m) (Map.tiledversion m) orientation (Map.renderorder m)
    (Map.compressionlevel m) (Map.width m) (Map.height m) (Map.tilewidth m)
    (Map.tileheight m) (Map.hexsidelength m) (Map.staggeraxis m) (Map.staggerindex m)
    (Map.background_color m) (Map.infinite m) (Map.filename m) layers tilesets
    (Map.images m) properties.

Definition Map_set_orientation (m : Map.t) (o : option string) : Map.t :=
  Map_update m o (Map.layers m) (Map.tilesets m) (Map.properties m).

Definition Map_set_layers (m : Map.t) (layers : list layer) : Map.t :=
  Map_update m (Map.orientation m) layers (Map.tilesets m) (Map.properties m).

(** [Map.add_layer], lines 244-246. *)
Definition add_layer (m : Map.t) (l : layer) : Map.t :=
  Map_set_layers m (Map.layers m ++ [l]).

(** [Map.add_tileset], lines 248-252, after its assertion. *)
Definition add_tileset (m : Map.t) (t : Tileset.t) : Map.t :=
  Map_update m (Map.orientation m) (Map.layers m) (Map.tilesets m ++ [t])
    (Map.properties m).

Definition Map_set_properties (m : Map.t) (p : gmap string string) : Map.t :=
  Map_update m (Map.orientation m) (Map.layers m) (Map.tilesets m) p.

Definition Object_update (o : Object.t) (shapes : list shape)
    (properties : option (gmap string string)) : Object.t :=
  Object.mk (Object.name o) (Object.type o) (Object.x o) (Object.y o)
    (Object.width o) (Object.height o) (Object.rotation o) (Object.gid o)
    (Object.visible o) shapes properties.

Definition Object_append_shape (o : Object.t) (sh : shape) : Object.t :=
  Object_update o (Object.shapes o ++ [sh]) (Object.properties o).

Definition Object_set_properties (o : Object.t) (p : gmap string string) : Object.t :=
  Object_update o (Object.shapes o) (Some p).

Definition ObjectGroup_append (g : ObjectGroup.t) (o : Object.t) : ObjectGroup.t :=
  ObjectGroup.mk (ObjectGroup.name g) (ObjectGroup.color g) (ObjectGroup.opacity g)
    (ObjectGroup.visible g) (ObjectGroup.tintcolor g) (ObjectGroup.offsetx g)
    (ObjectGroup.offsety g) (ObjectGroup.draworder g) (ObjectGroup.objects g ++ [o]).

Definition Tileset_update (t : Tileset.t) (firstgid : Z) (orientation : option string)
    (properties : option (gmap string string)) : Tileset.t :=
  Tileset.mk firstgid (Tileset.source t) (Tileset.name t) (Tileset.tilewidth t)
    (Tileset.tileheight t) (Tileset.spacing t) (Tileset.margin t) (Tileset.tilecount t)
    (Tileset.columns t) (Tileset.objectalignment t) orientation properties.

Definition Tileset_set_firstgid (t : Tileset.t) (g : Z) : Tileset.t :=
  Tileset_update t g (Tileset.orientation t) (Tileset.properties t).

Definition Tileset_set_orientation (t : Tileset.t) (o : option string) : Tileset.t :=
  Tileset_update t (Tileset.firstgid t) o (Tileset.properties t).

Definition Tileset_set_properties (t : Tileset.t) (p : gmap string string) : Tileset.t :=
  Tileset_update t (Tileset.firstgid t) (Tileset.orientation t) (Some p).

Definition Tile_set_properties (t : Tile.t) (p : gmap string string) : Tile.t :=
  Tile.mk (Tile.id t) (Tile.gid t) (Tile.type t) (Tile.terrain t) (Tile.image t) (Some p).

Definition Tile_set_image (t : Tile.t) (i : TileImageType) : Tile.t :=
  Tile.mk (Tile.id t) (Tile.gid t) (Tile.type t) (Tile.terrain t) i (Tile.properties t).

Definition Context_update (c : Context.t) (tiles : gmap Z (option Tile.t))
    (firstgid : Z) : Context.t :=
  Context.mk (Context.path c) (Context.folder c) (Context.invert_y c) tiles firstgid.

Definition Context_set_tiles (c : Context.t) (tiles : gmap Z (option Tile.t)) : Context.t :=
  Context_update c tiles (Context.firstgid c).

Definition Context_set_firstgid (c : Context.t) (g : Z) : Context.t :=
  Context_update c (Context.tiles c) g.

Definition Token_set_obj (t : Token.t) (o : obj) : Token.t :=
  Token.mk (Token.type t) (Token.attrib t) (Token.text t) o.

(** *** Helpers *)

(** A list comprehension whose element expression may raise. *)
Fixpoint traverse {A B : Type} (f : A -> result B) (l : list A) : result (list B) :=
  match l with
  | [] => Ok []
  | a :: rest => b <- f a ;; bs <- traverse f rest ;; Ok (b :: bs)
  end.

(** The truth value of an optional string and of an optional integer. *)
Definition truthy_str (o : option string) : bool :=
  match o with
  | Some s => negb (String.eqb s EmptyString)
  | None => false
  end.

Definition truthy_int (o : option Z) : bool :=
  match o with
  | Some z => negb (z =? 0)
  | None => false
  end.

(** The truth value of an optional float: [None] and both zeros are false. *)
Definition truthy_float (o : option float) : bool :=
  match o with
  | Some f => negb (PrimFloat.eqb f PrimFloat.zero)
  | None => false
  end.

(** [struct.Struct("<L").unpack] over the 4-byte slices of [data]; a
    shorter last slice raises [struct.error]. *)
Fixpoint unpack_le32 (data : list byte) : result (list Z) :=
  match data with
  | [] => Ok []
  | b0 :: b1 :: b2 :: b3 :: rest =>
      vs <- unpack_le32 rest ;;
      Ok ((Z.of_N (Byte.to_N b0) + 256 * Z.of_N (Byte.to_N b1)
           + 65536 * Z.of_N (Byte.to_N b2) + 16777216 * Z.of_N (Byte.to_N b3)) :: vs)
  | _ => Raise (LibraryError "struct.error")
  end.

(** [gids[i : i + width]] for [0 <= i] and [0 < width]. *)
Definition slice {A : Type} (l : list A) (i width : Z) : list A :=
  take (Z.to_nat width) (drop (Z.to_nat i) l).

(** [reshape_data], lines 86-88; [width] is [None] when the map tag has
    no width. *)
Definition reshape_data {A : Type} (gids : list A) (width : option Z)
    : result (list (list A)) :=
  w <- not_none "'NoneType' object cannot be interpreted as an integer" width ;;
  starts <- range 0 (Z.of_nat (length gids)) w ;;
  Ok (map (fun i => slice gids i w) starts).

Section WithRuntime.
Context {RT : Runtime}.

(** [int], [float] and [bool] applied to an attribute value. *)
Definition int_ (s : string) : result Z :=
  match py_int s with
  | Some z => Ok z
  | None => Raise (ValueError "invalid literal for int() with base 10")
  end.

Definition float_ (s : string) : result float :=
  match py_float s with
  | Some f => Ok f
  | None => Raise (ValueError "could not convert string to float")
  end.

Definition bool_ (s : string) : result bool :=
  Ok (negb (String.eqb s EmptyString)).

(** [unpack_gids], lines 67-83.  The result is [None] when no branch
    returns. *)
Definition unpack_gids (text : option string) (encoding compression : option string)
    : result (option (list Z)) :=
  if decide (encoding = Some "base64") then
    t <- not_none "argument should be a bytes-like object or ASCII string, not 'NoneType'"
           text ;;
    data <- match b64decode t with
            | Some d => Ok d
            | None => Raise (LibraryError "binascii.Error")
            end ;;
    data <- (if decide (compression = Some "gzip") then
               match gzip_decompress data with
               | Some d => Ok d
               | None => Raise (LibraryError "gzip.BadGzipFile")
               end
             else if decide (compression = Some "zlib") then
               match zlib_decompress data with
               | Some d => Ok d
               | None => Raise (LibraryError "zlib.error")
               end
             else match compression with
                  | Some c =>
                      if negb (String.eqb c EmptyString)
                      then Raise (Exception
                                    ("layer compression " +:+ c +:+ " is not supported."))
                      else Ok data
                  | None => Ok data
                  end) ;;
    gids <- unpack_le32 data ;;
    Ok (Some gids)
  else if decide (encoding = Some "csv") then
    match text with
    | None => Raise (AttributeError "'NoneType' object has no attribute 'split'")
    | Some t => gids <- traverse int_ (Str.split_on "," t) ;; Ok (Some gids)
    end
  else match encoding with
       | Some e =>
           if negb (String.eqb e EmptyString)
           then Raise (Exception ("layer encoding " +:+ e +:+ " is not supported."))
           else Ok None
       | None => Ok None
       end.

(** [getdefault(d)], lines 129-139, at its three uses: [get(key)],
    [get(key, type)] and [get(key, type, default)]. *)
Definition get (d : gmap string string) (key : string) : option string := d !! key.

Definition get_as {A : Type} (d : gmap string string) (key : string)
    (type : string -> result A) : result (option A) :=
  match d !! key with
  | None => Ok None
  | Some value => rmap Some (type value)
  end.

Definition get_or {A : Type} (d : gmap string string) (key : string)
    (type : string -> result A) (default : A) : result A :=
  match d !! key with
  | None => Ok default
  | Some value => type value
  end.

(** The numeric attributes of an [object] tag other than [y] and
    [height] convert without error. *)
Definition object_attributes_convert (attrib : gmap string string) : bool :=
  is_Ok (get_as attrib "x" float_) && is_Ok (get_as attrib "width" float_)
  && is_Ok (get_as attrib "rotation" float_) && is_Ok (get_or attrib "gid" int_ 0).

(** *** The builders: [start], lines 149-290 *)

(** [parse] stands for the recursive call [iter_tmx(ctx, path)] run to its
    end by [list(...)]: it returns the context it left and the objects it
    yielded. *)
Definition start (parse : Context.t -> string -> result (Context.t * list obj))
    (ctx : Context.t) (name : string) (attrib : gmap string string)
    (text : option string) : result (Context.t * obj) :=
  if String.eqb name "Data" then
    Ok (ctx, OData (Data.mk (get attrib "encoding") (get attrib "compression") text))
  else if String.eqb name "Ellipse" then
    Ok (ctx, OCircle)
  else if String.eqb name "Grid" then
    width <- get_as attrib "width" int_ ;;
    height <- get_as attrib "height" int_ ;;
    Ok (ctx, OGrid (Grid.mk (get attrib "orientation") width height))
  else if String.eqb name "Group" then
    opacity <- get_or attrib "opacity" float_ 1%float ;;
    visible <- get_or attrib "visible" bool_ true ;;
    Ok (ctx, OGroup (Group.mk (get attrib "name") opacity visible (get attrib "tintcolor")
                       (get attrib "offsetx") (get attrib "offsety") []))
  else if String.eqb name "Image" then
    width <- get_as attrib "width" int_ ;;
    height <- get_as attrib "height" int_ ;;
    Ok (ctx, OImage (Image.mk (get attrib "source") width height (get attrib "trans")))
  else if String.eqb name "Imagelayer" then
    Ok (ctx, OImageLayer (ImageLayer.mk (get attrib "name") (get attrib "visible")
                            (option_map inl (get attrib "image"))))
  else if String.eqb name "Layer" then
    opacity <- get_or attrib "opacity" float_ 1%float ;;
    visible <- get_or attrib "visible" bool_ true ;;
    Ok (ctx, OTileLayer (TileLayer.mk (get attrib "name") opacity visible
                           (get attrib "tintcolor") (get attrib "offsetx")
                           (get attrib "offsety")
                           (match get attrib "data" with
                            | Some d => DataAttr d
                            | None => DataNone
                            end)
                           None))
  else if String.eqb name "Map" then
    width <- get_as attrib "width" int_ ;;
    height <- get_as attrib "height" int_ ;;
    tilewidth <- get_as attrib "tilewidth" int_ ;;
    tileheight <- get_as attrib "tileheight" int_ ;;
    hexsidelength <- get_as attrib "hexsidelength" int_ ;;
    staggeraxis <- get_as attrib "staggeraxis" int_ ;;
    staggerindex <- get_as attrib "staggerindex" int_ ;;
    infinite <- get_or attrib "infinite" bool_ false ;;
    Ok (ctx, OMap (Map.mk (get attrib "version") (get attrib "tiledversion")
                     (get attrib "orientation") (get attrib "renderorder")
                     (get attrib "compressionlevel") width height tilewidth tileheight
                     hexsidelength staggeraxis staggerindex
                     (get attrib "backgroundcolor") infinite (Context.path ctx)
                     [] [] [] ∅))
  else if String.eqb name "Object" then
    y <- get_as attrib "y" float_ ;;
    height <- get_as attrib "height" float_ ;;
    y <- (if Context.invert_y ctx && truthy_float height
          then match y, height with
               | Some y0, Some h => Ok (Some (PrimFloat.sub y0 h))
               | _, _ => Raise (TypeError
                           "unsupported operand type(s) for -=: 'NoneType' and 'float'")
               end
          else Ok y) ;;
    x <- get_as attrib "x" float_ ;;
    width <- get_as attrib "width" float_ ;;
    rotation <- get_as attrib "rotation" float_ ;;
    gid <- get_or attrib "gid" int_ 0 ;;
    visible <- get_or attrib "visible" bool_ true ;;
    Ok (ctx, OObject (Object.mk (get attrib "name") (get attrib "type") x y width height
                        rotation gid visible [] None))
  else if String.eqb name "Objectgroup" then
    opacity <- get_or attrib "opacity" float_ 1%float ;;
    visible <- get_or attrib "visible" bool_ true ;;
    offsetx <- get_as attrib "offsetx" float_ ;;
    offsety <- get_as attrib "offsety" float_ ;;
    Ok (ctx, OObjectGroup (ObjectGroup.mk (get attrib "name") (get attrib "color") opacity
                             visible (get attrib "tintcolor") offsetx offsety
                             (get attrib "draworder") []))
  else if String.eqb name "Point" then
    x <- get_as attrib "x" int_ ;;
    y <- get_as attrib "y" int_ ;;
    Ok (ctx, OPoint (Point.mk x y))
  else if String.eqb name "Polygon" then
    match get attrib "points" with
    | None => Raise (AttributeError "'NoneType' object has no attribute 'split'")
    | Some pts =>
        points <- traverse (fun i => traverse float_ (Str.split_on "," i))
                    (Str.split_spaces pts) ;;
        Ok (ctx, OPolygon (Polygon.mk points))
    end
  else if String.eqb name "Polyline" then
    Ok (ctx, OPolyline (Polyline.mk (get attrib "points")))
  else if String.eqb name "Properties" then
    Ok (ctx, OProperties (Properties.mk ∅))
  else if String.eqb name "Property" then
    match attrib !! "name" with
    | None => Raise (KeyError "name")
    | Some n =>
        match attrib !! "value" with
        | None => Raise (KeyError "value")
        | Some v => Ok (ctx, OProperty (Property.mk n (attrib !! "type") v))
        end
    end
  else if String.eqb name "Tile" then
    id <- get_as attrib "id" int_ ;;
    gid <- get_as attrib "gid" int_ ;;
    Ok (ctx, OTile (Tile.mk id gid (get attrib "type") (get attrib "terrain") None None))
  else if String.eqb name "Text" then
    Ok (ctx, OText (Text.mk (get attrib "fontfamily") (get attrib "pixelsize")
                      (get attrib "wrap") (get attrib "color") (get attrib "bold")
                      (get attrib "italic") (get attrib "underline")
                      (get attrib "strikeout") (get attrib "kerning")
                      (get attrib "halign") (get attrib "valign")))
  else if String.eqb name "Tileset" then
    let source := get attrib "source" in
    firstgid <- get_as attrib "firstgid" int_ ;;
    let ctx := if truthy_int firstgid
               then Context_set_firstgid ctx (default 0 firstgid)
               else ctx in
    if truthy_str source then
      r <- parse ctx (Str.path_join (Context.folder ctx) (default EmptyString source)) ;;
      match last (snd r) with
      | Some tileset => Ok (fst r, tileset)
      | None => Raise (IndexError "list index out of range")
      end
    else
      firstgid <- get_or attrib "firstgid" int_ 0 ;;
      tilewidth <- get_as attrib "tilewidth" int_ ;;
      tileheight <- get_as attrib "tileheight" int_ ;;
      spacing <- get_or attrib "spacing" int_ 0 ;;
      margin <- get_or attrib "margin" int_ 0 ;;
      Ok (ctx, OTileset (Tileset.mk firstgid (get attrib "source") (get attrib "name")
                           tilewidth tileheight spacing margin (get attrib "tilecount")
                           (get attrib "columns") (get attrib "objectalignment")
                           None None))
  else Raise (ValueError name).

(** *** The reducers: [end], lines 293-377 *)

Definition no_attribute (cls attr : string) : exn :=
  AttributeError ("'" +:+ cls +:+ "' object has no attribute '" +:+ attr +:+ "'").

(** The loop of the [Tileset.Image] reducer, lines 357-360: one sliced
    tile per enumerated origin, stored under its flag-stripped gid. *)
Definition slice_sheet (path : string) (trans : option string) (tilewidth tileheight : Z)
    (tiles : gmap Z (option Tile.t)) (p : list (Z * (Z * Z))) : gmap Z (option Tile.t) :=
  fold_left
    (fun acc '(raw_gid, (y, x)) =>
       let '(gid, flags) := Gid.decode_gid raw_gid in
       let rect := Slicing.rect_of tilewidth tileheight (y, x) in
       let image := Some (mkImageHandle path trans (Some rect) (Some flags)) in
       <[gid := Some (Tile.mk None (Some gid) None None image None)]> acc)
    p tiles.

(** The gids a tile layer's [data] iterates to when the map closes. *)
Definition iterate_data (d : layer_data) : result (list Z) :=
  match d with
  | DataFlat gids => Ok gids
  | DataNone => Raise (TypeError "'NoneType' object is not iterable")
  | DataAttr s =>
      if String.eqb s EmptyString then Ok []
      else Raise (TypeError "unsupported operand type(s) for &: 'str' and 'int'")
  | DataGrid [] | DataGids [] => Ok []
  | DataGrid (_ :: _) | DataGids (_ :: _) =>
      Raise (TypeError "unsupported operand type(s) for &: 'list' and 'int'")
  end.

(** The body of the loop of the [Map] reducer, lines 309-311, for one
    layer of [child.layers]; only tile layers are touched. *)
Definition resolve_layer (tiles : gmap Z (option Tile.t)) (width : option Z) (l : layer)
    : result layer :=
  match l with
  | LTileLayer tl =>
      gids <- iterate_data (TileLayer.data tl) ;;
      data <- traverse (fun gid =>
                match tiles !! (fst (Gid.decode_gid gid)) with
                | Some t => Ok t
                | None => Raise (KeyError "gid")
                end) gids ;;
      rows <- reshape_data data width ;;
      Ok (LTileLayer (TileLayer_set_data tl (DataGrid rows)))
  | other => Ok other
  end.

(** [end(ctx, path, parent, child, stack)]; the unused [stack] is
    dropped.  The reducers mutate [ctx], [parent] and (for [Map]) [child]
    in place: the three are returned.  An object of the wrong class is
    possible only under a [Tileset] tag that took its object from an
    external file. *)
Definition end_ (ctx : Context.t) (path : string) (parent : option obj) (child : obj)
    : result (Context.t * option obj * obj) :=
  let keep := Ok (ctx, parent, child) in
  let set (p : obj) := Ok (ctx, Some p, child) in
  let wrong (attr : string) := Raise (no_attribute "object" attr) in
  if String.eqb path "Data.Tile" then
    Raise (MasonException
             "Map using XML Tile elements not supported.  Save file under a new format.")
  else if String.eqb path "Group.Layer" then
    match parent, child with
    | Some (OGroup g), OTileLayer l => set (OGroup (Group_append g (inl l)))
    | _, _ => wrong "layers"
    end
  else if String.eqb path "Group.Objectgroup" then
    match parent, child with
    | Some (OGroup g), OObjectGroup l => set (OGroup (Group_append g (inr l)))
    | _, _ => wrong "layers"
    end
  else if String.eqb path "Imagelayer.Image" then
    match parent, child with
    | Some (OImageLayer l), OImage i => set (OImageLayer (ImageLayer_set_image l i))
    | _, _ => wrong "image"
    end
  else if String.eqb path "Layer.Data" then
    match parent, child with
    | Some (OTileLayer l), OData d =>
        gids <- unpack_gids (Data.text d) (Data.encoding d) (Data.compression d) ;;
        set (OTileLayer (TileLayer_set_data l
               (match gids with Some g => DataFlat g | None => DataNone end)))
    | _, _ => wrong "text"
    end
  else if String.eqb path "Layer.Properties" then
    match parent, child with
    | Some (OTileLayer l), OProperties p =>
        set (OTileLayer (TileLayer_set_properties l (Properties.data p)))
    | _, _ => wrong "data"
    end
  else if String.eqb path "Map" then
    match child with
    | OMap m =>
        layers <- traverse (resolve_layer (Context.tiles ctx) (Map.width m))
                    (Map.layers m) ;;
        Ok (ctx, parent, OMap (Map_set_layers m layers))
    | _ => wrong "tile_layers"
    end
  else if String.eqb path "Map.Group" then
    match parent, child with
    | Some (OMap m), OGroup g => set (OMap (add_layer m (LGroup g)))
    | _, _ => wrong "add_layer"
    end
  else if String.eqb path "Map.Imagelayer" then
    match parent, child with
    | Some (OMap m), OImageLayer l => set (OMap (add_layer m (LImageLayer l)))
    | _, _ => wrong "add_layer"
    end
  else if String.eqb path "Map.Layer" then
    match parent, child with
    | Some (OMap m), OTileLayer l => set (OMap (add_layer m (LTileLayer l)))
    | _, _ => wrong "add_layer"
    end
  else if String.eqb path "Map.Objectgroup" then
    match parent, child with
    | Some (OMap m), OObjectGroup g => set (OMap (add_layer m (LObjectGroup g)))
    | _, _ => wrong "add_layer"
    end
  else if String.eqb path "Map.Properties" then
    match parent, child with
    | Some (OMap m), OProperties p => set (OMap (Map_set_properties m (Properties.data p)))
    | _, _ => wrong "data"
    end
  else if String.eqb path "Map.Tileset" then
    match parent, child with
    | Some (OMap m), OTileset t => set (OMap (add_tileset m t))
    | Some (OMap _), _ => Raise AssertionError
    | _, _ => wrong "add_tileset"
    end
  else if String.eqb path "Object.Ellipse" then
    match parent, child with
    | Some (OObject o), OCircle => set (OObject (Object_append_shape o ShapeCircle))
    | _, _ => wrong "shapes"
    end
  else if String.eqb path "Object.Point" then
    match parent, child with
    | Some (OObject o), OPoint q => set (OObject (Object_append_shape o (ShapePoint q)))
    | _, _ => wrong "shapes"
    end
  else if String.eqb path "Object.Properties" then
    match parent, child with
    | Some (OObject o), OProperties p =>
        set (OObject (Object_set_properties o (Properties.data p)))
    | _, _ => wrong "data"
    end
  else if String.eqb path "Object.Polygon" then
    match parent, child with
    | Some (OObject o), OPolygon q => set (OObject (Object_append_shape o (ShapePolygon q)))
    | _, _ => wrong "shapes"
    end
  else if String.eqb path "Object.Polyline" then
    match parent, child with
    | Some (OObject o), OPolyline q =>
        set (OObject (Object_append_shape o (ShapePolyline q)))
    | _, _ => wrong "shapes"
    end
  else if String.eqb path "Objectgroup.Object" then
    match parent, child with
    | Some (OObjectGroup g), OObject o => set (OObjectGroup (ObjectGroup_append g o))
    | _, _ => wrong "objects"
    end
  else if String.eqb path "Object.Text" then
    match parent, child with
    | Some (OObject o), OText t => set (OObject (Object_append_shape o (ShapeText t)))
    | _, _ => wrong "shapes"
    end
  else if String.eqb path "Properties.Property" then
    match parent, child with
    | Some (OProperties p), OProperty q =>
        set (OProperties (Properties.mk
               (<[Property.name q := Property.value q]> (Properties.data p))))
    | _, _ => wrong "data"
    end
  else if String.eqb path "Tileset.Grid" then
    match parent, child with
    | Some (OTileset t), OGrid g =>
        if decide (Grid.orientation g = Some "orthogonal")
        then set (OTileset (Tileset_set_orientation t (Grid.orientation g)))
        else Raise AssertionError
    | Some (OMap m), OGrid g =>
        if decide (Grid.orientation g = Some "orthogonal")
        then set (OMap (Map_set_orientation m (Grid.orientation g)))
        else Raise AssertionError
    | _, _ => wrong "orientation"
    end
  else if String.eqb path "Tileset.Image" then
    match parent, child with
    | Some (OTileset t), OImage i =>
        source <- not_none "expected str, bytes or os.PathLike object, not NoneType"
                    (Image.source i) ;;
        let path := Str.path_join (Context.folder ctx) source in
        p <- Slicing.iter_image_tiles (Image.width i) (Image.height i)
               (Tileset.tilewidth t) (Tileset.tileheight t)
               (Tileset.margin t) (Tileset.spacing t) ;;
        tw <- not_none "tilewidth" (Tileset.tilewidth t) ;;
        th <- not_none "tileheight" (Tileset.tileheight t) ;;
        Ok (Context_set_tiles ctx
              (slice_sheet path (Image.trans i) tw th (Context.tiles ctx)
                 (enumerate p (Tileset.firstgid t))),
            parent, child)
    | Some (OMap _), OImage i =>
        _ <- not_none "expected str, bytes or os.PathLike object, not NoneType"
               (Image.source i) ;;
        Raise (no_attribute "Map" "margin")
    | _, _ => wrong "source"
    end
  else if String.eqb path "Tileset.Properties" then
    match parent, child with
    | Some (OTileset t), OProperties p =>
        set (OTileset (Tileset_set_properties t (Properties.data p)))
    | Some (OMap m), OProperties p =>
        set (OMap (Map_set_properties m (Properties.data p)))
    | _, _ => wrong "data"
    end
  else if String.eqb path "Tile.Properties" then
    match parent, child with
    | Some (OTile t), OProperties p => set (OTile (Tile_set_properties t (Properties.data p)))
    | _, _ => wrong "data"
    end
  else if String.eqb path "Tile.Image" then
    match parent, child with
    | Some (OTile t), OImage i =>
        source <- not_none "expected str, bytes or os.PathLike object, not NoneType"
                    (Image.source i) ;;
        let path := Str.path_join (Context.folder ctx) source in
        set (OTile (Tile_set_image t (Some (mkImageHandle path None None None))))
    | _, _ => wrong "source"
    end
  else if String.eqb path "Tileset" then
    keep
  else if String.eqb path "Tileset.Tile" then
    match parent, child with
    | Some (OTileset t), OTile c =>
        let t := if negb (Tileset.firstgid t =? 0)
                 then t
                 else Tileset_set_firstgid t (Context.firstgid ctx) in
        id <- not_none "unsupported operand type(s) for +: 'int' and 'NoneType'"
                (Tile.id c) ;;
        Ok (Context_set_tiles ctx
              (<[Tileset.firstgid t + id := Some c]> (Context.tiles ctx)),
            Some (OTileset t), child)
    | Some (OMap _), OTile _ => Raise (no_attribute "Map" "firstgid")
    | _, _ => wrong "firstgid"
    end
  else Raise (ValueError path).

(** *** The event loop: [iter_tmx], lines 386-409 *)

Inductive event_kind : Type := EvStart | EvEnd.

Record event : Type := mkEvent {
  ev_kind : event_kind;
  ev_tag : string;
  ev_attrib : gmap string string;
  ev_text : option string
}.

(** The ("start", "end") events [iterparse] emits for a document. *)
Fixpoint events_of (e : element) : list event :=
  match e with
  | Element tag attrib text children =>
      mkEvent EvStart tag attrib text
        :: flat_map events_of children ++ [mkEvent EvEnd tag attrib text]
  end.

(** The loop's state: the context, the stack (top first) and the objects
    yielded so far (oldest first). *)
Definition state : Type := Context.t * list Token.t * list obj.

(** One iteration of the [for event, element in root] loop. *)
Definition step (parse : Context.t -> string -> result (Context.t * list obj))
    (st : state) (ev : event) : result state :=
  let '(ctx, stack, yielded) := st in
  let name := Str.title (ev_tag ev) in
  match ev_kind ev with
  | EvStart =>
      r <- start parse ctx name (ev_attrib ev) (ev_text ev) ;;
      Ok (fst r, Token.mk name (ev_attrib ev) (ev_text ev) (snd r) :: stack, yielded)
  | EvEnd =>
      match stack with
      | [] => Raise (IndexError "pop from empty list")
      | t :: [] =>
          r <- end_ ctx (Token.type t) None (Token.obj t) ;;
          let '(ctx', _, child) := r in
          Ok (ctx', [], yielded ++ [child])
      | t :: parent :: below =>
          r <- end_ ctx (Token.type parent +:+ "." +:+ Token.type t)
                 (Some (Token.obj parent)) (Token.obj t) ;;
          let '(ctx', parent', child) := r in
          Ok (ctx', Token_set_obj parent (default (Token.obj parent) parent') :: below,
              yielded ++ [child])
      end
  end.

Fixpoint run_events (parse : Context.t -> string -> result (Context.t * list obj))
    (st : state) (events : list event) : result state :=
  match events with
  | [] => Ok st
  | ev :: rest => st' <- step parse st ev ;; run_events parse st' rest
  end.

(** [list(iter_tmx(ctx, path))].  [depth] bounds the nesting of external
    files: Python gives up with RecursionError when a file refers back to
    itself. *)
Fixpoint iter_tmx (depth : nat) (ctx : Context.t) (path : string)
    : result (Context.t * list obj) :=
  match depth with
  | O => Raise RecursionError
  | S depth' =>
      match iterparse path with
      | None => Raise (LibraryError "ElementTree.iterparse")
      | Some root =>
          st <- run_events (iter_tmx depth') (ctx, [], []) (events_of root) ;;
          Ok (fst (fst st), snd st)
      end
  end.

(** [load_tmx], lines 412-421. *)
Definition load_tmx (depth : nat) (path : string) : result obj :=
  let ctx := Context.mk path (Str.dirname path) true {[ 0 := None ]} 0 in
  r <- iter_tmx depth ctx path ;;
  match last (snd r) with
  | Some mason_map => Ok mason_map
  | None => Raise (IndexError "list index out of range")
  end.

(** The [Tileset] record that [start] builds from a tag without a
    [source] attribute: a function of the attributes alone. *)
Definition inline_tileset (attrib : gmap string string) : result Tileset.t :=
  firstgid <- get_or attrib "firstgid" int_ 0 ;;
  tilewidth <- get_as attrib "tilewidth" int_ ;;
  tileheight <- get_as attrib "tileheight" int_ ;;
  spacing <- get_or attrib "spacing" int_ 0 ;;
  margin <- get_or attrib "margin" int_ 0 ;;
  Ok (Tileset.mk firstgid (get attrib "source") (get attrib "name")
        tilewidth tileheight spacing margin (get attrib "tilecount")
        (get attrib "columns") (get attrib "objectalignment") None None).

End WithRuntime.

(** *** Summaries of the dispatch tables and of a tileset's children *)

(** The tag names [start] has a branch for. *)
Definition tag_names : list string :=
  [ "Data"; "Ellipse"; "Grid"; "Group"; "Image"; "Imagelayer"; "Layer"; "Map";
    "Object"; "Objectgroup"; "Point"; "Polygon"; "Polyline"; "Properties";
    "Property"; "Tile"; "Text"; "Tileset" ].

(** The paths [end] has a branch for. *)
Definition reducer_paths : list string :=
  [ "Data.Tile"; "Group.Layer"; "Group.Objectgroup"; "Imagelayer.Image";
    "Layer.Data"; "Layer.Properties"; "Map"; "Map.Group"; "Map.Imagelayer";
    "Map.Layer"; "Map.Objectgroup"; "Map.Properties"; "Map.Tileset";
    "Object.Ellipse"; "Object.Point"; "Object.Properties"; "Object.Polygon";
    "Object.Polyline"; "Objectgroup.Object"; "Object.Text";
    "Properties.Property"; "Tileset.Grid"; "Tileset.Image";
    "Tileset.Properties"; "Tile.Properties"; "Tile.Image"; "Tileset";
    "Tileset.Tile" ].

Definition is_reducer_path (path : string) : bool :=
  existsb (String.eqb path) reducer_paths.

(** The tags under which no child can be reduced. *)
Definition leaf_names : list string :=
  [ "Data"; "Ellipse"; "Grid"; "Image"; "Point"; "Polygon"; "Polyline";
    "Property"; "Text" ].

(** What a [property] child does to the map a [properties] tag collects. *)
Definition property_effect (p : gmap string string) (c : element) : gmap string string :=
  match c with
  | Element _ a _ _ =>
      <[default EmptyString (a !! "name") := default EmptyString (a !! "value")]> p
  end.

(** What a child that parses does to its parent tileset, [pending] being
    the context's pending firstgid. *)
Definition tileset_child_effect (pending : Z) (ts : Tileset.t) (c : element) : Tileset.t :=
  match c with
  | Element tag a _ cs =>
      let name := Str.title tag in
      if String.eqb name "Grid" then Tileset_set_orientation ts (a !! "orientation")
      else if String.eqb name "Properties"
      then Tileset_set_properties ts (fold_left property_effect cs ∅)
      else if String.eqb name "Tile"
      then (if negb (Tileset.firstgid ts =? 0) then ts
            else Tileset_set_firstgid ts pending)
      else ts
  end.

(** The context after [if firstgid: ctx.firstgid = firstgid] (line 272). *)
Definition pending_firstgid (ctx : Context.t) (g : option Z) : Context.t :=
  if truthy_int g then Context_set_firstgid ctx (default 0 g) else ctx.

Definition is_tile (c : element) : bool :=
  match c with Element tag _ _ _ => String.eqb (Str.title tag) "Tile" end.



(** Running the events of [e] on a non-empty stack touches the top token
    only, and leaves its type alone. *)
Definition frames {RT : Runtime}
    (parse : Context.t -> string -> result (Context.t * list obj)) (e : element) : Prop :=
  forall ctx tk below ys st',
    run_events parse (ctx, tk :: below, ys) (events_of e) = Ok st' ->
    exists ctx' tk' ys',
      st' = (ctx', tk' :: below, ys') /\ Token.type tk' = Token.type tk.

(** Running the events of [e] under a parent other than [Map] leaves the
    context's pending firstgid alone. *)
Definition keeps_firstgid {RT : Runtime}
    (parse : Context.t -> string -> result (Context.t * list obj)) (e : element) : Prop :=
  forall ctx tk below ys ctx' stack' ys',
    In (Token.type tk) tag_names -> Token.type tk <> "Map" ->
    run_events parse (ctx, tk :: below, ys) (events_of e) = Ok (ctx', stack', ys') ->
    Context.firstgid ctx' = Context.firstgid ctx.

(** Case analysis on membership in one of the name tables. *)
Ltac each_name H :=
  cbv [In tag_names leaf_names] in H;
  repeat (destruct H as [<- | H]); [.. | destruct H].

(** Closes a goal whose hypothesis [He] says that [end_] returned on a
    path it has no branch for ([unknown] is the lemma for such paths), or
    on [Data.Tile]. *)
Ltac dead_path unknown He :=
  first [ rewrite unknown in He by reflexivity; discriminate He
        | (unfold end_ in He; cbn [String.eqb Ascii.eqb Bool.eqb] in He;
           discriminate He) ].

End Mason.

(** ** A small runtime and sample files, for evaluating the parser *)

Module SampleRuntime.

(** Decimal literals: digits, with an optional leading minus sign. *)
Fixpoint digits_value (acc : Z) (s : string) : option Z :=
  match s with
  | EmptyString => Some acc
  | String c rest =>
      let n := nat_of_ascii c in
      if (48 <=? n)%nat && (n <=? 57)%nat
      then digits_value (10 * acc + Z.of_nat (n - 48)) rest
      else None
  end.

Definition parse_int (s : string) : option Z :=
  match s with
  | EmptyString => None
  | String c rest =>
      if Ascii.eqb c "-"
      then match rest with
           | EmptyString => None
           | _ => option_map Z.opp (digits_value 0 rest)
           end
      else digits_value 0 s
  end.

(** Floats written as decimal integers. *)
Definition parse_float (s : string) : option float :=
  option_map (fun z => if z <? 0 then PrimFloat.opp (PrimFloat.of_uint63 (Uint63.of_Z (- z)))
                       else PrimFloat.of_uint63 (Uint63.of_Z z))
             (parse_int s).

Definition b64_index (c : ascii) : option Z :=
  let n := Z.of_nat (nat_of_ascii c) in
  if (65 <=? n) && (n <=? 90) then Some (n - 65)
  else if (97 <=? n) && (n <=? 122) then Some (n - 71)
  else if (48 <=? n) && (n <=? 57) then Some (n + 4)
  else if n =? 43 then Some 62
  else if n =? 47 then Some 63
  else None.

Definition byte_of_Z (z : Z) : byte :=
  default Byte.x00 (Byte.of_N (Z.to_N (z mod 256))).

(** Standard base64, padded, over groups of four characters. *)
Fixpoint b64_quads (cs : list ascii) : option (list byte) :=
  match cs with
  | [] => Some []
  | a :: b :: c :: d :: rest =>
      match b64_index a, b64_index b with
      | Some va, Some vb =>
          let b1 := byte_of_Z (va * 4 + vb / 16) in
          if Ascii.eqb c "="
          then (if Ascii.eqb d "=" && bool_decide (rest = []) then Some [b1] else None)
          else match b64_index c with
               | Some vc =>
                   let b2 := byte_of_Z (vb * 16 + vc / 4) in
                   if Ascii.eqb d "="
                   then (if bool_decide (rest = []) then Some [b1; b2] else None)
                   else match b64_index d, b64_quads rest with
                        | Some vd, Some tail =>
                            Some (b1 :: b2 :: byte_of_Z (vc * 64 + vd) :: tail)
                        | _, _ => None
                        end
               | None => None
               end
      | _, _ => None
      end
  | _ => None
  end.

Definition decode_base64 (s : string) : option (list byte) :=
  b64_quads (list_ascii_of_string s).

(** A runtime over a table of parsed files, without decompression. *)
Definition runtime (files : gmap string element) : Runtime :=
  {| py_int := parse_int;
     py_float := parse_float;
     b64decode := decode_base64;
     gzip_decompress := fun _ => None;
     zlib_decompress := fun _ => None;
     iterparse := fun path => files !! path |}.

(** [<tileset name="shared" tilewidth="32" tileheight="32"> <tile id="0">
    <properties> <property name="kind" value="grass"/> </properties>
    </tile> <tile id="1"/> </tileset>]: an external tileset that declares
    no firstgid. *)
Definition shared_attrib : gmap string string :=
  {[ "name" := "shared"; "tilewidth" := "32"; "tileheight" := "32" ]}.

Definition shared_children : list element :=
  [ Element "tile" {[ "id" := "0" ]} None
      [ Element "properties" ∅ None
          [ Element "property" {[ "name" := "kind"; "value" := "grass" ]} None [] ] ];
    Element "tile" {[ "id" := "1" ]} None [] ].

Definition shared_tsx : element :=
  Element "tileset" shared_attrib None shared_children.

(** The attributes of [<tileset firstgid=... source=...>]. *)
Definition reference (firstgid source : string) : gmap string string :=
  {[ "firstgid" := firstgid; "source" := source ]}.

(** The same tileset declaring [firstgid="7"] itself. *)
Definition own_gid_tsx : element :=
  Element "tileset" {[ "name" := "own"; "firstgid" := "7" ]} None
    [ Element "tile" {[ "id" := "0" ]} None [] ].

(** A sprite-sheet tileset: an image and no tile element. *)
Definition sheet_tsx : element :=
  Element "tileset" {[ "name" := "sheet"; "tilewidth" := "32"; "tileheight" := "32" ]}
    None
    [ Element "image" {[ "source" := "tiles.png"; "width" := "64"; "height" := "32" ]}
        None [] ].

(** A map that refers to [shared.tsx] with [firstgid="5"]. *)
Definition town_tmx : element :=
  Element "map"
    {[ "width" := "2"; "height" := "1"; "tilewidth" := "32"; "tileheight" := "32" ]} None
    [ Element "tileset" (reference "5" "shared.tsx") None [];
      Element "layer" {[ "name" := "ground" ]} None
        [ Element "data" {[ "encoding" := "csv" ]} (Some "5,6") [] ];
      Element "objectgroup" {[ "name" := "things" ]} None
        [ Element "object" {[ "y" := "100"; "height" := "20" ]} None [] ] ].

(** A map whose layer data carries no encoding attribute. *)
Definition plain_tmx : element :=
  Element "map" {[ "width" := "2"; "height" := "1" ]} None
    [ Element "layer" {[ "name" := "ground" ]} None
        [ Element "data" ∅ (Some "1,2") [] ] ].

Definition files : gmap string element :=
  {[ "maps/plain.tmx" := plain_tmx;
     "maps/shared.tsx" := shared_tsx;
     "maps/own.tsx" := own_gid_tsx;
     "maps/sheet.tsx" := sheet_tsx;
     "maps/town.tmx" := town_tmx ]}.

Definition sample : Runtime := runtime files.

(** The context [load_tmx] builds for [maps/town.tmx]. *)
Definition town_context : Mason.Context.t :=
  Mason.Context.mk "maps/town.tmx" "maps" true {[ 0 := None ]} 0.

(** The attributes of [<object y=... height=...>]. *)
Definition declared (y height : string) : gmap string string :=
  {[ "y" := y; "height" := height ]}.

End SampleRuntime.

(** ** Sample documents used to exercise the queries *)

Module Samples.
Import Dc.

Definition tile (g : Z) : option Tile.t :=
  Some (Tile.mk None (Some g) None None None None).

Definition grid4 (g : Z) : list (list (option Tile.t)) :=
  replicate 4 (replicate 4 (tile g)).

Definition tile_layer (name : string) (visible : bool)
    (rows : list (list (option Tile.t))) : TileLayer.t :=
  TileLayer.mk (Some name) 1%float visible None None None (DataGrid rows) None.

Definition map_of (layers : list layer) (images : list TileImageType) : Map.t :=
  Map.mk None None (Some "orthogonal") None None (Some 4) (Some 4) (Some 32) (Some 32)
         None None None None false "sample.tmx" layers [] images ∅.

(** A map with two tile layers of size 4x4. *)
Definition two_layer_map : Map.t :=
  map_of [ LTileLayer (tile_layer "ground" true (grid4 1));
           LTileLayer (tile_layer "top" true (grid4 2)) ] [].

Definition sheet_image (x : Z) : TileImageType :=
  Some (mkImageHandle "tiles.png" None (Some (x, 0, 32, 32)) None).

(** A tile layer holding a grid of integer gids, as a caller builds it. *)
Definition gid_layer (name : string) (visible : bool) (rows : list (list Z))
    : TileLayer.t :=
  TileLayer.mk (Some name) 1%float visible None None None (DataGids rows) None.

(** A map with two 4x4 layers of gids and an image table of three. *)
Definition two_gid_layer_map : Map.t :=
  map_of [ LTileLayer (gid_layer "ground" true (replicate 4 (replicate 4 1)));
           LTileLayer (gid_layer "top" true (replicate 4 (replicate 4 2))) ]
         [ sheet_image 0; sheet_image 32; sheet_image 64 ].

(** A map whose image table holds two images. *)
Definition two_image_map : Map.t :=
  map_of [] [ sheet_image 0; sheet_image 32 ].

(** A map with one visible tile layer of a single cell. *)
Definition one_cell_map : Map.t :=
  map_of [ LTileLayer (tile_layer "ground" true [[tile 1]]) ] [].

(** [self] with its image table replaced. *)
Definition with_images (self : Map.t) (images : list TileImageType) : Map.t :=
  Map.mk (Map.version self) (Map.tiledversion self) (Map.orientation self)
         (Map.renderorder self) (Map.compressionlevel self) (Map.width self)
         (Map.height self) (Map.tilewidth self) (Map.tileheight self)
         (Map.hexsidelength self) (Map.staggeraxis self) (Map.staggerindex self)
         (Map.background_color self) (Map.infinite self) (Map.filename self)
         (Map.layers self) (Map.tilesets self) images (Map.properties self).

End Samples.

(** ** apps/viewer.py: the window's event handling *)

Module Viewer.

(** A pygame event, by its [type] and the attributes the handler reads. *)
Inductive event : Type :=
  | QUIT
  | KEYDOWN (key : Z)
  | VIDEORESIZE (w h : Z)
  | OtherEvent (type : Z).

Definition K_ESCAPE : Z := 27.

(** The two fields of [SimpleTest] that [handle_input] and [run] touch. *)
Record SimpleTest : Type := mkSimpleTest {
  running : bool;
  dirty : bool
}.

(** One iteration of the [for] loop of [handle_input], lines 126-135. *)
Definition handle_event (self : SimpleTest) (ev : event) : SimpleTest :=
  match ev with
  | QUIT => mkSimpleTest false (dirty self)
  | KEYDOWN key =>
      if key =? K_ESCAPE
      then mkSimpleTest false (dirty self)
      else mkSimpleTest false (dirty self)
  | VIDEORESIZE _ _ => mkSimpleTest (running self) true
  | OtherEvent _ => self
  end.

(** [handle_input], lines 124-135, on the queue [pygame.event.get()] returned. *)
Definition handle_input (self : SimpleTest) (queue : list event) : SimpleTest :=
  fold_left handle_event queue self.

(** The [while self.running] loop of [run], lines 144-149, fed with the
    queues successive frames drain; returns the state and the number of
    iterations made.  Drawing and the frame cap change neither field. *)
Fixpoint run_loop (self : SimpleTest) (frames : list (list event)) : SimpleTest * nat :=
  match frames with
  | [] => (self, 0%nat)
  | queue :: rest =>
      if running self
      then let '(final, n) := run_loop (handle_input self queue) rest in (final, S n)
      else (self, 0%nat)
  end.

(** [run], lines 137-149. *)
Definition run (self : SimpleTest) (frames : list (list event)) : SimpleTest * nat :=
  run_loop (mkSimpleTest true true) frames.

(** The events that clear the running flag. *)
Definition stops (ev : event) : bool :=
  match ev with
  | QUIT | KEYDOWN _ => true
  | _ => false
  end.

Definition is_resize (ev : event) : bool :=
  match ev with
  | VIDEORESIZE _ _ => true
  | _ => false
  end.

End Viewer.

(** ** dc.py: the map's views of its layers and objects *)

Module DcViews.
Import Dc.

(** [Map.objectgroups], lines 293-299. *)
Definition objectgroups (self : Map.t) : list ObjectGroup.t :=
  omap (fun l => match l with LObjectGroup og => Some og | _ => None end)
       (Map.layers self).

(** [Map.objects], lines 301-307: [chain] over the groups, each iterated
    through [ObjectGroup.__iter__] (lines 103-104). *)
Definition objects (self : Map.t) : list Object.t :=
  concat (map ObjectGroup.objects (objectgroups self)).

(** [obj.name == name] for a name attribute that is a string or [None]. *)
Definition name_eqb (n : option string) (v : pyval) : bool :=
  match n, v with
  | None, PyNone => true
  | Some s, PyStr t => String.eqb s t
  | _, _ => false
  end.

Definition double_quote : string := String (Ascii.ascii_of_nat 34) EmptyString.

Definition OBJECT_NOT_FOUND_MSG : string :=
  "Object " +:+ double_quote +:+ "{name}" +:+ double_quote +:+ " not found".

(** The loop of [Map.get_object_by_name], lines 271-274. *)
Fixpoint find_object (objs : list Object.t) (name : pyval) : result Object.t :=
  match objs with
  | [] => Raise (ValueError OBJECT_NOT_FOUND_MSG)
  | o :: rest => if name_eqb (Object.name o) name then Ok o else find_object rest name
  end.

(** [Map.get_object_by_name], lines 265-274. *)
Definition get_object_by_name (self : Map.t) (name : pyval) : result Object.t :=
  find_object (objects self) name.

(** [Map.visible_layers], lines 309-315. *)
Definition visible_layers (self : Map.t) : list layer :=
  List.filter layer_visible (Map.layers self).

(** [Map.tile_layers], lines 341-343. *)
Definition tile_layers (self : Map.t) : list TileLayer.t :=
  omap (fun l => match l with LTileLayer tl => Some tl | _ => None end)
       (Map.layers self).

(** [for tile in layer.tiles]: [tiles] is a method, and the loop is given
    the bound method itself, not the result of a call. *)
Definition iterate_bound_method {A : Type} : result (list A) :=
  Raise (TypeError "'method' object is not iterable").

(** [Map.tile_properties], lines 345-349. *)
Definition tile_properties (self : Map.t) : stream (Tile.t * gmap string string) :=
  for_each (tile_layers self) None (fun layer =>
    ts <- @iterate_bound_method Tile.t ;;
    Ok (omap (fun t => match Tile.properties t with
                       | Some p => if decide (p = ∅) then None else Some (t, p)
                       | None => None
                       end) ts)).

End DcViews.

(** ** apps/viewer.py: what the main loop draws *)

Module ViewerLoop.
Import Viewer.

(** The [while] loop of [run], lines 144-149, recording for every
    iteration whether it called [draw]. *)
Fixpoint run_draws (self : SimpleTest) (frames : list (list event)) : list bool :=
  match frames with
  | [] => []
  | queue :: rest =>
      if running self
      then let self' := handle_input self queue in dirty self' :: run_draws self' rest
      else []
  end.

(** A queue that leaves the running flag alone. *)
Definition quiet (queue : list event) : bool := negb (existsb stops queue).

End ViewerLoop.

(** ** mason.py: documents the parser accepts, and what it builds from them *)

Module Document.
Import Dc Mason.

(** The number of elements of a document. *)
Fixpoint size (e : element) : nat :=
  match e with
  | Element _ _ _ children => S (list_sum (map size children))
  end.

(** The name the loop gives an element: its tag in title case (line 390). *)
Definition name_of (e : element) : string :=
  match e with Element tag _ _ _ => Str.title tag end.

(** An element under a parent of the given name joins to a path the
    reducer table has an entry for, other than the rejected [Data.Tile],
    and so do its descendants. *)
Fixpoint conforms (parent : string) (e : element) : bool :=
  match e with
  | Element tag _ _ children =>
      let path := parent +:+ "." +:+ Str.title tag in
      is_reducer_path path && negb (String.eqb path "Data.Tile")
      && forallb (conforms (Str.title tag)) children
  end.

(** A whole document: the root is reduced under its own name. *)
Definition conforms_root (e : element) : bool :=
  match e with
  | Element tag _ _ children =>
      is_reducer_path (Str.title tag) && forallb (conforms (Str.title tag)) children
  end.

(** A map built by the [Map] builder and not given images since. *)
Definition without_images (path : string) (o : obj) : Prop :=
  forall m, o = OMap m -> Map.images m = [] /\ Map.filename m = path.

(** What [parse] must guarantee for the objects it hands to a
    [Tileset] tag. *)
Definition parse_without_images
    (parse : Context.t -> string -> result (Context.t * list obj)) : Prop :=
  forall ctx p ctx' ys,
    parse ctx p = Ok (ctx', ys) ->
    Context.path ctx' = Context.path ctx
    /\ forall o, last ys = Some o -> without_images (Context.path ctx) o.

(** The [name] attribute of a layer of any class. *)
Definition layer_name (l : layer) : option string :=
  match l with
  | LTileLayer tl => TileLayer.name tl
  | LObjectGroup og => ObjectGroup.name og
  | LGroup g => Group.name g
  | LImageLayer il => ImageLayer.name il
  end.

(** Class, name and visibility of a layer. *)
Definition layer_info (l : layer) : string * option string * bool :=
  (class_name l, layer_name l, layer_visible l).

(** The layer an object is when it is one of the four layer classes. *)
Definition as_layer (o : obj) : option layer :=
  match o with
  | OTileLayer l => Some (LTileLayer l)
  | OObjectGroup g => Some (LObjectGroup g)
  | OGroup g => Some (LGroup g)
  | OImageLayer l => Some (LImageLayer l)
  | _ => None
  end.

(** Class, name and visibility as a child of the [map] tag declares
    them: [None] for a child that is no layer. *)
Definition declared_layer (c : element) : option (string * option string * bool) :=
  match c with
  | Element tag a _ _ =>
      let name := Str.title tag in
      let shown := match a !! "visible" with
                   | Some s => negb (String.eqb s EmptyString)
                   | None => true
                   end in
      if String.eqb name "Layer" then Some ("TileLayer", a !! "name", shown)
      else if String.eqb name "Objectgroup" then Some ("ObjectGroup", a !! "name", shown)
      else if String.eqb name "Group" then Some ("Group", a !! "name", shown)
      else if String.eqb name "Imagelayer"
      then Some ("ImageLayer", a !! "name", truthy_str (a !! "visible"))
      else None
  end.

Definition is_tileset (c : element) : bool := String.eqb (name_of c) "Tileset".

(** The cached tile the [Tileset.Image] reducer stores under [gid] for
    the sheet position [yx]. *)
Definition sheet_tile (path : string) (trans : option string) (tilewidth tileheight : Z)
    (gid : Z) (yx : Z * Z) : option Tile.t :=
  Some (Tile.mk None (Some gid) None None
          (Some (mkImageHandle path trans
                   (Some (Slicing.rect_of tilewidth tileheight yx))
                   (Some (Gid.mkTileFlags false false false))))
          None).

(** Class, name and visibility of an object that is a layer. *)
Definition obj_layer_info (o : obj) : option (string * option string * bool) :=
  option_map layer_info (as_layer o).

(** A layer whose data, if it is a tile layer, is a grid of rows. *)
Definition has_grid (l : layer) : bool :=
  match l with
  | LTileLayer tl => match TileLayer.data tl with DataGrid _ => true | _ => false end
  | _ => true
  end.

(** The items [omap f] keeps, for one element. *)
Definition option_list {A : Type} (o : option A) : list A :=
  match o with Some a => [a] | None => [] end.

(** The parts of an element. *)
Definition tag_of (e : element) : string := match e with Element tag _ _ _ => tag end.
Definition attrib_of (e : element) : gmap string string :=
  match e with Element _ a _ _ => a end.
Definition text_of (e : element) : option string :=
  match e with Element _ _ t _ => t end.
Definition children_of (e : element) : list element :=
  match e with Element _ _ _ cs => cs end.

(** What a child of the [map] tag does to the map's properties: a
    [properties] child replaces them by what its own children collect. *)
Definition map_properties_effect (p : gmap string string) (c : element)
    : gmap string string :=
  if String.eqb (name_of c) "Properties"
  then fold_left property_effect (children_of c) ∅
  else p.

(** The value of the last [property] element named [n], [found] if
    there is none. *)
Fixpoint last_property (n : string) (ps : list element) (found : option string)
    : option string :=
  match ps with
  | [] => found
  | Element _ a _ _ :: rest =>
      last_property n rest
        (if String.eqb (default EmptyString (a !! "name")) n
         then Some (default EmptyString (a !! "value"))
         else found)
  end.

(** The name of an object that is an [Object]. *)
Definition object_name_of (o : obj) : option (option string) :=
  match o with
  | OObject ob => Some (Object.name ob)
  | _ => None
  end.

(** The names of the objects of a layer that is an object group. *)
Definition layer_object_names (l : layer) : list (option string) :=
  match l with
  | LObjectGroup og => map Object.name (ObjectGroup.objects og)
  | _ => []
  end.

(** The [name] attributes of the children of an [objectgroup] element. *)
Definition declared_object_names (c : element) : list (option string) :=
  if String.eqb (name_of c) "Objectgroup"
  then map (fun o => attrib_of o !! "name") (children_of c)
  else [].

(** The id of an object that is a [Tile]. *)
Definition tile_id_of (o : obj) : option (option Z) :=
  match o with
  | OTile t => Some (Tile.id t)
  | _ => None
  end.

(** Running the events of [e] under a parent other than [Map] and
    [Tileset] leaves the whole context alone. *)
Definition keeps_context {RT : Runtime}
    (parse : Context.t -> string -> result (Context.t * list obj)) (e : element) : Prop :=
  forall ctx tk below ys ctx' stack' ys',
    In (Token.type tk) tag_names ->
    Token.type tk <> "Map" -> Token.type tk <> "Tileset" ->
    run_events parse (ctx, tk :: below, ys) (events_of e) = Ok (ctx', stack', ys') ->
    ctx' = ctx.

End Document.

(** ** More sample data *)

Module MoreSamples.
Import Dc Mason SampleRuntime.

(** [<tileset firstgid="1" source="loop.tsx"/>], stored as
    [maps/loop.tsx]: a tileset file that names itself. *)
Definition loop_tsx : element :=
  Element "tileset" (reference "1" "loop.tsx") None [].

Definition loop_files : gmap string element := {[ "maps/loop.tsx" := loop_tsx ]}.

Definition looping : Runtime := runtime loop_files.

(** A tileset of 32x32 tiles starting at gid 1, and a 64x32 sheet. *)
Definition sheet_tileset : Tileset.t :=
  Tileset.mk 1 None (Some "sheet") (Some 32) (Some 32) 0 0 None None None None None.

Definition sheet_picture : Image.t :=
  Image.mk (Some "tiles.png") (Some 64) (Some 32) None.

(** A cache holding gid 1, and a layer whose third gid is gid 1 flipped
    horizontally. *)
Definition cache : gmap Z (option Tile.t) := {[ 0 := None; 1 := Samples.tile 1 ]}.

Definition flat_gids : list Z := [1; 0; 2147483649; 1].

Definition flat_layer : TileLayer.t :=
  TileLayer.mk (Some "ground") 1%float true None None None (DataFlat flat_gids) None.

(** The token of an open [<tileset name="shared">] that declares no
    firstgid, and its child [<tile id="1"/>]. *)
Definition open_tileset : Tileset.t :=
  Tileset.mk 0 None (Some "shared") (Some 32) (Some 32) 0 0 None None None None None.

Definition open_tileset_token : Token.t :=
  Token.mk "Tileset" shared_attrib None (OTileset open_tileset).

Definition tile_one : element := Element "tile" {[ "id" := "1" ]} None [].

(** The context after a referencing tag with [firstgid="5"]. *)
Definition pending_context : Context.t :=
  Context.mk "maps/town.tmx" "maps" true {[ 0 := None ]} 5.

(** [<map width="1" height="1"> <properties> <property name="old"
    value="1"/> <property name="season" value="winter"/> </properties>
    <properties> <property name="season" type="string" value="spring"/>
    <property name="level" type="int" value="3"/> <property name="season"
    value="summer"/> </properties> </map>]: two [properties] children,
    the second naming [season] twice. *)
Definition labelled_tmx : element :=
  Element "map" {[ "width" := "1"; "height" := "1" ]} None
    [ Element "properties" ∅ None
        [ Element "property" {[ "name" := "old"; "value" := "1" ]} None [];
          Element "property" {[ "name" := "season"; "value" := "winter" ]} None [] ];
      Element "properties" ∅ None
        [ Element "property"
            {[ "name" := "season"; "type" := "string"; "value" := "spring" ]} None [];
          Element "property"
            {[ "name" := "level"; "type" := "int"; "value" := "3" ]} None [];
          Element "property" {[ "name" := "season"; "value" := "summer" ]} None [] ] ].

Definition labelled_files : gmap string element :=
  {[ "maps/labelled.tmx" := labelled_tmx ]}.

Definition labelled : Runtime := runtime labelled_files.

(** [<map width="2" height="1" tilewidth="32" tileheight="32"> <tileset
    firstgid="5" source="sheet.tsx"/> <layer name="ground"> <data
    encoding="csv">5,6</data> </layer> </map>]: a map that takes its
    tiles from the sprite sheet, numbered from 5. *)
Definition field_tmx : element :=
  Element "map"
    {[ "width" := "2"; "height" := "1"; "tilewidth" := "32"; "tileheight" := "32" ]} None
    [ Element "tileset" (reference "5" "sheet.tsx") None [];
      Element "layer" {[ "name" := "ground" ]} None
        [ Element "data" {[ "encoding" := "csv" ]} (Some "5,6") [] ] ].

Definition field_files : gmap string element :=
  {[ "maps/field.tmx" := field_tmx; "maps/sheet.tsx" := sheet_tsx ]}.

Definition field : Runtime := runtime field_files.

End MoreSamples.

(** ** mason.py: tile layers inside group layers *)

Module Groups.
Import Dc Mason SampleRuntime.

(** A tile layer whose data is no grid: the [data] attribute, the
    decoded gid list, or [None]. *)
Definition flat_data (tl : TileLayer.t) : bool :=
  match TileLayer.data tl with
  | DataGrid _ | DataGids _ => false
  | _ => true
  end.

Definition group_unresolved (g : Group.t) : bool :=
  forallb (fun l => match l with inl tl => flat_data tl | inr _ => true end)
          (Group.layers g).

Definition groups_unresolved (layers : list layer) : bool :=
  forallb (fun l => match l with LGroup g => group_unresolved g | _ => true end) layers.

(** No tile layer held by the object, by itself or inside a group, has
    been resolved; the tile layers of a map itself are not looked at. *)
Definition unresolved (o : obj) : bool :=
  match o with
  | OTileLayer l => flat_data l
  | OGroup g => group_unresolved g
  | OMap m => groups_unresolved (Map.layers m)
  | _ => true
  end.

(** What [parse] must guarantee for the object it hands to a [Tileset]
    tag. *)
Definition parse_unresolved
    (parse : Context.t -> string -> result (Context.t * list obj)) : Prop :=
  forall ctx p ctx' ys o,
    parse ctx p = Ok (ctx', ys) -> last ys = Some o -> unresolved o = true.

(** [<map width="1" height="1"> <group name="back"> <layer name="inner">
    <data encoding="csv">7</data> </layer> </group> </map>]: a tile layer
    inside a group, with a gid no tileset defines. *)
Definition grouped_tmx : element :=
  Element "map" {[ "width" := "1"; "height" := "1" ]} None
    [ Element "group" {[ "name" := "back" ]} None
        [ Element "layer" {[ "name" := "inner" ]} None
            [ Element "data" {[ "encoding" := "csv" ]} (Some "7") [] ] ] ].

Definition grouped_files : gmap string element := {[ "maps/grouped.tmx" := grouped_tmx ]}.

Definition grouped : Runtime := runtime grouped_files.

End Groups.

(** * Theorems *)

Module GidFacts.
Import Gid.

Lemma low_bits_disjoint (base k : Z) :
  0 <= base < 2 ^ 29 -> Z.land base (Z.shiftl k 29) = 0.
Proof.
  intros Hb. apply Z.bits_inj'. intros n Hn.
  rewrite Z.land_spec, Z.bits_0.
  destruct (Z.ltb_spec n 29) as [Hlt | Hge].
  - rewrite Z.shiftl_spec_low by lia. apply andb_false_r.
  - rewrite (Z.bits_above_log2 base n); [reflexivity | lia |].
    destruct (Z.eq_dec base 0) as [-> | Hnz]; [simpl; lia |].
    apply Z.lt_le_trans with 29; [| lia].
    apply Z.log2_lt_pow2; lia.
Qed.

Lemma flag_bits_shape (h v d : bool) :
  exists k, flag_bits h v d = Z.shiftl k 29.
Proof.
  exists (Z.shiftr (flag_bits h v d) 29).
  destruct h, v, d; reflexivity.
Qed.

Lemma land_base_flag (base m : Z) (h v d : bool) :
  0 <= base < 2 ^ 29 -> (exists k, m = Z.shiftl k 29) ->
  Z.land (Z.lor base (flag_bits h v d)) m = Z.land (flag_bits h v d) m.
Proof.
  intros Hb [k ->].
  rewrite Z.land_lor_distr_l, low_bits_disjoint by assumption.
  apply Z.lor_0_l.
Qed.

(** C1. Composing a base gid below [2^29] with any subset of the three flag
    bits and decoding gives back exactly the base gid and the flag triple
    of the bits that were set. *)
Theorem decode_gid_compose (base : Z) (h v d : bool) :
  0 <= base < 2 ^ 29 ->
  decode_gid (Z.lor base (flag_bits h v d)) = (base, mkTileFlags h v d)
  /\ decode_gid base = (base, mkTileFlags false false false).
Proof.
  intros Hb.
  assert (Hmask : Z.land base (Z.shiftl 7 29) = 0) by (apply low_bits_disjoint; exact Hb).
  assert (Hkeep : Z.land base (Z.lnot (Z.shiftl 7 29)) = base).
  { rewrite <- Z.ldiff_land.
    rewrite <- (Z.lor_ldiff_and base (Z.shiftl 7 29)) at 2.
    rewrite Hmask. symmetry. apply Z.lor_0_r. }
  assert (Hone : forall h' v' d',
    decode_gid (Z.lor base (flag_bits h' v' d')) = (base, mkTileFlags h' v' d')).
  { intros h' v' d'. unfold decode_gid. f_equal.
    - change (Z.lor (Z.lor GID_TRANS_FLIPX GID_TRANS_FLIPY) GID_TRANS_ROT)
        with (Z.shiftl 7 29).
      rewrite Z.land_lor_distr_l, Hkeep.
      replace (Z.land (flag_bits h' v' d') (Z.lnot (Z.shiftl 7 29))) with 0
        by (destruct h', v', d'; reflexivity).
      apply Z.lor_0_r.
    - rewrite !land_base_flag by
        (try exact Hb; first [ exists 4; reflexivity | exists 2; reflexivity
                             | exists 1; reflexivity ]).
      destruct h', v', d'; reflexivity. }
  split; [apply Hone |].
  specialize (Hone false false false).
  change (flag_bits false false false) with 0 in Hone.
  rewrite Z.lor_0_r in Hone. exact Hone.
Qed.

Lemma decode_gid_compose_witness :
  decode_gid (Z.lor 5 (flag_bits true false true))
    = (5, mkTileFlags true false true)
  /\ decode_gid 5 = (5, mkTileFlags false false false).
Proof. apply (decode_gid_compose 5 true false true). lia. Defined.

End GidFacts.

(** ** Sprite-sheet slicing *)

Module SlicingFacts.
Import Builtins Slicing.

Lemma range_ascending (start stop step : Z) :
  0 < step ->
  exists n : nat,
    range start stop step = Ok (progression start step n)
    /\ forall i : nat, (i < n)%nat <-> start + Z.of_nat i * step < stop.
Proof.
  intros Hstep.
  exists (Z.to_nat (range_length start stop step)). split.
  - unfold range. destruct (Z.eqb_spec step 0) as [E | _]; [lia | reflexivity].
  - intros i. unfold range_length.
    destruct (Z.ltb_spec 0 step) as [_ | ?]; [| lia].
    destruct (Z.ltb_spec start stop) as [Hlt | Hge].
    + pose proof (Z.div_mod (stop - start - 1) step ltac:(lia)) as Hdm.
      pose proof (Z.mod_pos_bound (stop - start - 1) step Hstep) as Hr.
      assert (Hq : 0 <= (stop - start - 1) / step) by (apply Z.div_pos; lia).
      split; intros Hi.
      * assert (Z.of_nat i <= (stop - start - 1) / step) by lia. nia.
      * assert (Z.of_nat i < (stop - start - 1) / step + 1) by nia. lia.
    + split; intros Hi; [simpl in Hi; lia | nia].
Qed.

(** C2, for positive strides.  On the 130x64 sheet with 32x32 tiles, margin
    1 and spacing 2 the enumeration is one row of three origins, (1,1),
    (35,1), (69,1).  In general, for positive strides, it is the row-major
    product of the first terms of the [y] progression from the margin with
    the first terms of the [x] progression; with a margin that is not
    negative it holds every origin with [y + th <= H] and [x + tw <= W],
    and with a margin that is not positive it holds no other: with margin
    0 it is exactly the origins whose tile lies inside the sheet. *)
Theorem iter_image_tiles_origins (W H tw th m s : Z) :
  0 < th + s -> 0 < tw + s ->
  exists ny nx : nat,
    iter_image_tiles (Some W) (Some H) (Some tw) (Some th) m s
      = Ok (product (progression m (th + s) ny) (progression m (tw + s) nx))
    /\ (0 <= m ->
        (forall i : nat, m + Z.of_nat i * (th + s) + th <= H -> (i < ny)%nat)
        /\ (forall j : nat, m + Z.of_nat j * (tw + s) + tw <= W -> (j < nx)%nat))
    /\ (m <= 0 ->
        (forall i : nat, (i < ny)%nat -> m + Z.of_nat i * (th + s) + th <= H)
        /\ (forall j : nat, (j < nx)%nat -> m + Z.of_nat j * (tw + s) + tw <= W))
    /\ rmap (map origin_of) (iter_image_tiles (Some 130) (Some 64) (Some 32) (Some 32) 1 2)
         = Ok [(1, 1); (35, 1); (69, 1)].
Proof.
  intros Hy Hx.
  destruct (range_ascending m (H + m - th + 1) (th + s) Hy) as (ny & Ey & Hny).
  destruct (range_ascending m (W + m - tw + 1) (tw + s) Hx) as (nx & Ex & Hnx).
  exists ny, nx. unfold iter_image_tiles. cbn [not_none bind]. rewrite Ey, Ex. cbn [bind].
  split; [reflexivity |].
  split.
  { intros Hm. split.
    - intros i Hi. apply Hny. lia.
    - intros j Hj. apply Hnx. lia. }
  split.
  { intros Hm. split.
    - intros i Hi. apply Hny in Hi. lia.
    - intros j Hj. apply Hnx in Hj. lia. }
  reflexivity.
Qed.

Lemma iter_image_tiles_origins_witness :
  exists ny nx : nat,
    iter_image_tiles (Some 130) (Some 64) (Some 32) (Some 32) 1 2
      = Ok (product (progression 1 (32 + 2) ny) (progression 1 (32 + 2) nx))
    /\ (0 <= 1 ->
        (forall i : nat, 1 + Z.of_nat i * (32 + 2) + 32 <= 64 -> (i < ny)%nat)
        /\ (forall j : nat, 1 + Z.of_nat j * (32 + 2) + 32 <= 130 -> (j < nx)%nat))
    /\ (1 <= 0 ->
        (forall i : nat, (i < ny)%nat -> 1 + Z.of_nat i * (32 + 2) + 32 <= 64)
        /\ (forall j : nat, (j < nx)%nat -> 1 + Z.of_nat j * (32 + 2) + 32 <= 130))
    /\ rmap (map origin_of) (iter_image_tiles (Some 130) (Some 64) (Some 32) (Some 32) 1 2)
         = Ok [(1, 1); (35, 1); (69, 1)].
Proof. apply (iter_image_tiles_origins 130 64 32 32 1 2); lia. Defined.

(** X29. The stop value of each [range] adds the margin to the sheet's
    size: for positive strides the enumeration is the row-major product
    of the [y] progression from the margin while [y + th <= H + m] with
    the [x] progression while [x + tw <= W + m].  With a positive margin
    it reaches past the sheet: a 32x32 sheet with 32x32 tiles and margin
    1 yields the origin (1, 1), whose tile leaves the sheet. *)
Theorem iter_image_tiles_stop_adds_margin (W H tw th m s : Z) :
  0 < th + s -> 0 < tw + s ->
  exists ny nx : nat,
    iter_image_tiles (Some W) (Some H) (Some tw) (Some th) m s
      = Ok (product (progression m (th + s) ny) (progression m (tw + s) nx))
    /\ (forall i : nat, (i < ny)%nat <-> m + Z.of_nat i * (th + s) + th <= H + m)
    /\ (forall j : nat, (j < nx)%nat <-> m + Z.of_nat j * (tw + s) + tw <= W + m)
    /\ rmap (map origin_of) (iter_image_tiles (Some 32) (Some 32) (Some 32) (Some 32) 1 0)
         = Ok [(1, 1)].
Proof.
  intros Hy Hx.
  destruct (range_ascending m (H + m - th + 1) (th + s) Hy) as (ny & Ey & Hny).
  destruct (range_ascending m (W + m - tw + 1) (tw + s) Hx) as (nx & Ex & Hnx).
  exists ny, nx. unfold iter_image_tiles. cbn [not_none bind]. rewrite Ey, Ex. cbn [bind].
  split; [reflexivity |].
  split; [intros i; rewrite Hny; lia |].
  split; [intros j; rewrite Hnx; lia |].
  reflexivity.
Qed.

Lemma iter_image_tiles_stop_adds_margin_witness :
  exists ny nx : nat,
    iter_image_tiles (Some 32) (Some 32) (Some 32) (Some 32) 1 0
      = Ok (product (progression 1 (32 + 0) ny) (progression 1 (32 + 0) nx))
    /\ (forall i : nat, (i < ny)%nat <-> 1 + Z.of_nat i * (32 + 0) + 32 <= 32 + 1)
    /\ (forall j : nat, (j < nx)%nat <-> 1 + Z.of_nat j * (32 + 0) + 32 <= 32 + 1)
    /\ rmap (map origin_of) (iter_image_tiles (Some 32) (Some 32) (Some 32) (Some 32) 1 0)
         = Ok [(1, 1)].
Proof. apply (iter_image_tiles_stop_adds_margin 32 32 32 32 1 0); lia. Defined.

(** The sheet of the example yields three origins, not six. *)
Lemma iter_image_tiles_not_six :
  ~ (exists l, iter_image_tiles (Some 130) (Some 64) (Some 32) (Some 32) 1 2 = Ok l /\ length l = 6%nat).
Proof.
  intros (l & E & Hlen). vm_compute in E. inversion E; subst l. discriminate Hlen.
Qed.

(** C2 as stated fails on four inputs.  The sheet of the example yields
    three origins, not six.  With tile size 0 and spacing 0 the stride is
    0 and nothing is enumerated: [range] raises.  With spacing -40 the
    stride is negative and the enumeration is empty, though the origin
    (0, 0) has its 32x32 tile inside the 64x64 sheet.  On a 32x32 sheet
    with margin 1 the origin (1, 1) is enumerated, though its 32x32 tile
    does not satisfy [y + th <= H]. *)
Lemma iter_image_tiles_not_as_stated :
  ~ (exists l, iter_image_tiles (Some 130) (Some 64) (Some 32) (Some 32) 1 2 = Ok l
               /\ length l = 6%nat)
  /\ iter_image_tiles (Some 64) (Some 64) (Some 0) (Some 0) 0 0
     = Raise (ValueError "range() arg 3 must not be zero")
  /\ iter_image_tiles (Some 64) (Some 64) (Some 32) (Some 32) 0 (-40) = Ok []
  /\ (iter_image_tiles (Some 32) (Some 32) (Some 32) (Some 32) 1 0 = Ok [(1, 1)]
      /\ ~ 1 + 32 <= 32).
Proof.
  split; [exact iter_image_tiles_not_six |]. split; [reflexivity |].
  split; [reflexivity |]. split; [reflexivity | lia].
Qed.

End SlicingFacts.

(** ** The viewer's input handler *)

Module ViewerFacts.
Import Viewer.

Lemma handle_event_running (self : SimpleTest) (ev : event) :
  running (handle_event self ev) = running self && negb (stops ev).
Proof.
  destruct ev as [| key | w h | t]; simpl.
  - symmetry. apply andb_false_r.
  - destruct (key =? K_ESCAPE); simpl; symmetry; apply andb_false_r.
  - symmetry. apply andb_true_r.
  - symmetry. apply andb_true_r.
Qed.

Lemma handle_input_running (self : SimpleTest) (queue : list event) :
  running (handle_input self queue) = running self && negb (existsb stops queue).
Proof.
  unfold handle_input. revert self.
  induction queue as [| ev queue IH]; intros self; simpl.
  - symmetry. apply andb_true_r.
  - rewrite IH, handle_event_running, negb_orb. symmetry. apply andb_assoc.
Qed.

(** C9. After [handle_input] the running flag is cleared as soon as the
    drained queue holds a QUIT or any KEYDOWN event, and the loop then makes
    no further iteration; a queue of resize events only leaves the flag as
    it was. *)
Theorem handle_input_stops (self : SimpleTest) (queue : list event) :
  (existsb stops queue = true ->
     running (handle_input self queue) = false
     /\ forall frames, run_loop (handle_input self queue) frames
                       = (handle_input self queue, 0%nat))
  /\ (forallb is_resize queue = true ->
        running (handle_input self queue) = running self).
Proof.
  split.
  - intros Hstop.
    assert (Hr : running (handle_input self queue) = false).
    { rewrite handle_input_running, Hstop. apply andb_false_r. }
    split; [exact Hr |].
    intros [| q rest]; simpl; [reflexivity |]. rewrite Hr. reflexivity.
  - intros Hres. rewrite handle_input_running.
    replace (existsb stops queue) with false; [apply andb_true_r |].
    symmetry. induction queue as [| ev queue IH]; [reflexivity |].
    simpl in Hres |- *. apply andb_prop in Hres as [He Hq].
    rewrite IH by exact Hq. destruct ev; simpl in *; congruence.
Qed.

Lemma handle_input_stops_witness :
  running (handle_input (mkSimpleTest true false) [VIDEORESIZE 640 480; KEYDOWN 97])
    = false
  /\ running (handle_input (mkSimpleTest true false) [VIDEORESIZE 640 480]) = true.
Proof.
  split.
  - apply (handle_input_stops (mkSimpleTest true false)
             [VIDEORESIZE 640 480; KEYDOWN 97]).
    reflexivity.
  - apply (proj2 (handle_input_stops (mkSimpleTest true false) [VIDEORESIZE 640 480])).
    reflexivity.
Defined.

End ViewerFacts.

(** ** The document model's queries *)

Module DcFacts.
Import Dc.

Lemma negative_float_not_ge0 (f : float) :
  PrimFloat.ltb f PrimFloat.zero = true -> PrimFloat.leb PrimFloat.zero f = false.
Proof.
  rewrite ltb_spec, leb_spec. unfold SFltb, SFleb.
  change (Prim2SF PrimFloat.zero) with (S754_zero false).
  destruct (Prim2SF f) as [sg | sg | | sg m e]; simpl;
    try (destruct sg; simpl); congruence.
Qed.

Lemma rejected_not_ge0 (v : pyval) :
  negative v || non_numeric v = true -> py_ge0 v <> Ok true.
Proof.
  destruct v as [| z | f | s | c]; simpl; intros H; try discriminate.
  - rewrite orb_false_r in H. apply Z.ltb_lt in H.
    destruct (Z.leb_spec 0 z); [lia | discriminate].
  - rewrite orb_false_r in H. rewrite (negative_float_not_ge0 f H). discriminate.
Qed.

Lemma py_ge0_raises_TypeError (v : pyval) (e : exn) :
  py_ge0 v = Raise e -> exists m, e = TypeError m.
Proof. destruct v; simpl; intros H; inversion H; eauto. Qed.

Lemma list_getitem_in_range {A : Type} (l : list A) (k : Z) (a : A) :
  0 <= k -> l !! Z.to_nat k = Some a -> list_getitem l (PyInt k) = Ok a.
Proof.
  intros Hk Hl. unfold list_getitem.
  pose proof (lookup_lt_Some _ _ _ Hl) as Hlt.
  destruct (Z.ltb_spec k 0); [lia |].
  destruct (Z.leb_spec 0 k); [| lia].
  destruct (Z.ltb_spec k (Z.of_nat (length l))); [| lia].
  simpl. rewrite Hl. reflexivity.
Qed.

Lemma list_getitem_above {A : Type} (l : list A) (k : Z) :
  Z.of_nat (length l) <= k ->
  list_getitem l (PyInt k) = Raise (IndexError "list index out of range").
Proof.
  intros Hk. unfold list_getitem.
  destruct (Z.ltb_spec k 0); [lia |].
  destruct (Z.ltb_spec k (Z.of_nat (length l))); [lia |].
  rewrite andb_false_r. reflexivity.
Qed.

(** Python's negative indices: [-1] is the last element. *)
Lemma list_getitem_negative {A : Type} (l : list A) (k : Z) (a : A) :
  k < 0 -> 0 <= k + Z.of_nat (length l) ->
  l !! Z.to_nat (k + Z.of_nat (length l)) = Some a ->
  list_getitem l (PyInt k) = Ok a.
Proof.
  intros Hneg Hlo Hl. unfold list_getitem.
  destruct (Z.ltb_spec k 0); [| lia].
  destruct (Z.leb_spec 0 (k + Z.of_nat (length l))); [| lia].
  destruct (Z.ltb_spec (k + Z.of_nat (length l)) (Z.of_nat (length l))); [| lia].
  simpl. rewrite Hl. reflexivity.
Qed.

(** X24. [get_tile_gid] raises the non-negativity ValueError when an
    argument is negative or non-numeric; for non-negative integers it
    raises the layer-not-found ValueError when the layer index is past the
    layer list, the invalid-coordinates ValueError when the tile layer's
    grid has no row [y] or that row no column [x], and otherwise returns
    the cell stored at row [y], column [x]: the gid on a grid of gids,
    the tile on a grid of resolved tiles. *)
Theorem get_tile_gid_spec (self : Map.t) (x y layer : pyval) :
  ((negative x || non_numeric x) || (negative y || non_numeric y)
     || (negative layer || non_numeric layer) = true ->
   get_tile_gid self x y layer = Raise (ValueError NONNEGATIVE_MSG))
  /\ (forall xi yi li : Z,
        x = PyInt xi -> y = PyInt yi -> layer = PyInt li ->
        0 <= xi -> 0 <= yi -> 0 <= li ->
        (Z.of_nat (length (Map.layers self)) <= li ->
         get_tile_gid self x y layer = Raise (ValueError LAYER_NOT_FOUND_MSG))
        /\ (forall tl rows,
              Map.layers self !! Z.to_nat li = Some (LTileLayer tl) ->
              TileLayer.data tl = DataGrid rows ->
              (Z.of_nat (length rows) <= yi ->
               get_tile_gid self x y layer = Raise (ValueError COORDS_INVALID_MSG))
              /\ (forall row, rows !! Z.to_nat yi = Some row ->
                    (Z.of_nat (length row) <= xi ->
                     get_tile_gid self x y layer = Raise (ValueError COORDS_INVALID_MSG))
                    /\ (forall c, row !! Z.to_nat xi = Some c ->
                          get_tile_gid self x y layer = Ok (CellTile c))))
        /\ (forall tl rows,
              Map.layers self !! Z.to_nat li = Some (LTileLayer tl) ->
              TileLayer.data tl = DataGids rows ->
              (Z.of_nat (length rows) <= yi ->
               get_tile_gid self x y layer = Raise (ValueError COORDS_INVALID_MSG))
              /\ (forall row, rows !! Z.to_nat yi = Some row ->
                    (Z.of_nat (length row) <= xi ->
                     get_tile_gid self x y layer = Raise (ValueError COORDS_INVALID_MSG))
                    /\ (forall g, row !! Z.to_nat xi = Some g ->
                          get_tile_gid self x y layer = Ok (CellGid g))))).
Proof.
  split.
  - intros Hbad. unfold get_tile_gid.
    assert (Hcond : nonnegative_condition x y layer <> Ok true).
    { unfold nonnegative_condition.
      apply orb_prop in Hbad as [Hbad | Hl].
      - apply orb_prop in Hbad as [Hx | Hy].
        + pose proof (rejected_not_ge0 x Hx) as Nx.
          destruct (py_ge0 x) as [[|] |]; simpl; congruence.
        + pose proof (rejected_not_ge0 y Hy) as Ny.
          destruct (py_ge0 x) as [[|] |]; simpl; try congruence.
          destruct (py_ge0 y) as [[|] |]; simpl; congruence.
      - pose proof (rejected_not_ge0 layer Hl) as Nl.
        destruct (py_ge0 x) as [[|] |]; simpl; try congruence.
        destruct (py_ge0 y) as [[|] |]; simpl; congruence. }
    destruct (nonnegative_condition x y layer) as [[|] | e] eqn:E;
      [congruence | reflexivity |].
    assert (exists m, e = TypeError m) as [m ->].
    { unfold nonnegative_condition in E.
      destruct (py_ge0 x) as [[|] |] eqn:Ex; simpl in E;
        [| discriminate | inversion E; subst; eapply py_ge0_raises_TypeError; eauto].
      destruct (py_ge0 y) as [[|] |] eqn:Ey; simpl in E;
        [| discriminate | inversion E; subst; eapply py_ge0_raises_TypeError; eauto].
      eapply py_ge0_raises_TypeError; eauto. }
    reflexivity.
  - intros xi yi li -> -> -> Hx Hy Hl.
    assert (Hcond : nonnegative_condition (PyInt xi) (PyInt yi) (PyInt li) = Ok true).
    { unfold nonnegative_condition. simpl.
      destruct (Z.leb_spec 0 xi); [| lia]. destruct (Z.leb_spec 0 yi); [| lia].
      destruct (Z.leb_spec 0 li); [| lia]. reflexivity. }
    unfold get_tile_gid. rewrite Hcond. cbn [bind]. split; [| split].
    + intros Hout. rewrite list_getitem_above by exact Hout. reflexivity.
    + intros tl rows Hlay Hdata.
      rewrite (list_getitem_in_range _ _ _ Hl Hlay). cbn [bind layer_data_attr].
      rewrite Hdata. cbn [data_getitem2].
      split.
      * intros Hrow. rewrite list_getitem_above by exact Hrow. reflexivity.
      * intros row Hrow. rewrite (list_getitem_in_range _ _ _ Hy Hrow). cbn [bind]. split.
        -- intros Hcol. rewrite list_getitem_above by exact Hcol. reflexivity.
        -- intros c Hc. rewrite (list_getitem_in_range _ _ _ Hx Hc). reflexivity.
    + intros tl rows Hlay Hdata.
      rewrite (list_getitem_in_range _ _ _ Hl Hlay). cbn [bind layer_data_attr].
      rewrite Hdata. cbn [data_getitem2].
      split.
      * intros Hrow. rewrite list_getitem_above by exact Hrow. reflexivity.
      * intros row Hrow. rewrite (list_getitem_in_range _ _ _ Hy Hrow). cbn [bind]. split.
        -- intros Hcol. rewrite list_getitem_above by exact Hcol. reflexivity.
        -- intros g Hg. rewrite (list_getitem_in_range _ _ _ Hx Hg). reflexivity.
Qed.

Lemma get_tile_gid_spec_witness :
  get_tile_gid Samples.two_gid_layer_map (PyInt 0) (PyInt 0) (PyInt 0) = Ok (CellGid 1)
  /\ get_tile_gid Samples.two_layer_map (PyInt 0) (PyInt 0) (PyInt 0)
       = Ok (CellTile (Samples.tile 1))
  /\ get_tile_gid Samples.two_layer_map (PyInt (-1)) (PyInt 0) (PyInt 0)
       = Raise (ValueError NONNEGATIVE_MSG)
  /\ get_tile_gid Samples.two_layer_map (PyInt 0) (PyInt 0) (PyInt 5)
       = Raise (ValueError LAYER_NOT_FOUND_MSG)
  /\ get_tile_gid Samples.two_layer_map (PyInt 10) (PyInt 0) (PyInt 0)
       = Raise (ValueError COORDS_INVALID_MSG).
Proof.
  split; [| split; [| split; [| split]]].
  - destruct (get_tile_gid_spec Samples.two_gid_layer_map (PyInt 0) (PyInt 0) (PyInt 0))
      as [_ H].
    destruct (H 0 0 0 eq_refl eq_refl eq_refl ltac:(lia) ltac:(lia) ltac:(lia))
      as (_ & _ & Hin).
    destruct (Hin _ _ eq_refl eq_refl) as [_ Hrow].
    destruct (Hrow _ eq_refl) as [_ Hcell].
    exact (Hcell _ eq_refl).
  - destruct (get_tile_gid_spec Samples.two_layer_map (PyInt 0) (PyInt 0) (PyInt 0))
      as [_ H].
    destruct (H 0 0 0 eq_refl eq_refl eq_refl ltac:(lia) ltac:(lia) ltac:(lia))
      as (_ & Hin & _).
    destruct (Hin _ _ eq_refl eq_refl) as [_ Hrow].
    destruct (Hrow _ eq_refl) as [_ Hcell].
    exact (Hcell _ eq_refl).
  - apply (get_tile_gid_spec Samples.two_layer_map (PyInt (-1)) (PyInt 0) (PyInt 0)).
    reflexivity.
  - destruct (get_tile_gid_spec Samples.two_layer_map (PyInt 0) (PyInt 0) (PyInt 5))
      as [_ H].
    destruct (H 0 0 5 eq_refl eq_refl eq_refl ltac:(lia) ltac:(lia) ltac:(lia))
      as [Hout _].
    apply Hout. simpl. lia.
  - destruct (get_tile_gid_spec Samples.two_layer_map (PyInt 10) (PyInt 0) (PyInt 0))
      as [_ H].
    destruct (H 10 0 0 eq_refl eq_refl eq_refl ltac:(lia) ltac:(lia) ltac:(lia))
      as (_ & Hin & _).
    destruct (Hin _ _ eq_refl eq_refl) as [_ Hrow].
    destruct (Hrow _ eq_refl) as [Hcol _].
    apply Hcol. simpl. lia.
Defined.

(** A layer that is not a tile layer has no [data], and the
    AttributeError is not caught. *)
Lemma get_tile_gid_on_object_group (self : Map.t) (xi yi li : Z) (og : ObjectGroup.t) :
  0 <= xi -> 0 <= yi -> 0 <= li ->
  Map.layers self !! Z.to_nat li = Some (LObjectGroup og) ->
  get_tile_gid self (PyInt xi) (PyInt yi) (PyInt li)
    = Raise (AttributeError "'ObjectGroup' object has no attribute 'data'").
Proof.
  intros Hx Hy Hl Hlay. unfold get_tile_gid.
  replace (nonnegative_condition (PyInt xi) (PyInt yi) (PyInt li)) with (Ok true).
  - cbn [bind]. rewrite (list_getitem_in_range _ _ _ Hl Hlay). reflexivity.
  - unfold nonnegative_condition. simpl.
    destruct (Z.leb_spec 0 xi); [| lia]. destruct (Z.leb_spec 0 yi); [| lia].
    destruct (Z.leb_spec 0 li); [| lia]. reflexivity.
Qed.

(** A non-negative float passes the assertion, and the TypeError of the
    list index is not caught. *)
Example get_tile_gid_float_layer :
  get_tile_gid Samples.two_layer_map (PyInt 0) (PyInt 0) (PyFloat 0.5%float)
    = Raise (TypeError "list indices must be integers or slices").
Proof. reflexivity. Qed.

(** What [get_tile_image_by_gid] does on each kind of argument. *)
Lemma get_tile_image_by_gid_cases (self : Map.t) (gid : pyval) :
  (non_numeric gid = true ->
   get_tile_image_by_gid self gid = Raise (TypeError GID_NOT_NUMBER_MSG))
  /\ (forall k, gid = PyInt k ->
        (forall img, 0 <= k -> Map.images self !! Z.to_nat k = Some img ->
           get_tile_image_by_gid self gid = Ok img)
        /\ (Z.of_nat (length (Map.images self)) <= k ->
            get_tile_image_by_gid self gid = Raise (ValueError GID_NOT_FOUND_MSG))
        /\ (k < - Z.of_nat (length (Map.images self)) ->
            get_tile_image_by_gid self gid = Raise (ValueError GID_NOT_FOUND_MSG))
        /\ (forall img, k < 0 -> 0 <= k + Z.of_nat (length (Map.images self)) ->
              Map.images self !! Z.to_nat (k + Z.of_nat (length (Map.images self)))
                = Some img ->
              get_tile_image_by_gid self gid = Ok img)).
Proof.
  split.
  - destruct gid; simpl; intros H; try discriminate; reflexivity.
  - intros k ->. unfold get_tile_image_by_gid. repeat split.
    + intros img Hk Hl. rewrite (list_getitem_in_range _ _ _ Hk Hl). reflexivity.
    + intros Hk. rewrite list_getitem_above by exact Hk. reflexivity.
    + intros Hk. unfold list_getitem.
      destruct (Z.ltb_spec k 0); [| lia].
      destruct (Z.leb_spec 0 (k + Z.of_nat (length (Map.images self)))); [lia |].
      reflexivity.
    + intros img Hneg Hlo Hl.
      rewrite (list_getitem_negative _ _ _ Hneg Hlo Hl). reflexivity.
Qed.

(** X25. On every map whose image table is not empty the gid [-1] is
    not reported as missing: the lookup wraps around and returns the last
    image of the table.  (The parser leaves the table empty; a caller
    fills it.) *)
Theorem get_tile_image_by_gid_minus_one (self : Map.t)
    (images : list TileImageType) (last_image : TileImageType) :
  get_tile_image_by_gid (Samples.with_images self (images ++ [last_image])) (PyInt (-1))
    = Ok last_image
  /\ get_tile_image_by_gid Samples.two_image_map (PyInt (-1))
       = Ok (Samples.sheet_image 32).
Proof.
  split; [| reflexivity].
  destruct (get_tile_image_by_gid_cases (Samples.with_images self (images ++ [last_image]))
              (PyInt (-1))) as [_ H].
  destruct (H (-1) eq_refl) as (_ & _ & _ & Hwrap).
  apply Hwrap; simpl; rewrite ?length_app; simpl; try lia.
  replace (Z.to_nat (-1 + Z.of_nat (length images + 1))) with (length images) by lia.
  rewrite lookup_app_r by lia. rewrite Nat.sub_diag. reflexivity.
Qed.

Lemma visible_indices_unbound (cls : string) (e : exn) (layers : list (Z * layer)) :
  load_global cls = Raise e ->
  visible_indices cls layers
    = ([], if existsb (fun il => layer_visible (snd il)) layers then Some e else None).
Proof.
  intros Hcls. induction layers as [| [i l] rest IH]; simpl; [reflexivity |].
  destruct (layer_visible l); simpl.
  - rewrite Hcls. reflexivity.
  - exact IH.
Qed.

Lemma existsb_enumerate {A : Type} (f : A -> bool) (l : list A) (start : Z) :
  existsb (fun il => f (snd il)) (Builtins.enumerate l start) = existsb f l.
Proof.
  revert start. induction l as [| a l IH]; intros start; simpl; [reflexivity |].
  rewrite IH. reflexivity.
Qed.

(** C8, where the code departs from it.  [get_tile_locations_by_gid]
    never yields a coordinate: the layer filter names the unbound global
    [TiledTileLayer], so the generator ends with NameError as soon as it
    meets a visible layer, and ends empty when no layer is visible.  On
    the one-cell map, whose visible tile layer holds the sought tile, it
    raises instead of yielding (0, 0, 0). *)
Theorem get_tile_locations_by_gid_yields_nothing (self : Map.t) (gid : pyval) :
  get_tile_locations_by_gid self gid
    = ([], if existsb layer_visible (Map.layers self)
           then Some (NameError "TiledTileLayer") else None)
  /\ get_tile_locations_by_gid Samples.one_cell_map (PyObj "Tile")
       = ([], Some (NameError "TiledTileLayer")).
Proof.
  split; [| reflexivity].
  unfold get_tile_locations_by_gid, visible_tile_layers.
  rewrite (visible_indices_unbound "TiledTileLayer" (NameError "TiledTileLayer"))
    by reflexivity.
  rewrite existsb_enumerate. reflexivity.
Qed.

End DcFacts.

Module StrFacts.
Import Str.

Example title_tileset : title "tileset" = "Tileset". Proof. reflexivity. Qed.
Example title_objectgroup : title "objectGROUP" = "Objectgroup". Proof. reflexivity. Qed.
Example split_csv : split_on "," "1,2,,3" = ["1"; "2"; ""; "3"]. Proof. reflexivity. Qed.
Example split_points : split_spaces " 0,0  32,0 " = ["0,0"; "32,0"]. Proof. reflexivity. Qed.
Example dirname_nested : dirname "maps/town/a.tmx" = "maps/town". Proof. reflexivity. Qed.
Example dirname_bare : dirname "a.tmx" = "". Proof. reflexivity. Qed.
Example dirname_root : dirname "/a.tmx" = "/". Proof. reflexivity. Qed.
Example join_relative : path_join "maps" "shared.tsx" = "maps/shared.tsx".
Proof. reflexivity. Qed.
Example join_empty : path_join "" "shared.tsx" = "shared.tsx". Proof. reflexivity. Qed.
Example join_absolute : path_join "maps" "/x.tsx" = "/x.tsx". Proof. reflexivity. Qed.

End StrFacts.

(** ** Tile-data decoding *)

Module DecodingFacts.
Import Mason.

Section WithRuntime.
Context {RT : Runtime}.

(** C10. With no encoding attribute [unpack_gids] returns [None] without
    raising, whatever the text and the compression attribute are, and the
    [Layer.Data] reducer stores that [None] as the layer's data. *)
Theorem unpack_gids_without_encoding (text compression : option string)
    (ctx : Context.t) (l : Dc.TileLayer.t) :
  unpack_gids text None compression = Ok None
  /\ end_ ctx "Layer.Data" (Some (OTileLayer l))
          (OData (Data.mk None compression text))
     = Ok (ctx, Some (OTileLayer (TileLayer_set_data l Dc.DataNone)),
           OData (Data.mk None compression text)).
Proof. split; reflexivity. Qed.

Lemma unpack_gids_other_encoding (text compression : option string) (e : string) :
  e <> EmptyString -> e <> "base64" -> e <> "csv" ->
  unpack_gids text (Some e) compression
    = Raise (Exception ("layer encoding " +:+ e +:+ " is not supported.")).
Proof.
  intros Hne Hb Hc. unfold unpack_gids.
  destruct (decide (Some e = Some "base64")) as [E | _]; [congruence |].
  destruct (decide (Some e = Some "csv")) as [E | _]; [congruence |].
  destruct (String.eqb_spec e EmptyString) as [E | _]; [congruence | reflexivity].
Qed.

Lemma unpack_gids_other_compression (text : option string) (c : string) :
  c <> EmptyString -> c <> "gzip" -> c <> "zlib" ->
  is_Ok (unpack_gids text (Some "base64") (Some c)) = false
  /\ forall t data, text = Some t -> b64decode t = Some data ->
       unpack_gids text (Some "base64") (Some c)
         = Raise (Exception ("layer compression " +:+ c +:+ " is not supported.")).
Proof.
  intros Hne Hg Hz.
  assert (Hdec : forall t data, text = Some t -> b64decode t = Some data ->
            unpack_gids text (Some "base64") (Some c)
              = Raise (Exception ("layer compression " +:+ c +:+ " is not supported."))).
  { intros t data -> Hd. unfold unpack_gids.
    destruct (decide (Some "base64" = Some "base64")) as [_ | N]; [| congruence].
    cbn [not_none bind]. rewrite Hd. cbn [bind].
    destruct (decide (Some c = Some "gzip")) as [E | _]; [congruence |].
    destruct (decide (Some c = Some "zlib")) as [E | _]; [congruence |].
    destruct (String.eqb_spec c EmptyString) as [E | _]; [congruence | reflexivity]. }
  split; [| exact Hdec].
  destruct text as [t |]; [| reflexivity].
  destruct (b64decode t) as [data |] eqn:Hd.
  - rewrite (Hdec t data eq_refl Hd). reflexivity.
  - unfold unpack_gids.
    destruct (decide (Some "base64" = Some "base64")) as [_ | N]; [| congruence].
    cbn [not_none bind]. rewrite Hd. reflexivity.
Qed.

(** C4, as the code has it.  A non-empty encoding label other than base64
    and csv raises the error that names the label.  Under base64 a
    non-empty compression label other than gzip and zlib never produces a
    gid list, and raises the error that names the label whenever the text
    decodes as base64 (the base64 step runs first). *)
Theorem unpack_gids_unsupported (text compression : option string) (label : string) :
  label <> EmptyString ->
  (label <> "base64" -> label <> "csv" ->
   unpack_gids text (Some label) compression
     = Raise (Exception ("layer encoding " +:+ label +:+ " is not supported.")))
  /\ (label <> "gzip" -> label <> "zlib" ->
      is_Ok (unpack_gids text (Some "base64") (Some label)) = false
      /\ forall t data, text = Some t -> b64decode t = Some data ->
           unpack_gids text (Some "base64") (Some label)
             = Raise (Exception
                        ("layer compression " +:+ label +:+ " is not supported."))).
Proof.
  intros Hne. split.
  - intros Hb Hc. apply unpack_gids_other_encoding; assumption.
  - intros Hg Hz. apply unpack_gids_other_compression; assumption.
Qed.

End WithRuntime.

Lemma unpack_gids_unsupported_witness :
  @unpack_gids SampleRuntime.sample (Some "AQAAAA==") (Some "xml") None
    = Raise (Exception "layer encoding xml is not supported.")
  /\ @unpack_gids SampleRuntime.sample (Some "AQAAAA==") (Some "base64") (Some "lzma")
       = Raise (Exception "layer compression lzma is not supported.").
Proof.
  split.
  - apply (@unpack_gids_unsupported SampleRuntime.sample (Some "AQAAAA==") None "xml");
      discriminate.
  - refine (proj2 (proj2 (@unpack_gids_unsupported SampleRuntime.sample
                            (Some "AQAAAA==") None "lzma" _) _ _) _ _ eq_refl eq_refl);
      discriminate.
Defined.

(** C4 as stated fails on two inputs: an empty encoding label is not an
    error at all, and under base64 an unsupported compression label on
    text that is not base64 raises the decoder's error, which names no
    label. *)
Lemma unpack_gids_unsupported_counterexample :
  @unpack_gids SampleRuntime.sample (Some "1,2") (Some EmptyString) None = Ok None
  /\ @unpack_gids SampleRuntime.sample (Some "A") (Some "base64") (Some "lzma")
       = Raise (LibraryError "binascii.Error").
Proof. split; reflexivity. Qed.

(** The [None] stored by the reducer is met again when the map closes:
    the loop over the layer's data raises on it. *)
Example load_without_encoding :
  @load_tmx SampleRuntime.sample 2 "maps/plain.tmx"
    = Raise (TypeError "'NoneType' object is not iterable").
Proof. reflexivity. Qed.

Example unpack_gids_csv :
  @unpack_gids SampleRuntime.sample (Some "1,2,3,0,5") (Some "csv") None
    = Ok (Some [1; 2; 3; 0; 5]).
Proof. reflexivity. Qed.

Example unpack_gids_base64 :
  @unpack_gids SampleRuntime.sample (Some "AQAAAAIAAIA=") (Some "base64") None
    = Ok (Some [1; 2147483650]).
Proof. reflexivity. Qed.

End DecodingFacts.

(** ** The object builder *)

Module ObjectFacts.
Import Mason.

Section WithRuntime.
Context {RT : Runtime}.

Lemma get_as_value {A : Type} (attrib : gmap string string) (key s : string)
    (type : string -> result A) (a : A) :
  attrib !! key = Some s -> type s = Ok a -> get_as attrib key type = Ok (Some a).
Proof. intros Hk Ht. unfold get_as. rewrite Hk, Ht. reflexivity. Qed.

Lemma is_Ok_inv {A : Type} (r : result A) : is_Ok r = true -> exists a, r = Ok a.
Proof. destruct r; [eauto | discriminate]. Qed.

(** C5. With the context's invert-Y flag set, an object tag that declares
    [y] and [height] is stored with [y - height] when the height is
    non-zero and with its declared [y] when the height is zero. *)
Theorem object_y_inverted
    (parse : Context.t -> string -> result (Context.t * list obj))
    (ctx : Context.t) (attrib : gmap string string) (text : option string)
    (sy sh : string) (y0 h : float) :
  Context.invert_y ctx = true ->
  attrib !! "y" = Some sy -> py_float sy = Some y0 ->
  attrib !! "height" = Some sh -> py_float sh = Some h ->
  object_attributes_convert attrib = true ->
  exists o,
    start parse ctx "Object" attrib text = Ok (ctx, OObject o)
    /\ Dc.Object.height o = Some h
    /\ Dc.Object.y o
       = Some (if PrimFloat.eqb h PrimFloat.zero then y0 else PrimFloat.sub y0 h).
Proof.
  intros Hinv Hy Hy0 Hh Hh0 Hconv.
  unfold object_attributes_convert in Hconv.
  apply andb_prop in Hconv as [Hconv Hgid].
  apply andb_prop in Hconv as [Hconv Hrot].
  apply andb_prop in Hconv as [Hx Hw].
  apply is_Ok_inv in Hx as [x Hx]. apply is_Ok_inv in Hw as [w Hw].
  apply is_Ok_inv in Hrot as [rot Hrot]. apply is_Ok_inv in Hgid as [gid Hgid].
  assert (Ey : get_as attrib "y" float_ = Ok (Some y0)).
  { apply (get_as_value _ _ sy); [exact Hy | unfold float_; rewrite Hy0; reflexivity]. }
  assert (Eh : get_as attrib "height" float_ = Ok (Some h)).
  { apply (get_as_value _ _ sh); [exact Hh | unfold float_; rewrite Hh0; reflexivity]. }
  unfold start. cbn [String.eqb Ascii.eqb Bool.eqb].
  rewrite Ey. cbn [bind]. rewrite Eh. cbn [bind]. rewrite Hinv.
  cbn [andb truthy_float].
  destruct (PrimFloat.eqb h PrimFloat.zero); cbn [negb bind];
    rewrite Hx; cbn [bind]; rewrite Hw; cbn [bind]; rewrite Hrot; cbn [bind];
    rewrite Hgid; cbn [bind]; unfold get_or at 1, bool_;
    destruct (attrib !! "visible"); cbn [bind]; eexists; split; try reflexivity;
    split; reflexivity.
Qed.

End WithRuntime.

Lemma object_y_inverted_witness :
  (exists o,
     @start SampleRuntime.sample (@iter_tmx SampleRuntime.sample 1)
        SampleRuntime.town_context "Object" (SampleRuntime.declared "100" "20") None
       = Ok (SampleRuntime.town_context, OObject o)
     /\ Dc.Object.height o = Some 20%float
     /\ Dc.Object.y o = Some 80%float)
  /\ (exists o,
        @start SampleRuntime.sample (@iter_tmx SampleRuntime.sample 1)
           SampleRuntime.town_context "Object" (SampleRuntime.declared "100" "0") None
          = Ok (SampleRuntime.town_context, OObject o)
        /\ Dc.Object.height o = Some 0%float
        /\ Dc.Object.y o = Some 100%float).
Proof.
  split.
  - apply (@object_y_inverted SampleRuntime.sample _ SampleRuntime.town_context
             (SampleRuntime.declared "100" "20") None "100" "20" 100%float 20%float);
      reflexivity.
  - apply (@object_y_inverted SampleRuntime.sample _ SampleRuntime.town_context
             (SampleRuntime.declared "100" "0") None "100" "0" 100%float 0%float);
      reflexivity.
Defined.

(** A non-zero height without a [y] attribute subtracts from [None]. *)
Example object_without_y :
  @start SampleRuntime.sample (@iter_tmx SampleRuntime.sample 1)
     SampleRuntime.town_context "Object" {[ "height" := "20" ]} None
    = Raise (TypeError "unsupported operand type(s) for -=: 'NoneType' and 'float'").
Proof. reflexivity. Qed.

End ObjectFacts.

(** ** The parser: external tilesets *)

Module ParserFacts.
Import Builtins Dc Mason.

(** *** The effect of a tileset's children on its fields *)




(** A tile child hands the pending firstgid to a tileset that has none;
    no other child touches the field. *)
Lemma effect_firstgid g t c :
  Tileset.firstgid (tileset_child_effect g t c)
    = if is_tile c && (Tileset.firstgid t =? 0) then g else Tileset.firstgid t.
Proof.
  destruct c as [tag a tx cs]. unfold tileset_child_effect, is_tile.
  destruct (String.eqb_spec (Str.title tag) "Grid") as [E | _].
  { rewrite E. reflexivity. }
  destruct (String.eqb_spec (Str.title tag) "Properties") as [E | _].
  { rewrite E. reflexivity. }
  destruct (String.eqb (Str.title tag) "Tile"); [| reflexivity].
  destruct (Tileset.firstgid t =? 0); reflexivity.
Qed.


Lemma effects_firstgid_stable g cs : forall t,
  Tileset.firstgid t = g ->
  Tileset.firstgid (fold_left (tileset_child_effect g) cs t) = g.
Proof.
  induction cs as [| c cs IH]; intros t Hg; cbn; [exact Hg |].
  apply IH. rewrite effect_firstgid. destruct (_ && _); [reflexivity | exact Hg].
Qed.


Section WithRuntime.
Context {RT : Runtime}.
Variable parse : Context.t -> string -> result (Context.t * list obj).

(** *** The dispatch tables of [start] and [end] *)

Lemma start_known ctx name a t r :
  start parse ctx name a t = Ok r -> In name tag_names.
Proof.
  unfold start.
  repeat match goal with
  | |- context [String.eqb name ?s] =>
      destruct (String.eqb_spec name s) as [-> | ?];
        [ intros _; cbv [In tag_names]; repeat (first [left; reflexivity | right]) |]
  end.
  discriminate.
Qed.

(** A path outside the table raises ValueError. *)
Lemma end_unknown ctx path p c :
  is_reducer_path path = false -> end_ ctx path p c = Raise (ValueError path).
Proof.
  unfold is_reducer_path, reducer_paths. cbn [existsb]. intros H.
  repeat (apply orb_false_elim in H as [? H]).
  unfold end_.
  repeat match goal with
  | E : String.eqb path ?s = false |- _ => rewrite E; clear E
  end.
  reflexivity.
Qed.

(** No reducer assigns [ctx.firstgid]. *)
Lemma end_firstgid ctx path p c ctx' p' c' :
  end_ ctx path p c = Ok (ctx', p', c') -> Context.firstgid ctx' = Context.firstgid ctx.
Proof.
  unfold end_, bind, not_none. intros H.
  repeat case_match; simplify_eq; reflexivity.
Qed.

(** Only the [Tileset] builder changes the context. *)
Lemma start_ctx ctx name a t ctx' o :
  name <> "Tileset" -> start parse ctx name a t = Ok (ctx', o) -> ctx' = ctx.
Proof.
  intros Hn. unfold start, bind, rmap. intros H.
  repeat case_match; simplify_eq; try reflexivity.
  all: match goal with
       | E : String.eqb _ _ = true |- _ => apply String.eqb_eq in E
       end; congruence.
Qed.

(** *** The event loop, one element at a time *)

Lemma bind_Ok {A B : Type} (r : result A) (k : A -> result B) (b : B) :
  bind r k = Ok b -> exists a, r = Ok a /\ k a = Ok b.
Proof. destruct r; simpl; [eauto | discriminate]. Qed.

Lemma run_events_app st evs1 evs2 :
  run_events parse st (evs1 ++ evs2)
    = bind (run_events parse st evs1) (fun st' => run_events parse st' evs2).
Proof.
  revert st. induction evs1 as [| ev evs1 IH]; intros st; simpl; [reflexivity |].
  destruct (step parse st ev); simpl; [apply IH | reflexivity].
Qed.

Lemma run_element_inv tag a t cs st st' :
  run_events parse st (events_of (Element tag a t cs)) = Ok st' ->
  exists st1 st2,
    step parse st (mkEvent EvStart tag a t) = Ok st1
    /\ run_events parse st1 (flat_map events_of cs) = Ok st2
    /\ step parse st2 (mkEvent EvEnd tag a t) = Ok st'.
Proof.
  cbn [events_of run_events]. intros H.
  apply bind_Ok in H as (st1 & H1 & H).
  rewrite run_events_app in H. apply bind_Ok in H as (st2 & H2 & H).
  cbn [run_events] in H. apply bind_Ok in H as (st3 & H3 & H).
  inversion H; subst. eauto.
Qed.

Lemma run_children_inv c cs st st' :
  run_events parse st (flat_map events_of (c :: cs)) = Ok st' ->
  exists st1,
    run_events parse st (events_of c) = Ok st1
    /\ run_events parse st1 (flat_map events_of cs) = Ok st'.
Proof.
  cbn [flat_map]. rewrite run_events_app. intros H.
  apply bind_Ok in H as (st1 & H1 & H). eauto.
Qed.

Lemma step_start_inv ctx stack ys tag a t st1 :
  step parse (ctx, stack, ys) (mkEvent EvStart tag a t) = Ok st1 ->
  exists ctx1 o,
    start parse ctx (Str.title tag) a t = Ok (ctx1, o)
    /\ st1 = (ctx1, Token.mk (Str.title tag) a t o :: stack, ys).
Proof.
  cbn [step ev_kind ev_tag ev_attrib ev_text]. intros H.
  apply bind_Ok in H as ([ctx1 o] & H1 & H). inversion H; subst. eauto.
Qed.

Lemma step_end_inv ctx tk parent below ys tag a t st' :
  step parse (ctx, tk :: parent :: below, ys) (mkEvent EvEnd tag a t) = Ok st' ->
  exists ctx' p' c',
    end_ ctx (Token.type parent +:+ "." +:+ Token.type tk)
         (Some (Token.obj parent)) (Token.obj tk) = Ok (ctx', p', c')
    /\ st' = (ctx', Token_set_obj parent (default (Token.obj parent) p') :: below,
              ys ++ [c']).
Proof.
  cbn [step ev_kind]. intros H.
  apply bind_Ok in H as ([[ctx' p'] c'] & H1 & H). inversion H; subst. eauto 10.
Qed.

Lemma step_end_root_inv ctx tk ys tag a t st' :
  step parse (ctx, [tk], ys) (mkEvent EvEnd tag a t) = Ok st' ->
  exists ctx' p' c',
    end_ ctx (Token.type tk) None (Token.obj tk) = Ok (ctx', p', c')
    /\ st' = (ctx', [], ys ++ [c']).
Proof.
  cbn [step ev_kind]. intros H.
  apply bind_Ok in H as ([[ctx' p'] c'] & H1 & H). inversion H; subst. eauto 10.
Qed.

(** The events of an element leave the stack below it as it was. *)
Lemma children_frame cs :
  Forall (frames parse) cs ->
  forall ctx tk below ys st',
    run_events parse (ctx, tk :: below, ys) (flat_map events_of cs) = Ok st' ->
    exists ctx' tk' ys',
      st' = (ctx', tk' :: below, ys') /\ Token.type tk' = Token.type tk.
Proof.
  induction 1 as [| c cs Hc _ IH]; intros ctx tk below ys st' H.
  - cbn in H. inversion H; subst. eauto.
  - apply run_children_inv in H as (st1 & H1 & H2).
    apply Hc in H1 as (ctx1 & tk1 & ys1 & -> & Ht1).
    apply IH in H2 as (ctx2 & tk2 & ys2 & -> & Ht2).
    exists ctx2, tk2, ys2. split; [reflexivity | congruence].
Qed.

Lemma element_frame e : frames parse e.
Proof.
  induction e as [tag a t cs IH] using element_children_ind.
  intros ctx tk below ys st' H.
  apply run_element_inv in H as (st1 & st2 & H1 & H2 & H3).
  apply step_start_inv in H1 as (ctx1 & o & Hs & ->).
  apply (children_frame cs IH) in H2 as (ctx2 & tk2 & ys2 & -> & Ht2).
  apply step_end_inv in H3 as (ctx3 & p' & c' & He & ->).
  eexists _, _, _. split; [reflexivity | reflexivity].
Qed.

Lemma run_children_frame cs ctx tk below ys st' :
  run_events parse (ctx, tk :: below, ys) (flat_map events_of cs) = Ok st' ->
  exists ctx' tk' ys',
    st' = (ctx', tk' :: below, ys') /\ Token.type tk' = Token.type tk.
Proof.
  apply children_frame. apply Forall_forall. intros c _. apply element_frame.
Qed.

(** A non-root element that parses: its builder returned, its children
    ran on the token pushed for it, and its reducer returned. *)
Lemma run_element_shape tag a t cs ctx tk below ys st' :
  run_events parse (ctx, tk :: below, ys) (events_of (Element tag a t cs)) = Ok st' ->
  exists ctx1 o ctx2 tkc ys2 ctx3 p' c',
    start parse ctx (Str.title tag) a t = Ok (ctx1, o)
    /\ run_events parse (ctx1, Token.mk (Str.title tag) a t o :: tk :: below, ys)
         (flat_map events_of cs) = Ok (ctx2, tkc :: tk :: below, ys2)
    /\ Token.type tkc = Str.title tag
    /\ end_ ctx2 (Token.type tk +:+ "." +:+ Str.title tag)
         (Some (Token.obj tk)) (Token.obj tkc) = Ok (ctx3, p', c')
    /\ st' = (ctx3, Token_set_obj tk (default (Token.obj tk) p') :: below, ys2 ++ [c']).
Proof.
  intros H.
  apply run_element_inv in H as (st1 & st2 & H1 & H2 & H3).
  apply step_start_inv in H1 as (ctx1 & o & Hs & ->).
  pose proof H2 as Hf.
  apply run_children_frame in Hf as (ctx2 & tk2 & ys2 & -> & Ht2).
  apply step_end_inv in H3 as (ctx3 & p' & c' & He & ->).
  cbn [Token.type] in Ht2. rewrite Ht2 in He.
  eexists _, _, _, _, _, _, _, _. repeat split; eauto.
Qed.

(** *** The pending firstgid under a tileset *)

(** A nested [Map] or [Tileset] tag has no reducer unless its parent is a
    [Map], so in a run that returns no builder below a tileset assigns
    [ctx.firstgid]. *)
Lemma map_is_no_child p :
  In p tag_names -> is_reducer_path (p +:+ "." +:+ "Map") = false.
Proof. intros H. each_name H; reflexivity. Qed.

Lemma tileset_is_child_of_map_only p :
  In p tag_names -> p <> "Map" -> is_reducer_path (p +:+ "." +:+ "Tileset") = false.
Proof. intros H Hn. each_name H; first [reflexivity | congruence]. Qed.

Lemma children_keep_firstgid cs :
  Forall (keeps_firstgid parse) cs ->
  forall ctx tk below ys ctx' stack' ys',
    In (Token.type tk) tag_names -> Token.type tk <> "Map" ->
    run_events parse (ctx, tk :: below, ys) (flat_map events_of cs)
      = Ok (ctx', stack', ys') ->
    Context.firstgid ctx' = Context.firstgid ctx.
Proof.
  induction 1 as [| c cs Hc _ IH]; intros ctx tk below ys ctx' stack' ys' Hin Hn H.
  - cbn in H. inversion H; subst. reflexivity.
  - apply run_children_inv in H as (st1 & H1 & H2).
    pose proof (element_frame c _ _ _ _ _ H1) as (ctx1 & tk1 & ys1 & -> & Ht1).
    apply Hc in H1; [| assumption | assumption].
    apply IH in H2; [| rewrite Ht1; assumption | rewrite Ht1; assumption].
    congruence.
Qed.

Lemma element_keeps_firstgid e : keeps_firstgid parse e.
Proof.
  induction e as [tag a t cs IH] using element_children_ind.
  intros ctx tk below ys ctx' stack' ys' Hin Hn H.
  apply run_element_shape in H
    as (ctx1 & o & ctx2 & tkc & ys2 & ctx3 & p' & c' & Hs & Hc & Ht & He & Hst).
  inversion Hst; subst ctx' stack' ys'; clear Hst.
  pose proof (start_known _ _ _ _ _ Hs) as Hname.
  destruct (String.eqb_spec (Str.title tag) "Map") as [E | NM].
  { rewrite E in He. rewrite end_unknown in He by (apply map_is_no_child; assumption).
    discriminate. }
  destruct (String.eqb_spec (Str.title tag) "Tileset") as [E | NT].
  { rewrite E in He.
    rewrite end_unknown in He by (apply tileset_is_child_of_map_only; assumption).
    discriminate. }
  apply start_ctx in Hs; [| assumption]. subst ctx1.
  apply (children_keep_firstgid cs IH) in Hc; [| assumption | assumption].
  apply end_firstgid in He. congruence.
Qed.

Lemma run_children_keep_firstgid cs ctx tk below ys ctx' stack' ys' :
  In (Token.type tk) tag_names -> Token.type tk <> "Map" ->
  run_events parse (ctx, tk :: below, ys) (flat_map events_of cs)
    = Ok (ctx', stack', ys') ->
  Context.firstgid ctx' = Context.firstgid ctx.
Proof.
  apply children_keep_firstgid. apply Forall_forall. intros c _.
  apply element_keeps_firstgid.
Qed.

(** *** Tags whose children cannot be reduced *)

Lemma leaf_has_no_child c ctx tk below ys st' :
  In (Token.type tk) leaf_names ->
  run_events parse (ctx, tk :: below, ys) (events_of c) = Ok st' -> False.
Proof.
  destruct c as [tag a t cs]. intros Hleaf H.
  apply run_element_shape in H
    as (ctx1 & o & ctx2 & tkc & ys2 & ctx3 & p' & c' & Hs & Hc & Ht & He & Hst).
  apply start_known in Hs. clear Hc Ht Hst.
  remember (Token.type tk) as p eqn:Ep. remember (Str.title tag) as name eqn:En.
  clear Ep En.
  each_name Hleaf; each_name Hs; dead_path end_unknown He.
Qed.

Lemma leaf_children cs ctx tk below ys st' :
  In (Token.type tk) leaf_names ->
  run_events parse (ctx, tk :: below, ys) (flat_map events_of cs) = Ok st' ->
  cs = [] /\ st' = (ctx, tk :: below, ys).
Proof.
  intros Hleaf H. destruct cs as [| c cs].
  - cbn in H. inversion H. auto.
  - apply run_children_inv in H as (st1 & H1 & _).
    exfalso. eapply leaf_has_no_child; eauto.
Qed.

(** *** The children of a [properties] tag and of a tileset *)

Lemma property_child c ctx tk below ys ctx' stack' ys' p :
  Token.type tk = "Properties" -> Token.obj tk = OProperties (Properties.mk p) ->
  run_events parse (ctx, tk :: below, ys) (events_of c) = Ok (ctx', stack', ys') ->
  exists tk', stack' = tk' :: below /\ Token.type tk' = "Properties"
    /\ Token.obj tk' = OProperties (Properties.mk (property_effect p c)).
Proof.
  destruct c as [tag a t cs]. intros Hty Hobj H.
  apply run_element_shape in H
    as (ctx1 & o & ctx2 & tkc & ys2 & ctx3 & p' & c' & Hs & Hc & Ht & He & Hst).
  inversion Hst; subst ctx' stack' ys'; clear Hst.
  rewrite Hty, Hobj in He.
  pose proof (start_known _ _ _ _ _ Hs) as Hname.
  remember (Str.title tag) as name eqn:En. clear En.
  each_name Hname; try dead_path end_unknown He.
  unfold start in Hs. cbn [String.eqb Ascii.eqb Bool.eqb] in Hs.
  destruct (a !! "name") as [n |] eqn:Hn; [| discriminate].
  destruct (a !! "value") as [v |] eqn:Hv; [| discriminate].
  inversion Hs; subst ctx1 o; clear Hs.
  apply leaf_children in Hc as [-> Hc];
    [| cbv [leaf_names In Token.type]; tauto].
  inversion Hc; subst ctx2 tkc ys2; clear Hc.
  unfold end_ in He. cbn [String.eqb Ascii.eqb Bool.eqb Token.obj] in He.
  inversion He; subst ctx3 p' c'; clear He.
  eexists. split; [reflexivity |]. split; [exact Hty |].
  cbn. rewrite Hn, Hv. reflexivity.
Qed.

Lemma property_children cs : forall ctx tk below ys ctx' stack' ys' p,
  Token.type tk = "Properties" -> Token.obj tk = OProperties (Properties.mk p) ->
  run_events parse (ctx, tk :: below, ys) (flat_map events_of cs)
    = Ok (ctx', stack', ys') ->
  exists tk', stack' = tk' :: below /\ Token.type tk' = "Properties"
    /\ Token.obj tk' = OProperties (Properties.mk (fold_left property_effect cs p)).
Proof.
  induction cs as [| c cs IH]; intros ctx tk below ys ctx' stack' ys' p Hty Hobj H.
  - cbn in H. inversion H; subst. eauto.
  - apply run_children_inv in H as ([[ctx1 stack1] ys1] & H1 & H2).
    apply (property_child c _ _ _ _ _ _ _ p Hty Hobj) in H1 as (tk1 & -> & Hty1 & Hobj1).
    apply (IH _ _ _ _ _ _ _ _ Hty1 Hobj1) in H2. exact H2.
Qed.

(** A child of a tileset that parses is a grid, an image, a property list
    or a tile, and changes its parent as [tileset_child_effect] says. *)
Lemma tileset_child c ctx tk below ys ctx' stack' ys' ts :
  Token.type tk = "Tileset" -> Token.obj tk = OTileset ts ->
  run_events parse (ctx, tk :: below, ys) (events_of c) = Ok (ctx', stack', ys') ->
  Context.firstgid ctx' = Context.firstgid ctx
  /\ exists tk', stack' = tk' :: below /\ Token.type tk' = "Tileset"
       /\ Token.obj tk' = OTileset (tileset_child_effect (Context.firstgid ctx) ts c).
Proof.
  intros Hty Hobj H.
  assert (Hkeep : Context.firstgid ctx' = Context.firstgid ctx).
  { eapply (element_keeps_firstgid c); [| | exact H]; rewrite Hty;
      [cbv [In tag_names]; tauto | discriminate]. }
  split; [exact Hkeep |].
  destruct c as [tag a t cs].
  apply run_element_shape in H
    as (ctx1 & o & ctx2 & tkc & ys2 & ctx3 & p' & c' & Hs & Hc & Ht & He & Hst).
  inversion Hst; subst ctx' stack' ys'; clear Hst.
  rewrite Hty, Hobj in He.
  pose proof (start_known _ _ _ _ _ Hs) as Hname.
  unfold tileset_child_effect.
  remember (Str.title tag) as name eqn:En. clear En.
  each_name Hname; try dead_path end_unknown He.
  - (* name = Grid *)
    unfold start in Hs. cbn [String.eqb Ascii.eqb Bool.eqb] in Hs.
    apply bind_Ok in Hs as (w & _ & Hs). apply bind_Ok in Hs as (h & _ & Hs).
    inversion Hs; subst ctx1 o; clear Hs.
    apply leaf_children in Hc as [-> Hc]; [| cbv [leaf_names In Token.type]; tauto].
    inversion Hc; subst ctx2 tkc ys2; clear Hc.
    unfold end_ in He. cbn [String.eqb Ascii.eqb Bool.eqb Token.obj] in He.
    destruct (decide _) in He; [| discriminate].
    inversion He; subst ctx3 p' c'; clear He.
    eexists. split; [reflexivity |]. split; [exact Hty | reflexivity].
  - (* name = Image *)
    unfold start in Hs. cbn [String.eqb Ascii.eqb Bool.eqb] in Hs.
    apply bind_Ok in Hs as (w & _ & Hs). apply bind_Ok in Hs as (h & _ & Hs).
    inversion Hs; subst ctx1 o; clear Hs.
    apply leaf_children in Hc as [-> Hc]; [| cbv [leaf_names In Token.type]; tauto].
    inversion Hc; subst ctx2 tkc ys2; clear Hc.
    unfold end_ in He. cbn [String.eqb Ascii.eqb Bool.eqb Token.obj] in He.
    apply bind_Ok in He as (src & _ & He). apply bind_Ok in He as (pp & _ & He).
    apply bind_Ok in He as (tw & _ & He). apply bind_Ok in He as (th & _ & He).
    inversion He; subst ctx3 p' c'; clear He.
    eexists. split; [reflexivity |]. split; [exact Hty | reflexivity].
  - (* name = Properties *)
    unfold start in Hs. cbn [String.eqb Ascii.eqb Bool.eqb] in Hs.
    inversion Hs; subst ctx1 o; clear Hs.
    eapply (property_children cs) in Hc; [| reflexivity | reflexivity].
    destruct Hc as (tk' & Hstack & Hty' & Hobj').
    inversion Hstack; subst tk'; clear Hstack.
    rewrite Hobj' in He.
    unfold end_ in He. cbn [String.eqb Ascii.eqb Bool.eqb] in He.
    inversion He; subst ctx3 p' c'; clear He.
    eexists. split; [reflexivity |]. split; [exact Hty | reflexivity].
  - (* name = Tile *)
    unfold start in Hs. cbn [String.eqb Ascii.eqb Bool.eqb] in Hs.
    apply bind_Ok in Hs as (i & _ & Hs). apply bind_Ok in Hs as (g & _ & Hs).
    inversion Hs; subst ctx1 o; clear Hs.
    apply run_children_keep_firstgid in Hc;
      [| cbv [In tag_names Token.type]; tauto | discriminate].
    unfold end_ in He. cbn [String.eqb Ascii.eqb Bool.eqb] in He.
    destruct (Token.obj tkc); try discriminate.
    apply bind_Ok in He as (i' & _ & He).
    inversion He; subst ctx3 p' c'; clear He.
    eexists. split; [reflexivity |]. split; [exact Hty |].
    cbn. rewrite Hc. reflexivity.
Qed.

Lemma tileset_children cs : forall ctx tk below ys ctx' stack' ys' ts,
  Token.type tk = "Tileset" -> Token.obj tk = OTileset ts ->
  run_events parse (ctx, tk :: below, ys) (flat_map events_of cs)
    = Ok (ctx', stack', ys') ->
  Context.firstgid ctx' = Context.firstgid ctx
  /\ exists tk', stack' = tk' :: below /\ Token.type tk' = "Tileset"
       /\ Token.obj tk'
          = OTileset (fold_left (tileset_child_effect (Context.firstgid ctx)) cs ts).
Proof.
  induction cs as [| c cs IH]; intros ctx tk below ys ctx' stack' ys' ts Hty Hobj H.
  - cbn in H. inversion H; subst. eauto.
  - apply run_children_inv in H as ([[ctx1 stack1] ys1] & H1 & H2).
    apply (tileset_child c _ _ _ _ _ _ _ ts Hty Hobj) in H1
      as (Hg1 & tk1 & -> & Hty1 & Hobj1).
    apply (IH _ _ _ _ _ _ _ _ Hty1 Hobj1) in H2 as (Hg2 & tk2 & -> & Hty2 & Hobj2).
    split; [congruence |].
    exists tk2. split; [reflexivity |]. split; [exact Hty2 |].
    rewrite Hobj2, Hg1. reflexivity.
Qed.

Lemma get_or_get_as {A : Type} a key (type : string -> result A) (d : A) (v : A) :
  get_or a key type d = Ok v ->
  exists g, get_as a key type = Ok g /\ v = default d g.
Proof.
  unfold get_or, get_as. destruct (a !! key) as [s |].
  - intros H. rewrite H. exists (Some v). auto.
  - intros H. inversion H. exists None. auto.
Qed.

(** *** A file rooted at an inline tileset *)

Lemma start_inline_tileset ctx a t ctx1 o :
  truthy_str (a !! "source") = false ->
  start parse ctx "Tileset" a t = Ok (ctx1, o) ->
  exists g ts0,
    get_as a "firstgid" int_ = Ok g
    /\ inline_tileset a = Ok ts0
    /\ Tileset.firstgid ts0 = default 0 g
    /\ ctx1 = pending_firstgid ctx g
    /\ o = OTileset ts0.
Proof.
  intros Hsrc. unfold start. cbn [String.eqb Ascii.eqb Bool.eqb].
  unfold get at 1. rewrite Hsrc. intros H.
  apply bind_Ok in H as (g & Hg & H).
  exists g. unfold inline_tileset.
  apply bind_Ok in H as (fg & Hfg & H). rewrite Hfg. cbn [bind].
  apply bind_Ok in H as (tw & Htw & H). rewrite Htw. cbn [bind].
  apply bind_Ok in H as (th & Hth & H). rewrite Hth. cbn [bind].
  apply bind_Ok in H as (sp & Hsp & H). rewrite Hsp. cbn [bind].
  apply bind_Ok in H as (mg & Hmg & H). rewrite Hmg. cbn [bind].
  inversion H; subst ctx1 o; clear H.
  eexists. split; [exact Hg |]. split; [reflexivity |].
  split; [| split; reflexivity].
  cbn. apply get_or_get_as in Hfg as (g' & Hg' & ->). congruence.
Qed.

Lemma inline_tileset_root tag a t cs ctx st' :
  Str.title tag = "Tileset" -> truthy_str (a !! "source") = false ->
  run_events parse (ctx, [], []) (events_of (Element tag a t cs)) = Ok st' ->
  exists g ts0 ctx' ys',
    get_as a "firstgid" int_ = Ok g
    /\ inline_tileset a = Ok ts0
    /\ Tileset.firstgid ts0 = default 0 g
    /\ st' = (ctx', [], ys')
    /\ last ys'
       = Some (OTileset
                 (fold_left
                    (tileset_child_effect (Context.firstgid (pending_firstgid ctx g)))
                    cs ts0)).
Proof.
  intros Htag Hsrc H.
  apply run_element_inv in H as (st1 & st2 & H1 & H2 & H3).
  apply step_start_inv in H1 as (ctx1 & o & Hs & ->).
  rewrite Htag in *.
  apply (start_inline_tileset _ _ _ _ _ Hsrc) in Hs as (g & ts0 & Hg & Hts & Hfg & -> & ->).
  destruct st2 as [[ctx2 stack2] ys2].
  eapply (tileset_children cs) in H2; [| reflexivity | reflexivity].
  destruct H2 as (Hkeep & tk' & -> & Hty & Hobj).
  apply step_end_root_inv in H3 as (ctx3 & p' & c' & He & ->).
  rewrite Hty, Hobj in He. unfold end_ in He.
  cbn [String.eqb Ascii.eqb Bool.eqb] in He. inversion He; subst ctx3 p' c'; clear He.
  exists g, ts0, ctx2, (ys2 ++ [OTileset (fold_left
    (tileset_child_effect (Context.firstgid (pending_firstgid ctx g))) cs ts0)]).
  repeat split; try assumption. apply last_snoc.
Qed.

End WithRuntime.

Section ExternalFiles.
Context {RT : Runtime}.

Lemma iter_tmx_inline_root depth ctx path tag a t cs ctx' ys :
  iterparse path = Some (Element tag a t cs) ->
  Str.title tag = "Tileset" -> truthy_str (a !! "source") = false ->
  iter_tmx depth ctx path = Ok (ctx', ys) ->
  exists g ts0,
    get_as a "firstgid" int_ = Ok g
    /\ inline_tileset a = Ok ts0
    /\ Tileset.firstgid ts0 = default 0 g
    /\ last ys
       = Some (OTileset
                 (fold_left
                    (tileset_child_effect (Context.firstgid (pending_firstgid ctx g)))
                    cs ts0)).
Proof.
  intros Hfile Htag Hsrc H. destruct depth as [| depth]; [discriminate |].
  cbn [iter_tmx] in H. rewrite Hfile in H.
  apply bind_Ok in H as (st & Hrun & H). inversion H; subst ctx' ys; clear H.
  apply (inline_tileset_root _ _ _ _ _ _ _ Htag Hsrc) in Hrun
    as (g & ts0 & ctx2 & ys2 & Hg & Hts & Hfg & -> & Hlast).
  exists g, ts0. auto.
Qed.


End ExternalFiles.

Import SampleRuntime.


(** Referred to with [firstgid="5"], a file whose tileset tag declares
    [firstgid="7"] yields a tileset with firstgid 7: the reducer's guard
    [if not parent.firstgid] keeps a firstgid the file declares. *)
Lemma external_tileset_keeps_own_firstgid :
  exists ctx' ts,
    @start sample (@iter_tmx sample 2) town_context "Tileset"
       (reference "5" "own.tsx") None
      = Ok (ctx', OTileset ts)
    /\ Tileset.firstgid ts = 7 /\ Tileset.firstgid ts <> 5.
Proof.
  eexists _, _. split; [vm_compute; reflexivity |]. cbn. split; [reflexivity | lia].
Qed.

(** C3, where the code departs from it.  The tag
    [<tileset firstgid="5" source="sheet.tsx"/>] refers to a sprite-sheet
    tileset: an image and no tile element.  Only the [Tileset.Tile]
    reducer hands a tileset the pending firstgid, so the start tag returns
    the tileset with firstgid 0, not 5, although the context holds the
    pending 5; the [Tileset.Image] reducer has sliced the sheet from
    gid 0, so the cache holds gids 0 and 1 and nothing at gid 5.  The
    map [maps/field.tmx], which refers to the sheet in this way and
    places gids 5 and 6, does not load: closing the map finds no tile
    for gid 5. *)
Theorem external_sheet_keeps_zero :
  (exists ctx' ts,
     @start sample (@iter_tmx sample 2) town_context "Tileset"
        (reference "5" "sheet.tsx") None
       = Ok (ctx', OTileset ts)
     /\ Tileset.firstgid ts = 0
     /\ Context.firstgid ctx' = 5
     /\ is_Some (Context.tiles ctx' !! 1) /\ Context.tiles ctx' !! 5 = None)
  /\ @load_tmx MoreSamples.field 2 "maps/field.tmx" = Raise (KeyError "gid").
Proof.
  split; [| vm_compute; reflexivity].
  eexists _, _. split; [vm_compute; reflexivity |].
  repeat split; try reflexivity. vm_compute. eauto.
Qed.

(** The sample map loads: its tileset carries the referencing firstgid,
    its layer is a 1x2 grid of resolved tiles, and its object is stored
    with the inverted [y]. *)
Example load_town :
  exists m tl og o,
    @load_tmx sample 2 "maps/town.tmx" = Ok (OMap m)
    /\ Tileset.firstgid <$> Map.tilesets m = [5]
    /\ Map.layers m = [LTileLayer tl; LObjectGroup og]
    /\ (exists t0 t1, TileLayer.data tl = DataGrid [[Some t0; Some t1]]
          /\ Tile.id t0 = Some 0 /\ Tile.id t1 = Some 1)
    /\ ObjectGroup.objects og = [o]
    /\ Object.y o = Some 80%float.
Proof.
  eexists _, _, _, _. split; [vm_compute; reflexivity |].
  split; [reflexivity |]. split; [reflexivity |].
  split; [| split; reflexivity].
  eexists _, _. split; [reflexivity |]. split; reflexivity.
Qed.

End ParserFacts.

(** ** Raw gids, taken apart *)

Module GidMoreFacts.
Import Gid GidFacts.

Lemma land_single_bit (raw k : Z) :
  0 <= k ->
  Z.land raw (Z.shiftl 1 k) = if Z.testbit raw k then Z.shiftl 1 k else 0.
Proof.
  intros Hk. apply Z.bits_inj'. intros n Hn.
  rewrite Z.land_spec, Z.shiftl_spec by lia.
  destruct (Z.eq_dec n k) as [-> | Hne].
  - rewrite Z.sub_diag. change (Z.testbit 1 0) with true. rewrite andb_true_r.
    destruct (Z.testbit raw k) eqn:E.
    + rewrite Z.shiftl_spec, Z.sub_diag by lia. reflexivity.
    + rewrite Z.bits_0. reflexivity.
  - assert (Hz : Z.testbit 1 (n - k) = false).
    { destruct (Z.ltb_spec n k).
      - apply Z.testbit_neg_r. lia.
      - apply (Z.bits_above_log2 1 (n - k)); simpl; lia. }
    rewrite Hz, andb_false_r.
    destruct (Z.testbit raw k).
    + rewrite Z.shiftl_spec, Hz by lia. reflexivity.
    + rewrite Z.bits_0. reflexivity.
Qed.

Lemma flag_test (raw k : Z) :
  0 <= k ->
  (Z.land raw (Z.shiftl 1 k) =? Z.shiftl 1 k) = Z.testbit raw k.
Proof.
  intros Hk. rewrite land_single_bit by exact Hk.
  assert (Hpos : 0 < Z.shiftl 1 k).
  { rewrite Z.shiftl_1_l. apply Z.pow_pos_nonneg; lia. }
  destruct (Z.testbit raw k).
  - apply Z.eqb_refl.
  - apply Z.eqb_neq. lia.
Qed.

Lemma strip_is_low_bits (raw : Z) :
  0 <= raw < 2 ^ 32 ->
  Z.land raw (Z.lnot (Z.lor (Z.lor GID_TRANS_FLIPX GID_TRANS_FLIPY) GID_TRANS_ROT))
    = raw mod 2 ^ 29.
Proof.
  intros Hr. rewrite <- Z.land_ones by lia.
  apply Z.bits_inj'. intros n Hn.
  rewrite !Z.land_spec, Z.lnot_spec by lia.
  change (Z.lor (Z.lor GID_TRANS_FLIPX GID_TRANS_FLIPY) GID_TRANS_ROT)
    with (Z.shiftl 7 29).
  destruct (Z.ltb_spec n 29) as [Hlt | Hge].
  - rewrite Z.shiftl_spec_low by lia. rewrite Z.ones_spec_low by lia. reflexivity.
  - rewrite Z.ones_spec_high by lia. rewrite andb_false_r.
    destruct (Z.ltb_spec n 32) as [Hlt | Hhi].
    + rewrite Z.shiftl_spec by lia.
      assert (Hc : n - 29 = 0 \/ n - 29 = 1 \/ n - 29 = 2) by lia.
      destruct Hc as [-> | [-> | ->]]; simpl; apply andb_false_r.
    + rewrite (Z.bits_above_log2 raw n); [reflexivity | lia |].
      destruct (Z.eq_dec raw 0) as [-> | Hnz]; [simpl; lia |].
      apply Z.lt_le_trans with 32; [| lia]. apply Z.log2_lt_pow2; lia.
Qed.

(** X1. Every 32-bit raw gid splits into a storage gid below [2^29] and the
    flag triple of its three top bits, and is their bitwise or. *)
Theorem decode_gid_decompose (raw : Z) :
  0 <= raw < 2 ^ 32 ->
  exists g f,
    decode_gid raw = (g, f)
    /\ g = raw mod 2 ^ 29
    /\ 0 <= g < 2 ^ 29
    /\ f = mkTileFlags (Z.testbit raw 31) (Z.testbit raw 30) (Z.testbit raw 29)
    /\ raw = Z.lor g (flag_bits (horizontal f) (vertical f) (diagonal f)).
Proof.
  intros Hr.
  exists (raw mod 2 ^ 29),
    (mkTileFlags (Z.testbit raw 31) (Z.testbit raw 30) (Z.testbit raw 29)).
  assert (Hg := strip_is_low_bits raw Hr).
  split.
  { unfold decode_gid. rewrite Hg.
    unfold GID_TRANS_FLIPX, GID_TRANS_FLIPY, GID_TRANS_ROT.
    rewrite !flag_test by lia. reflexivity. }
  split; [reflexivity |].
  split; [apply Z.mod_pos_bound; lia |].
  split; [reflexivity |].
  cbn [horizontal vertical diagonal].
  apply Z.bits_inj'. intros n Hn.
  rewrite Z.lor_spec. rewrite <- Z.land_ones by lia. rewrite Z.land_spec.
  unfold flag_bits, GID_TRANS_FLIPX, GID_TRANS_FLIPY, GID_TRANS_ROT.
  rewrite !Z.lor_spec.
  destruct (Z.ltb_spec n 29) as [Hlt | Hge].
  - rewrite Z.ones_spec_low by lia.
    replace (Z.testbit (if Z.testbit raw 31 then Z.shiftl 1 31 else 0) n) with false
      by (destruct (Z.testbit raw 31); [rewrite Z.shiftl_spec_low by lia | rewrite Z.bits_0]; reflexivity).
    replace (Z.testbit (if Z.testbit raw 30 then Z.shiftl 1 30 else 0) n) with false
      by (destruct (Z.testbit raw 30); [rewrite Z.shiftl_spec_low by lia | rewrite Z.bits_0]; reflexivity).
    replace (Z.testbit (if Z.testbit raw 29 then Z.shiftl 1 29 else 0) n) with false
      by (destruct (Z.testbit raw 29); [rewrite Z.shiftl_spec_low by lia | rewrite Z.bits_0]; reflexivity).
    rewrite andb_true_r, !orb_false_r. reflexivity.
  - rewrite Z.ones_spec_high by lia. rewrite andb_false_r. cbn [orb].
    rewrite <- !Z.lor_spec.
    rewrite <- !land_single_bit by lia. rewrite !Z.lor_spec, !Z.land_spec.
    rewrite !Z.shiftl_spec by lia.
    destruct (Z.ltb_spec n 32) as [Hlt | Hhi].
    + assert (Hc : n = 29 \/ n = 30 \/ n = 31) by lia.
      destruct Hc as [-> | [-> | ->]]; simpl;
        rewrite ?andb_false_r, ?andb_true_r, ?orb_false_r; reflexivity.
    + rewrite (Z.bits_above_log2 raw n); [reflexivity | lia |].
      destruct (Z.eq_dec raw 0) as [-> | Hnz]; [simpl; lia |].
      apply Z.lt_le_trans with 32; [| lia]. apply Z.log2_lt_pow2; lia.
Qed.

Lemma decode_gid_decompose_witness :
  exists g f,
    decode_gid 3221225473 = (g, f)
    /\ g = 3221225473 mod 2 ^ 29
    /\ 0 <= g < 2 ^ 29
    /\ f = mkTileFlags (Z.testbit 3221225473 31) (Z.testbit 3221225473 30)
                      (Z.testbit 3221225473 29)
    /\ 3221225473 = Z.lor g (flag_bits (horizontal f) (vertical f) (diagonal f)).
Proof. apply (decode_gid_decompose 3221225473). lia. Defined.

End GidMoreFacts.

(** ** Reshaping and decoding layer data *)

Module ReshapeFacts.
Import Builtins Dc Mason.

Lemma range_from_zero (n w : Z) :
  0 < w -> 0 <= n ->
  exists m : nat,
    range 0 n w = Ok (map (fun k : nat => Z.of_nat k * w) (seq 0 m))
    /\ n <= Z.of_nat m * w
    /\ (forall k : nat, (k < m)%nat -> Z.of_nat k * w < n).
Proof.
  intros Hw Hn. exists (Z.to_nat (range_length 0 n w)).
  unfold range. destruct (Z.eqb_spec w 0) as [E | _]; [lia |].
  split; [reflexivity |].
  unfold range_length. destruct (Z.ltb_spec 0 w) as [_ | ?]; [| lia].
  destruct (Z.ltb_spec 0 n) as [Hpos | Hz].
  - pose proof (Z.div_mod (n - 0 - 1) w ltac:(lia)) as Hdm.
    pose proof (Z.mod_pos_bound (n - 0 - 1) w Hw) as Hr.
    assert (Hq : 0 <= (n - 0 - 1) / w) by (apply Z.div_pos; lia).
    split; [nia |]. intros k Hk. nia.
  - split; [simpl; lia |]. intros k Hk. simpl in Hk. lia.
Qed.

Lemma chunks_concat {A : Type} (W : nat) :
  (0 < W)%nat ->
  forall (m : nat) (l : list A),
    (length l <= m * W)%nat ->
    concat (map (fun k : nat => take W (drop (k * W) l)) (seq 0 m)) = l.
Proof.
  intros HW. induction m as [| m IH]; intros l Hl.
  - destruct l; [reflexivity | simpl in Hl; lia].
  - cbn [seq map concat]. rewrite <- seq_shift, map_map.
    assert (E : map (fun k : nat => take W (drop (S k * W) l)) (seq 0 m)
                = map (fun k : nat => take W (drop (k * W) (drop W l))) (seq 0 m)).
    { apply map_ext. intros k. rewrite drop_drop. f_equal; f_equal; lia. }
    rewrite E, IH.
    + change (0 * W)%nat with 0%nat. rewrite drop_0. apply take_drop.
    + rewrite length_drop. lia.
Qed.

Lemma chunks_lookup {A : Type} (W m : nat) (l : list A) (x y : nat) :
  (x < W)%nat -> (length l <= m * W)%nat ->
  match map (fun k : nat => take W (drop (k * W) l)) (seq 0 m) !! y with
  | Some row => row !! x
  | None => None
  end = l !! (y * W + x)%nat.
Proof.
  intros Hx Hl. rewrite list_lookup_fmap.
  destruct (Nat.lt_ge_cases y m) as [Hy | Hy].
  - rewrite lookup_seq_lt by exact Hy. cbn [fmap option_fmap option_map Nat.add].
    rewrite lookup_take_lt by exact Hx. rewrite lookup_drop. reflexivity.
  - rewrite lookup_seq_ge by exact Hy. cbn [fmap option_fmap option_map].
    symmetry. apply lookup_ge_None_2. nia.
Qed.

Lemma reshape_rows {A : Type} (gids : list A) (width : Z) :
  0 < width ->
  exists rows,
    reshape_data gids (Some width) = Ok rows
    /\ Forall (fun row => 0 < Z.of_nat (length row) <= width) rows
    /\ forall x y : nat,
         Z.of_nat x < width ->
         match rows !! y with Some row => row !! x | None => None end
         = gids !! (y * Z.to_nat width + x)%nat.
Proof.
  intros Hw.
  destruct (range_from_zero (Z.of_nat (length gids)) width Hw ltac:(lia))
    as (m & Hrange & Hcover & Hin).
  unfold reshape_data. cbn [not_none bind]. rewrite Hrange. cbn [bind].
  eexists. split; [reflexivity |].
  rewrite map_map.
  assert (Hrows : map (fun k : nat => slice gids (Z.of_nat k * width) width) (seq 0 m)
                  = map (fun k : nat => take (Z.to_nat width)
                                          (drop (k * Z.to_nat width) gids)) (seq 0 m)).
  { apply map_ext. intros k. unfold slice. f_equal. f_equal. nia. }
  rewrite Hrows. clear Hrows.
  split.
  { apply List.Forall_forall. intros row Hrow. apply in_map_iff in Hrow as (k & <- & Hk).
    apply in_seq in Hk. rewrite length_take, length_drop.
    specialize (Hin k ltac:(lia)). nia. }
  intros x y Hx. apply chunks_lookup; nia.
Qed.

(** X2. [reshape_data] with a positive width cuts the list into consecutive
    rows: joined again they are the list, no row is empty or longer than
    the width, cell [x] of row [y] is item [y * width + x] of the list,
    and a list of [width * height] items gives exactly [height] rows of
    exactly [width] items. *)
Theorem reshape_data_rows {A : Type} (gids : list A) (width : Z) :
  0 < width ->
  exists rows,
    reshape_data gids (Some width) = Ok rows
    /\ concat rows = gids
    /\ Forall (fun row => 0 < Z.of_nat (length row) <= width) rows
    /\ (forall x y : nat,
          Z.of_nat x < width ->
          match rows !! y with Some row => row !! x | None => None end
          = gids !! (y * Z.to_nat width + x)%nat)
    /\ forall height : Z,
         Z.of_nat (length gids) = width * height ->
         Z.of_nat (length rows) = height
         /\ Forall (fun row => Z.of_nat (length row) = width) rows.
Proof.
  intros Hw.
  destruct (range_from_zero (Z.of_nat (length gids)) width Hw ltac:(lia))
    as (m & Hrange & Hcover & Hin).
  unfold reshape_data. cbn [not_none bind]. rewrite Hrange. cbn [bind].
  eexists. split; [reflexivity |].
  rewrite map_map.
  assert (Hrows : map (fun k : nat => slice gids (Z.of_nat k * width) width) (seq 0 m)
                  = map (fun k : nat => take (Z.to_nat width)
                                          (drop (k * Z.to_nat width) gids)) (seq 0 m)).
  { apply map_ext. intros k. unfold slice. f_equal. f_equal. nia. }
  rewrite Hrows. clear Hrows.
  split.
  { apply chunks_concat; nia. }
  assert (Hlen : forall k : nat, (k < m)%nat ->
            length (take (Z.to_nat width) (drop (k * Z.to_nat width) gids))
            = Nat.min (Z.to_nat width) (length gids - k * Z.to_nat width)).
  { intros k _. rewrite length_take, length_drop. reflexivity. }
  split.
  { apply List.Forall_forall. intros row Hrow. apply in_map_iff in Hrow as (k & <- & Hk).
    apply in_seq in Hk. rewrite Hlen by lia. specialize (Hin k ltac:(lia)). nia. }
  split.
  { intros x y Hx. apply chunks_lookup; nia. }
  intros height Hh. rewrite length_map, length_seq.
  assert (Hm : Z.of_nat m = height).
  { destruct m as [| m'].
    - simpl in Hcover. nia.
    - specialize (Hin m' ltac:(lia)). nia. }
  split; [exact Hm |].
  apply List.Forall_forall. intros row Hrow. apply in_map_iff in Hrow as (k & <- & Hk).
  apply in_seq in Hk. rewrite Hlen by lia. nia.
Qed.

Lemma reshape_data_rows_witness :
  exists rows,
    reshape_data [1; 2; 3; 4; 5; 6] (Some 3) = Ok rows
    /\ concat rows = [1; 2; 3; 4; 5; 6]
    /\ Forall (fun row => 0 < Z.of_nat (length row) <= 3) rows
    /\ (forall x y : nat,
          Z.of_nat x < 3 ->
          match rows !! y with Some row => row !! x | None => None end
          = [1; 2; 3; 4; 5; 6] !! (y * Z.to_nat 3 + x)%nat)
    /\ forall height : Z,
         Z.of_nat (length [1; 2; 3; 4; 5; 6]) = 3 * height ->
         Z.of_nat (length rows) = height
         /\ Forall (fun row => Z.of_nat (length row) = 3) rows.
Proof. apply (reshape_data_rows [1; 2; 3; 4; 5; 6] 3). lia. Defined.

(** X3. [reshape_data] without a usable width: a missing width is a
    TypeError, a zero width a ValueError, and a negative width silently
    gives no rows at all, whatever the list holds. *)
Theorem reshape_data_bad_width {A : Type} (gids : list A) (width : Z) :
  reshape_data gids None
    = Raise (TypeError "'NoneType' object cannot be interpreted as an integer")
  /\ reshape_data gids (Some 0)
     = Raise (ValueError "range() arg 3 must not be zero")
  /\ (width < 0 -> reshape_data gids (Some width) = Ok []).
Proof.
  split; [reflexivity |]. split; [reflexivity |].
  intros Hneg. unfold reshape_data. cbn [not_none bind]. unfold range.
  destruct (Z.eqb_spec width 0) as [E | _]; [lia |].
  unfold range_length. destruct (Z.ltb_spec 0 width) as [? | _]; [lia |].
  destruct (Z.ltb_spec (Z.of_nat (length gids)) 0) as [? | _]; [lia |].
  reflexivity.
Qed.

Lemma reshape_data_bad_width_witness :
  reshape_data [1; 2; 3] (Some (-2)) = Ok [].
Proof. apply (reshape_data_bad_width [1; 2; 3] (-2)). lia. Defined.

End ReshapeFacts.

Module DecodingMoreFacts.
Import Builtins Dc Mason.

Lemma unpack_le32_length (n : nat) : forall data : list byte,
  (length data <= n)%nat ->
  (Z.of_nat (length data) mod 4 = 0 ->
   exists gids,
     unpack_le32 data = Ok gids
     /\ Z.of_nat (length gids) = Z.of_nat (length data) / 4
     /\ Forall (fun g => 0 <= g < 2 ^ 32) gids
     /\ forall (k : nat) b0 b1 b2 b3,
          data !! (4 * k)%nat = Some b0 -> data !! (4 * k + 1)%nat = Some b1 ->
          data !! (4 * k + 2)%nat = Some b2 -> data !! (4 * k + 3)%nat = Some b3 ->
          gids !! k
          = Some (Z.of_N (Byte.to_N b0) + 256 * Z.of_N (Byte.to_N b1)
                  + 65536 * Z.of_N (Byte.to_N b2)
                  + 16777216 * Z.of_N (Byte.to_N b3)))
  /\ (Z.of_nat (length data) mod 4 <> 0 ->
      unpack_le32 data = Raise (LibraryError "struct.error")).
Proof.
  induction n as [| n IH]; intros data Hlen.
  - destruct data; [| simpl in Hlen; lia]. split; [| intros H; exfalso; apply H; reflexivity].
    intros _. exists []. repeat split; try reflexivity; [constructor |].
    intros k b0 b1 b2 b3 H. rewrite lookup_nil in H. discriminate.
  - destruct data as [| b0 [| b1 [| b2 [| b3 rest]]]].
    + split; [| intros H; exfalso; apply H; reflexivity].
      intros _. exists []. repeat split; try reflexivity; [constructor |].
      intros k c0 c1 c2 c3 H. rewrite lookup_nil in H. discriminate.
    + split; [intros H; discriminate H | reflexivity].
    + split; [intros H; discriminate H | reflexivity].
    + split; [intros H; discriminate H | reflexivity].
    + assert (Hrest : (length rest <= n)%nat) by (simpl in Hlen; lia).
      destruct (IH rest Hrest) as [IHok IHbad].
      assert (Hmod : Z.of_nat (length (b0 :: b1 :: b2 :: b3 :: rest)) mod 4
                     = Z.of_nat (length rest) mod 4).
      { cbn [length]. rewrite !Nat2Z.inj_succ.
        replace (Z.succ (Z.succ (Z.succ (Z.succ (Z.of_nat (length rest))))))
          with (Z.of_nat (length rest) + 1 * 4) by lia.
        apply Z.mod_add. lia. }
      rewrite Hmod. split.
      * intros H0. destruct (IHok H0) as (gids & Hg & Hl & Hb & Hv).
        cbn [unpack_le32]. rewrite Hg. cbn [bind]. eexists. split; [reflexivity |].
        split.
        { cbn [length]. rewrite !Nat2Z.inj_succ, Hl.
          replace (Z.succ (Z.succ (Z.succ (Z.succ (Z.of_nat (length rest))))))
            with (Z.of_nat (length rest) + 1 * 4) by lia.
          rewrite Z.div_add by lia. lia. }
        split.
        { constructor; [| exact Hb].
          pose proof (Byte.to_N_bounded b0). pose proof (Byte.to_N_bounded b1).
          pose proof (Byte.to_N_bounded b2). pose proof (Byte.to_N_bounded b3). lia. }
        intros [| k] c0 c1 c2 c3 H0' H1' H2' H3'.
        { cbn in H0', H1', H2', H3'. inversion H0'; inversion H1'; inversion H2';
            inversion H3'; subst. reflexivity. }
        { cbn [lookup list_lookup]. apply Hv.
          - replace (4 * S k)%nat with (S (S (S (S (4 * k))))) in H0' by lia. exact H0'.
          - replace (4 * S k + 1)%nat with (S (S (S (S (4 * k + 1))))) in H1' by lia.
            exact H1'.
          - replace (4 * S k + 2)%nat with (S (S (S (S (4 * k + 2))))) in H2' by lia.
            exact H2'.
          - replace (4 * S k + 3)%nat with (S (S (S (S (4 * k + 3))))) in H3' by lia.
            exact H3'. }
      * intros Hbad. cbn [unpack_le32]. rewrite (IHbad Hbad). reflexivity.
Qed.

Section WithRuntime.
Context {RT : Runtime}.

(** X4. Base64 data, uncompressed or compressed with gzip or zlib: the
    decoded and decompressed bytes are read four at a time as
    little-endian unsigned integers.  A byte count that is a multiple of
    four gives a quarter as many gids, each below [2^32]; any other count
    raises [struct.error]. *)
Theorem unpack_gids_base64_words (t : string) (compression : option string)
    (raw data : list byte) :
  b64decode t = Some raw ->
  (compression = None /\ data = raw)
  \/ (compression = Some "gzip" /\ gzip_decompress raw = Some data)
  \/ (compression = Some "zlib" /\ zlib_decompress raw = Some data) ->
  (Z.of_nat (length data) mod 4 = 0 ->
   exists gids,
     unpack_gids (Some t) (Some "base64") compression = Ok (Some gids)
     /\ Z.of_nat (length gids) = Z.of_nat (length data) / 4
     /\ Forall (fun g => 0 <= g < 2 ^ 32) gids
     /\ forall (k : nat) b0 b1 b2 b3,
          data !! (4 * k)%nat = Some b0 -> data !! (4 * k + 1)%nat = Some b1 ->
          data !! (4 * k + 2)%nat = Some b2 -> data !! (4 * k + 3)%nat = Some b3 ->
          gids !! k
          = Some (Z.of_N (Byte.to_N b0) + 256 * Z.of_N (Byte.to_N b1)
                  + 65536 * Z.of_N (Byte.to_N b2)
                  + 16777216 * Z.of_N (Byte.to_N b3)))
  /\ (Z.of_nat (length data) mod 4 <> 0 ->
      unpack_gids (Some t) (Some "base64") compression
        = Raise (LibraryError "struct.error")).
Proof.
  intros Hd Hc.
  assert (Hun : unpack_gids (Some t) (Some "base64") compression
                = (gids <- unpack_le32 data ;; Ok (Some gids))).
  { unfold unpack_gids.
    destruct (decide (Some "base64" = Some "base64")) as [_ | N]; [| congruence].
    cbn [not_none bind]. rewrite Hd. cbn [bind].
    destruct Hc as [[-> ->] | [[-> Hz] | [-> Hz]]].
    - destruct (decide (None = Some "gzip")) as [E | _]; [discriminate |].
      destruct (decide (None = Some "zlib")) as [E | _]; [discriminate |].
      reflexivity.
    - destruct (decide (Some "gzip" = Some "gzip")) as [_ | N]; [| congruence].
      rewrite Hz. reflexivity.
    - destruct (decide (Some "zlib" = Some "gzip")) as [E | _]; [discriminate |].
      destruct (decide (Some "zlib" = Some "zlib")) as [_ | N]; [| congruence].
      rewrite Hz. reflexivity. }
  rewrite Hun.
  destruct (unpack_le32_length (length data) data (le_n _)) as [Hok Hbad].
  split.
  - intros H0. destruct (Hok H0) as (gids & Hg & rest). rewrite Hg. cbn [bind].
    exists gids. split; [reflexivity | exact rest].
  - intros H0. rewrite (Hbad H0). reflexivity.
Qed.

Lemma traverse_Forall2 {A B : Type} (f : A -> result B) (l : list A) (bs : list B) :
  traverse f l = Ok bs <-> Forall2 (fun a b => f a = Ok b) l bs.
Proof.
  revert bs. induction l as [| a l IH]; intros bs; cbn [traverse].
  - split.
    + intros H. inversion H. constructor.
    + intros H. inversion H. reflexivity.
  - split.
    + intros H. destruct (f a) as [b |] eqn:Ea; cbn [bind] in H; [| discriminate].
      destruct (traverse f l) as [bs' |] eqn:El; cbn [bind] in H; [| discriminate].
      inversion H; subst. constructor; [exact Ea | apply IH; reflexivity].
    + intros H. inversion H as [| ? b ? bs' Ha Hl]; subst.
      rewrite Ha. cbn [bind]. apply IH in Hl. rewrite Hl. reflexivity.
Qed.

(** X5. CSV data: the compression attribute is not looked at, and the text
    decodes exactly when every comma-separated field converts with
    [int], to the list of the converted fields in order. *)
Theorem unpack_gids_csv_fields (t : string) (compression : option string)
    (gids : list Z) :
  unpack_gids (Some t) (Some "csv") compression
    = unpack_gids (Some t) (Some "csv") None
  /\ (unpack_gids (Some t) (Some "csv") compression = Ok (Some gids)
      <-> Forall2 (fun field g => py_int field = Some g) (Str.split_on "," t) gids).
Proof.
  assert (Hun : forall c, unpack_gids (Some t) (Some "csv") c
                = (g <- traverse int_ (Str.split_on "," t) ;; Ok (Some g))).
  { intros c. unfold unpack_gids.
    destruct (decide (Some "csv" = Some "base64")) as [E | _]; [discriminate |].
    destruct (decide (Some "csv" = Some "csv")) as [_ | N]; [| congruence].
    reflexivity. }
  split; [rewrite !Hun; reflexivity |].
  rewrite Hun. split.
  - intros H. destruct (traverse int_ (Str.split_on "," t)) as [g |] eqn:E;
      cbn [bind] in H; [| discriminate].
    inversion H; subst g. apply traverse_Forall2 in E.
    eapply Forall2_impl; [exact E |]. intros field v Hv. unfold int_ in Hv.
    destruct (py_int field); inversion Hv; reflexivity.
  - intros H. assert (E : traverse int_ (Str.split_on "," t) = Ok gids).
    { apply traverse_Forall2. eapply Forall2_impl; [exact H |].
      intros field v Hv. unfold int_. rewrite Hv. reflexivity. }
    rewrite E. reflexivity.
Qed.

End WithRuntime.

Lemma unpack_gids_base64_words_witness :
  exists gids,
    @unpack_gids SampleRuntime.sample (Some "AQAAAAIAAIA=") (Some "base64") None
      = Ok (Some gids)
    /\ Z.of_nat (length gids) = 2.
Proof.
  destruct (@unpack_gids_base64_words SampleRuntime.sample "AQAAAAIAAIA=" None
              [x01; x00; x00; x00; x02; x00; x00; x80]
              [x01; x00; x00; x00; x02; x00; x00; x80] eq_refl
              (or_introl (conj eq_refl eq_refl))) as [Hok _].
  destruct (Hok eq_refl) as (gids & Hg & Hl & _).
  exists gids. split; [exact Hg | exact Hl].
Defined.

End DecodingMoreFacts.

(** ** The map's views and queries *)

Module DcViewsFacts.
Import Builtins Dc DcViews DcFacts.

Lemma In_enumerate {A : Type} (l : list A) : forall (start i : Z) (a : A),
  In (i, a) (enumerate l start) <-> start <= i /\ l !! Z.to_nat (i - start) = Some a.
Proof.
  induction l as [| b l IH]; intros start i a; cbn [enumerate In].
  - split; [intros [] | intros [_ H]; rewrite lookup_nil in H; discriminate].
  - rewrite IH. split.
    + intros [E | [Hle Hl]].
      * inversion E; subst. split; [lia |]. rewrite Z.sub_diag. reflexivity.
      * split; [lia |].
        replace (Z.to_nat (i - start)) with (S (Z.to_nat (i - (start + 1)))) by lia.
        exact Hl.
    + intros [Hle Hl]. destruct (Z.eq_dec i start) as [-> | Hne].
      * left. rewrite Z.sub_diag in Hl. change (Z.to_nat 0) with 0%nat in Hl.
        cbn [lookup list_lookup] in Hl. inversion Hl; subst. reflexivity.
      * right. split; [lia |].
        replace (Z.to_nat (i - start)) with (S (Z.to_nat (i - (start + 1)))) in Hl by lia.
        exact Hl.
Qed.

Lemma In_row_tiles (y : Z) (row : list (option Tile.t)) (x y' : Z) (t : Tile.t) :
  In (x, y', t) (row_tiles y row)
  <-> y' = y /\ 0 <= x /\ row !! Z.to_nat x = Some (Some t).
Proof.
  unfold row_tiles. rewrite <- list_elem_of_In, list_elem_of_omap. split.
  - intros ([i c] & Hin & Hc). apply list_elem_of_In, In_enumerate in Hin as [Hle Hl].
    destruct c as [t' |]; [| discriminate]. inversion Hc; subst.
    rewrite Z.sub_0_r in Hl. auto.
  - intros (-> & Hx & Hl). exists (x, Some t). split; [| reflexivity].
    apply list_elem_of_In, In_enumerate. rewrite Z.sub_0_r. auto.
Qed.

Lemma In_tiles (rows : list (list (option Tile.t))) (x y : Z) (t : Tile.t) :
  In (x, y, t) (tiles rows)
  <-> 0 <= x /\ 0 <= y
      /\ exists row, rows !! Z.to_nat y = Some row /\ row !! Z.to_nat x = Some (Some t).
Proof.
  unfold tiles. rewrite in_flat_map. split.
  - intros ([i row] & Hin & Hrow). apply In_enumerate in Hin as [Hle Hl].
    apply In_row_tiles in Hrow as (-> & Hx & Hc). rewrite Z.sub_0_r in Hl.
    split; [exact Hx |]. split; [exact Hle |]. exists row. auto.
  - intros (Hx & Hy & row & Hl & Hc). exists (y, row). split.
    + apply In_enumerate. rewrite Z.sub_0_r. auto.
    + apply In_row_tiles. auto.
Qed.

Lemma list_getitem_nonnegative {A : Type} (l : list A) (k : Z) :
  0 <= k ->
  list_getitem l (PyInt k)
    = match l !! Z.to_nat k with
      | Some a => Ok a
      | None => Raise (IndexError "list index out of range")
      end.
Proof.
  intros Hk. unfold list_getitem.
  destruct (Z.ltb_spec k 0) as [? | _]; [lia |].
  destruct (Z.leb_spec 0 k) as [_ | ?]; [| lia].
  destruct (Z.ltb_spec k (Z.of_nat (length l))) as [Hlt | Hge]; cbn [andb].
  - reflexivity.
  - rewrite lookup_ge_None_2 by lia. reflexivity.
Qed.

(** X16. [TileLayer.tiles] and [Map.get_tile_gid] agree: on a layer whose
    data is a grid, the triples [(x, y, tile)] that [tiles] yields are
    exactly the positions with non-negative coordinates at which
    [get_tile_gid] returns that tile. *)
Theorem tiles_agree_with_get_tile_gid (self : Map.t) (li : Z) (tl : TileLayer.t)
    (rows : list (list (option Tile.t))) (x y : Z) (t : Tile.t) :
  0 <= li ->
  Map.layers self !! Z.to_nat li = Some (LTileLayer tl) ->
  TileLayer.data tl = DataGrid rows ->
  In (x, y, t) (tiles rows)
  <-> 0 <= x /\ 0 <= y
      /\ get_tile_gid self (PyInt x) (PyInt y) (PyInt li) = Ok (CellTile (Some t)).
Proof.
  intros Hli Hlayer Hdata. rewrite In_tiles.
  split; intros (Hx & Hy & H); (split; [exact Hx |]); (split; [exact Hy |]).
  - destruct H as (row & Hrow & Hc).
    unfold get_tile_gid, nonnegative_condition, py_ge0.
    destruct (Z.leb_spec 0 x) as [_ | ?]; [| lia].
    destruct (Z.leb_spec 0 y) as [_ | ?]; [| lia].
    destruct (Z.leb_spec 0 li) as [_ | ?]; [| lia].
    cbn [bind]. rewrite (list_getitem_nonnegative _ li Hli), Hlayer. cbn [bind layer_data_attr].
    rewrite Hdata. cbn [data_getitem2].
    rewrite (list_getitem_nonnegative _ y Hy), Hrow. cbn [bind].
    rewrite (list_getitem_nonnegative _ x Hx), Hc. reflexivity.
  - unfold get_tile_gid, nonnegative_condition, py_ge0 in H.
    destruct (Z.leb_spec 0 x) as [_ | ?]; [| lia].
    destruct (Z.leb_spec 0 y) as [_ | ?]; [| lia].
    destruct (Z.leb_spec 0 li) as [_ | ?]; [| lia].
    cbn [bind] in H. rewrite (list_getitem_nonnegative _ li Hli), Hlayer in H.
    cbn [bind layer_data_attr] in H. rewrite Hdata in H. cbn [data_getitem2] in H.
    rewrite (list_getitem_nonnegative _ y Hy) in H.
    destruct (rows !! Z.to_nat y) as [row |]; cbn [bind] in H; [| discriminate].
    rewrite (list_getitem_nonnegative _ x Hx) in H.
    destruct (row !! Z.to_nat x) as [c |] eqn:Hc; cbn [bind] in H; [| discriminate].
    exists row. split; [reflexivity |]. congruence.
Qed.

Lemma tiles_agree_with_get_tile_gid_witness :
  In (3, 2, Tile.mk None (Some 1) None None None None) (tiles (Samples.grid4 1))
  <-> 0 <= 3 /\ 0 <= 2
      /\ get_tile_gid Samples.two_layer_map (PyInt 3) (PyInt 2) (PyInt 0)
         = Ok (CellTile (Some (Tile.mk None (Some 1) None None None None))).
Proof.
  apply (tiles_agree_with_get_tile_gid Samples.two_layer_map 0
           (Samples.tile_layer "ground" true (Samples.grid4 1)) (Samples.grid4 1)).
  - lia.
  - reflexivity.
  - reflexivity.
Defined.

(** X27. [Map.get_tile_image] looks the result of [get_tile_gid] up in the
    image table: an error of [get_tile_gid] is passed on, a gid is handed
    to [get_tile_image_by_gid], and a cell that is no gid (a tile, [None]
    or a character) is rejected as an index with TypeError.  On the map
    with two layers of gids and three images, cell (0, 0) of layer 0 holds
    gid 1 and the image returned is the second of the table. *)
Theorem get_tile_image_composes (self : Map.t) (x y layer : pyval) :
  (forall e, get_tile_gid self x y layer = Raise e ->
     get_tile_image self x y layer = Raise e)
  /\ (forall g, get_tile_gid self x y layer = Ok (CellGid g) ->
        get_tile_image self x y layer = get_tile_image_by_gid self (PyInt g))
  /\ (forall c, get_tile_gid self x y layer = Ok c ->
        (forall g, c <> CellGid g) ->
        get_tile_image self x y layer = Raise (TypeError GID_NOT_NUMBER_MSG))
  /\ get_tile_image Samples.two_gid_layer_map (PyInt 0) (PyInt 0) (PyInt 0)
       = Ok (Samples.sheet_image 32).
Proof.
  split; [| split; [| split]].
  - intros e E. unfold get_tile_image. rewrite E. reflexivity.
  - intros g E. unfold get_tile_image. rewrite E. reflexivity.
  - intros c E Hc. unfold get_tile_image. rewrite E. cbn [bind].
    destruct c as [[t |] | s | g]; try reflexivity. contradiction (Hc g eq_refl).
  - reflexivity.
Qed.

Lemma In_objectgroups (self : Map.t) (og : ObjectGroup.t) :
  In og (objectgroups self) <-> In (LObjectGroup og) (Map.layers self).
Proof.
  unfold objectgroups. rewrite <- !list_elem_of_In, list_elem_of_omap. split.
  - intros (l & Hl & E). destruct l; try discriminate. congruence.
  - intros H. exists (LObjectGroup og). auto.
Qed.

Lemma find_object_Ok (name : pyval) (objs : list Object.t) (o : Object.t) :
  find_object objs name = Ok o
  <-> exists pre post,
        objs = pre ++ o :: post
        /\ name_eqb (Object.name o) name = true
        /\ Forall (fun o' => name_eqb (Object.name o') name = false) pre.
Proof.
  induction objs as [| a objs IH]; cbn [find_object].
  - split; [discriminate |]. intros (pre & post & E & _). destruct pre; discriminate.
  - destruct (name_eqb (Object.name a) name) eqn:Ea.
    + split.
      * intros [= ->]. exists [], objs. auto.
      * intros ([| b pre] & post & E & Ho & Hpre).
        -- inversion E; subst. reflexivity.
        -- inversion E; subst. apply Forall_cons_1 in Hpre as [Hb _]. congruence.
    + rewrite IH. split.
      * intros (pre & post & -> & Ho & Hpre). exists (a :: pre), post.
        split; [reflexivity |]. split; [exact Ho |]. constructor; assumption.
      * intros ([| b pre] & post & E & Ho & Hpre).
        -- inversion E; subst. congruence.
        -- inversion E; subst. apply Forall_cons_1 in Hpre as [_ Hpre].
           exists pre, post. auto.
Qed.

Lemma find_object_Raise (name : pyval) (objs : list Object.t) (e : exn) :
  find_object objs name = Raise e
  <-> e = ValueError OBJECT_NOT_FOUND_MSG
      /\ Forall (fun o' => name_eqb (Object.name o') name = false) objs.
Proof.
  induction objs as [| a objs IH]; cbn [find_object].
  - split; [intros [= <-]; auto | intros [-> _]; reflexivity].
  - destruct (name_eqb (Object.name a) name) eqn:Ea.
    + split; [discriminate |]. intros [_ H]. apply Forall_cons_1 in H as [H _]. congruence.
    + rewrite IH. split; intros [He H]; (split; [exact He |]).
      * constructor; assumption.
      * apply Forall_cons_1 in H as [_ H]. exact H.
Qed.

(** X18. [Map.get_object_by_name] returns the first object of that name in
    document order, and raises ValueError exactly when no object has the
    name.  The objects searched are those of the object groups that are
    layers of the map itself; objects of groups nested in a group layer
    are not among them. *)
Theorem get_object_by_name_first (self : Map.t) (name : pyval) :
  (forall o, get_object_by_name self name = Ok o
     <-> exists pre post,
           objects self = pre ++ o :: post
           /\ name_eqb (Object.name o) name = true
           /\ Forall (fun o' => name_eqb (Object.name o') name = false) pre)
  /\ (forall e, get_object_by_name self name = Raise e
        <-> e = ValueError OBJECT_NOT_FOUND_MSG
            /\ Forall (fun o' => name_eqb (Object.name o') name = false) (objects self))
  /\ (forall o, In o (objects self)
        <-> exists og, In (LObjectGroup og) (Map.layers self)
                       /\ In o (ObjectGroup.objects og)).
Proof.
  split; [intros o; apply find_object_Ok |].
  split; [intros e; apply find_object_Raise |].
  intros o. unfold objects. rewrite in_concat. split.
  - intros (os & Hos & Ho). apply in_map_iff in Hos as (og & <- & Hog).
    exists og. split; [apply In_objectgroups; exact Hog | exact Ho].
  - intros (og & Hog & Ho). exists (ObjectGroup.objects og). split; [| exact Ho].
    apply in_map_iff. exists og. split; [reflexivity | apply In_objectgroups; exact Hog].
Qed.

(** X19. [Map.visible_tile_layers] and [Map.visible_object_groups] never
    yield an index: the class names they test against are not bound in
    the module, so the first visible layer ends the iteration with
    NameError, and without a visible layer the iteration is empty. *)
Theorem visible_views_yield_nothing (self : Map.t) :
  visible_tile_layers self
    = ([], if existsb layer_visible (Map.layers self)
           then Some (NameError "TiledTileLayer") else None)
  /\ visible_object_groups self
     = ([], if existsb layer_visible (Map.layers self)
            then Some (NameError "TiledObjectGroup") else None).
Proof.
  unfold visible_tile_layers, visible_object_groups.
  rewrite (visible_indices_unbound "TiledTileLayer" (NameError "TiledTileLayer"))
    by reflexivity.
  rewrite (visible_indices_unbound "TiledObjectGroup" (NameError "TiledObjectGroup"))
    by reflexivity.
  rewrite !existsb_enumerate. split; reflexivity.
Qed.

Lemma tile_layers_nil (self : Map.t) :
  tile_layers self = []
  <-> existsb (fun l => isinstance l "TileLayer") (Map.layers self) = false.
Proof.
  unfold tile_layers. induction (Map.layers self) as [| l ls IH]; cbn [omap list_omap existsb].
  - tauto.
  - destruct l; cbn [isinstance class_name]; cbn; try exact IH.
    split; discriminate.
Qed.

(** X20. [Map.tile_properties] never yields a pair: with at least one tile
    layer it raises TypeError at the first one, because it iterates the
    method [tiles] instead of calling it; without tile layers it is
    empty. *)
Theorem tile_properties_yields_nothing (self : Map.t) :
  tile_properties self
    = ([], if existsb (fun l => isinstance l "TileLayer") (Map.layers self)
           then Some (TypeError "'method' object is not iterable") else None).
Proof.
  unfold tile_properties.
  destruct (existsb _ (Map.layers self)) eqn:E.
  - destruct (tile_layers self) as [| tl tls] eqn:Etl.
    + apply tile_layers_nil in Etl. congruence.
    + reflexivity.
  - apply tile_layers_nil in E. rewrite E. reflexivity.
Qed.

End DcViewsFacts.

(** ** The viewer's main loop *)

Module ViewerLoopFacts.
Import Viewer ViewerLoop ViewerFacts.

Lemma handle_event_dirty (self : SimpleTest) (ev : event) :
  dirty (handle_event self ev) = dirty self || is_resize ev.
Proof.
  destruct ev as [| key | w h | t]; cbn [handle_event is_resize dirty].
  - symmetry. apply orb_false_r.
  - destruct (key =? K_ESCAPE); symmetry; apply orb_false_r.
  - symmetry. apply orb_true_r.
  - symmetry. apply orb_false_r.
Qed.

Lemma handle_input_dirty (self : SimpleTest) (queue : list event) :
  dirty (handle_input self queue) = dirty self || existsb is_resize queue.
Proof.
  unfold handle_input. revert self.
  induction queue as [| ev queue IH]; intros self; cbn [fold_left existsb].
  - symmetry. apply orb_false_r.
  - rewrite IH, handle_event_dirty. symmetry. apply orb_assoc.
Qed.

Lemma run_loop_quiet (quiet_frames : list (list event)) :
  Forall (fun q => quiet q = true) quiet_frames ->
  forall (self : SimpleTest) (rest : list (list event)),
    running self = true -> dirty self = true ->
    exists mid,
      running mid = true /\ dirty mid = true
      /\ run_loop self (quiet_frames ++ rest)
         = (fst (run_loop mid rest), (length quiet_frames + snd (run_loop mid rest))%nat)
      /\ run_draws self (quiet_frames ++ rest)
         = replicate (length quiet_frames) true ++ run_draws mid rest.
Proof.
  induction 1 as [| q qs Hq _ IH]; intros self rest Hr Hd.
  - exists self. cbn [app length replicate Nat.add].
    split; [exact Hr |]. split; [exact Hd |]. split; [| reflexivity].
    destruct (run_loop self rest); reflexivity.
  - assert (Hr' : running (handle_input self q) = true).
    { rewrite handle_input_running, Hr. unfold quiet in Hq. rewrite Hq. reflexivity. }
    assert (Hd' : dirty (handle_input self q) = true).
    { rewrite handle_input_dirty, Hd. reflexivity. }
    destruct (IH (handle_input self q) rest Hr' Hd') as (mid & Hmr & Hmd & Hloop & Hdraw).
    exists mid. split; [exact Hmr |]. split; [exact Hmd |].
    cbn [app run_loop run_draws length replicate]. rewrite Hr, Hloop, Hdraw, Hd'.
    split; reflexivity.
Qed.

(** X21. [run] ends with the first frame whose queue holds a QUIT or KEYDOWN
    event: it makes one iteration per frame up to and including that one
    and none after it, leaves [running] cleared and [dirty] set, and,
    because nothing ever clears [dirty], redraws the map in every one of
    its iterations. *)
Theorem run_until_first_stop (self : SimpleTest)
    (quiet_frames : list (list event)) (queue : list event)
    (later : list (list event)) :
  Forall (fun q => quiet q = true) quiet_frames ->
  existsb stops queue = true ->
  exists final,
    run self (quiet_frames ++ queue :: later) = (final, S (length quiet_frames))
    /\ running final = false
    /\ dirty final = true
    /\ run_draws (mkSimpleTest true true) (quiet_frames ++ queue :: later)
       = replicate (S (length quiet_frames)) true.
Proof.
  intros Hquiet Hstop. unfold run.
  destruct (run_loop_quiet quiet_frames Hquiet (mkSimpleTest true true) (queue :: later)
              eq_refl eq_refl) as (mid & Hmr & Hmd & Hloop & Hdraw).
  assert (Hr : running (handle_input mid queue) = false).
  { rewrite handle_input_running, Hstop. apply andb_false_r. }
  assert (Hd : dirty (handle_input mid queue) = true).
  { rewrite handle_input_dirty, Hmd. reflexivity. }
  assert (Hend : run_loop (handle_input mid queue) later = (handle_input mid queue, 0%nat)).
  { destruct later as [| q rest]; cbn [run_loop]; [reflexivity |]. rewrite Hr. reflexivity. }
  assert (Hend' : run_draws (handle_input mid queue) later = []).
  { destruct later as [| q rest]; cbn [run_draws]; [reflexivity |]. rewrite Hr. reflexivity. }
  exists (handle_input mid queue).
  rewrite Hloop, Hdraw. cbn [run_loop run_draws]. rewrite Hmr, Hend, Hend', Hd.
  cbn [fst snd]. split; [f_equal; lia |]. split; [exact Hr |].
  split; [reflexivity |].
  change (true :: []) with (replicate 1 true).
  rewrite <- replicate_add. f_equal. lia.
Qed.

Lemma run_until_first_stop_witness :
  exists final,
    run (mkSimpleTest false false)
      ([[]; [VIDEORESIZE 640 480]] ++ [OtherEvent 4; KEYDOWN 97] :: [[QUIT]])
      = (final, 3%nat)
    /\ running final = false
    /\ dirty final = true
    /\ run_draws (mkSimpleTest true true)
         ([[]; [VIDEORESIZE 640 480]] ++ [OtherEvent 4; KEYDOWN 97] :: [[QUIT]])
       = [true; true; true].
Proof.
  apply (run_until_first_stop (mkSimpleTest false false)
           [[]; [VIDEORESIZE 640 480]] [OtherEvent 4; KEYDOWN 97] [[QUIT]]).
  - repeat constructor.
  - reflexivity.
Defined.

End ViewerLoopFacts.

(** ** Documents the parser accepts *)

Module DocumentFacts.
Import Builtins Dc Mason Document ParserFacts.

Section WithRuntime.
Context {RT : Runtime}.
Variable parse : Context.t -> string -> result (Context.t * list obj).

Lemma end_known ctx path p c r :
  end_ ctx path p c = Ok r ->
  is_reducer_path path = true /\ String.eqb path "Data.Tile" = false.
Proof.
  intros H. split.
  - destruct (is_reducer_path path) eqn:E; [reflexivity |].
    rewrite end_unknown in H by exact E. discriminate H.
  - destruct (String.eqb path "Data.Tile") eqn:E; [| reflexivity].
    unfold end_ in H. rewrite E in H. discriminate H.
Qed.

Lemma children_conform cs : forall name,
  Forall (fun c => forall ctx tk below ys st',
            run_events parse (ctx, tk :: below, ys) (events_of c) = Ok st' ->
            conforms (Token.type tk) c = true) cs ->
  forall ctx tk below ys st',
    Token.type tk = name ->
    run_events parse (ctx, tk :: below, ys) (flat_map events_of cs) = Ok st' ->
    forallb (conforms name) cs = true.
Proof.
  intros name. induction 1 as [| c cs Hc _ IH]; intros ctx tk below ys st' Htk Hrun.
  - reflexivity.
  - apply run_children_inv in Hrun as (st1 & H1 & H2).
    cbn [forallb]. rewrite <- Htk at 1. rewrite (Hc _ _ _ _ _ H1). cbn [andb].
    destruct (element_frame parse c _ _ _ _ _ H1) as (ctx1 & tk1 & ys1 & -> & Ht1).
    apply (IH ctx1 tk1 below ys1 st'); [congruence | exact H2].
Qed.

Lemma element_conforms e : forall ctx tk below ys st',
  run_events parse (ctx, tk :: below, ys) (events_of e) = Ok st' ->
  conforms (Token.type tk) e = true.
Proof.
  induction e as [tag a t cs IH] using element_children_ind.
  intros ctx tk below ys st' Hrun.
  apply run_element_shape in Hrun
    as (ctx1 & o & ctx2 & tkc & ys2 & ctx3 & p' & c' & Hs & Hcs & Htc & He & ->).
  apply end_known in He as [Hp Hd].
  cbn [conforms]. rewrite Hp, Hd. cbn [negb andb].
  eapply (children_conform cs (Str.title tag) IH); [| exact Hcs]. reflexivity.
Qed.

Lemma root_conforms e ctx st' :
  run_events parse (ctx, [], []) (events_of e) = Ok st' -> conforms_root e = true.
Proof.
  destruct e as [tag a t cs]. intros Hrun.
  apply run_element_inv in Hrun as (st1 & st2 & H1 & H2 & H3).
  apply step_start_inv in H1 as (ctx1 & o & Hs & ->).
  assert (Hcs : forallb (conforms (Str.title tag)) cs = true).
  { eapply (children_conform cs (Str.title tag)); [| | exact H2]; [| reflexivity].
    apply List.Forall_forall. intros c _. apply element_conforms. }
  destruct (run_children_frame parse cs _ _ _ _ _ H2) as (ctx2 & tk2 & ys2 & -> & Ht2).
  apply step_end_root_inv in H3 as (ctx3 & p' & c' & He & ->).
  apply end_known in He as [Hp _]. cbn [Token.type] in Ht2. rewrite Ht2 in Hp.
  cbn [conforms_root]. rewrite Hp, Hcs. reflexivity.
Qed.

Lemma root_name tag a t cs ctx st' :
  run_events parse (ctx, [], []) (events_of (Element tag a t cs)) = Ok st' ->
  Str.title tag = "Map" \/ Str.title tag = "Tileset".
Proof.
  intros Hrun. pose proof (root_conforms _ _ _ Hrun) as Hc.
  apply run_element_inv in Hrun as (st1 & _ & H1 & _).
  apply step_start_inv in H1 as (ctx1 & o & Hs & _).
  apply start_known in Hs. cbn [conforms_root] in Hc. apply andb_prop in Hc as [Hc _].
  revert Hc. generalize (Str.title tag) Hs. clear. intros name Hs.
  each_name Hs; first [ (intros _; left; reflexivity) | (intros _; right; reflexivity)
                      | (intros Hc; discriminate Hc) ].
Qed.

(** *** One object per element *)

Lemma step_yields st ev ctx' stack' ys' :
  step parse st ev = Ok (ctx', stack', ys') ->
  exists zs, ys' = snd st ++ zs
    /\ length zs = match ev_kind ev with EvStart => 0%nat | EvEnd => 1%nat end.
Proof.
  destruct st as [[ctx stack] ys]. unfold step. cbn [snd].
  destruct (ev_kind ev).
  - intros H. apply bind_Ok in H as (r & _ & H). inversion H; subst.
    exists []. rewrite app_nil_r. auto.
  - destruct stack as [| tk [| parent below]]; [discriminate | |].
    + intros H. apply bind_Ok in H as ([[c1 p1] ch] & _ & H). inversion H; subst.
      exists [ch]. auto.
    + intros H. apply bind_Ok in H as ([[c1 p1] ch] & _ & H). inversion H; subst.
      exists [ch]. auto.
Qed.

Lemma children_yield cs :
  Forall (fun c => forall st ctx' stack' ys',
            run_events parse st (events_of c) = Ok (ctx', stack', ys') ->
            exists zs, ys' = snd st ++ zs /\ length zs = size c) cs ->
  forall st ctx' stack' ys',
    run_events parse st (flat_map events_of cs) = Ok (ctx', stack', ys') ->
    exists zs, ys' = snd st ++ zs /\ length zs = list_sum (map size cs).
Proof.
  induction 1 as [| c cs Hc _ IH]; intros st ctx' stack' ys' Hrun.
  - cbn in Hrun. inversion Hrun; subst. exists []. rewrite app_nil_r. auto.
  - apply run_children_inv in Hrun as ([[ctx1 stack1] ys1] & H1 & H2).
    destruct (Hc _ _ _ _ H1) as (zs1 & -> & Hl1).
    destruct (IH _ _ _ _ H2) as (zs2 & -> & Hl2). cbn [snd].
    exists (zs1 ++ zs2). rewrite app_assoc, length_app.
    change (list_sum (map size (c :: cs))) with (size c + list_sum (map size cs))%nat.
    split; [reflexivity | lia].
Qed.

Lemma element_yields e : forall st ctx' stack' ys',
  run_events parse st (events_of e) = Ok (ctx', stack', ys') ->
  exists zs, ys' = snd st ++ zs /\ length zs = size e.
Proof.
  induction e as [tag a t cs IH] using element_children_ind.
  intros st ctx' stack' ys' Hrun.
  apply run_element_inv in Hrun as ([[ctx1 stack1] ys1] & [[ctx2 stack2] ys2] & H1 & H2 & H3).
  apply step_yields in H1 as (zs1 & -> & Hl1).
  apply (children_yield cs IH) in H2 as (zs2 & -> & Hl2).
  apply step_yields in H3 as (zs3 & -> & Hl3).
  cbn [snd ev_kind] in *. exists (zs1 ++ zs2 ++ zs3).
  rewrite <- !app_assoc. split; [reflexivity |].
  rewrite !length_app. change (size (Element tag a t cs)) with (S (list_sum (map size cs))).
  lia.
Qed.

(** *** Maps come out without images *)

(** What no reducer does: change the context's path (or, the two
    cache-filling reducers apart, the context at all), give a map images
    or another file name, or change class, name or visibility of a
    parent layer, the name of a parent object or the id of a parent tile. *)
Lemma end_keeps path0 ctx path p c ctx' p' c' :
  end_ ctx path p c = Ok (ctx', p', c') ->
  Context.path ctx' = Context.path ctx
  /\ (path <> "Tileset.Image" -> path <> "Tileset.Tile" -> ctx' = ctx)
  /\ (without_images path0 c -> without_images path0 c')
  /\ forall q, p = Some q ->
       (without_images path0 q -> without_images path0 (default q p'))
       /\ obj_layer_info (default q p') = obj_layer_info q
       /\ object_name_of (default q p') = object_name_of q
       /\ tile_id_of (default q p') = tile_id_of q.
Proof.
  unfold end_, bind, not_none, without_images. intros H.
  repeat case_match; simplify_eq; cbn [default].
  all: split; [reflexivity |].
  all: split;
    [ first [ (intros _ _; reflexivity)
            | (intros N1 N2;
               match goal with
               | E : String.eqb _ _ = true |- _ => apply String.eqb_eq in E; congruence
               end) ] |].
  all: split;
    [ first [ (intros Hc; exact Hc)
            | (intros Hc m' Hm'; inversion Hm'; subst; exact (Hc _ eq_refl)) ] |].
  all: intros q Hq; inversion Hq; subst; cbn [default].
  all: split; [| split; [| split]; reflexivity].
  all: first [ (intros Hp; exact Hp)
             | (intros Hp m' Hm'; try discriminate Hm'; inversion Hm'; subst;
                exact (Hp _ eq_refl)) ].
Qed.

Lemma children_preserve (Q : obj -> Prop) :
  (forall ctx path p c ctx' p' c',
     end_ ctx path (Some p) c = Ok (ctx', p', c') -> Q p -> Q (default p p')) ->
  forall cs ctx tk below ys ctx' tk' stack' ys',
    run_events parse (ctx, tk :: below, ys) (flat_map events_of cs)
      = Ok (ctx', tk' :: stack', ys') ->
    Q (Token.obj tk) -> Q (Token.obj tk').
Proof.
  intros HQ. induction cs as [| c cs IH]; intros ctx tk below ys ctx' tk' stack' ys' Hrun Hq.
  - cbn in Hrun. inversion Hrun; subst. exact Hq.
  - apply run_children_inv in Hrun as (st1 & H1 & H2). destruct c as [tag a t ccs].
    apply run_element_shape in H1
      as (ctx1 & o & ctx2 & tkc & ys2 & ctx3 & p' & c' & Hs & Hcs & Htc & He & ->).
    apply (IH _ _ _ _ _ _ _ _ H2). cbn [Token_set_obj Token.obj].
    apply (HQ _ _ _ _ _ _ _ He Hq).
Qed.

Lemma start_path ctx name a t ctx' o :
  (forall c p c' ys, parse c p = Ok (c', ys) -> Context.path c' = Context.path c) ->
  start parse ctx name a t = Ok (ctx', o) -> Context.path ctx' = Context.path ctx.
Proof.
  intros Hp H. destruct (String.eqb_spec name "Tileset") as [-> | Hn].
  - unfold start in H. cbn [String.eqb Ascii.eqb Bool.eqb] in H.
    apply bind_Ok in H as (g & _ & H).
    fold (pending_firstgid ctx g) in H.
    assert (Hpend : Context.path (pending_firstgid ctx g) = Context.path ctx).
    { unfold pending_firstgid. destruct (truthy_int g); reflexivity. }
    destruct (truthy_str (get a "source")).
    + apply bind_Ok in H as ([c' ys] & Hr & H). apply Hp in Hr.
      destruct (last (snd (c', ys))); inversion H; subst. cbn [fst]. congruence.
    + unfold bind, rmap in H. repeat case_match; simplify_eq; exact Hpend.
  - apply (start_ctx parse) in H; [| exact Hn]. subst. reflexivity.
Qed.

Lemma start_without_images ctx name a t ctx' o :
  parse_without_images parse ->
  start parse ctx name a t = Ok (ctx', o) -> without_images (Context.path ctx) o.
Proof.
  intros Hp H. destruct (String.eqb_spec name "Tileset") as [-> | Hn].
  - unfold start in H. cbn [String.eqb Ascii.eqb Bool.eqb] in H.
    apply bind_Ok in H as (g & _ & H).
    fold (pending_firstgid ctx g) in H.
    assert (Hpend : Context.path (pending_firstgid ctx g) = Context.path ctx).
    { unfold pending_firstgid. destruct (truthy_int g); reflexivity. }
    destruct (truthy_str (get a "source")).
    + apply bind_Ok in H as ([c' ys] & Hr & H). apply Hp in Hr as [_ Hr].
      cbn [snd fst] in H. destruct (last ys) as [o' |]; inversion H; subst.
      rewrite <- Hpend. apply Hr. reflexivity.
    + unfold bind, rmap in H. repeat case_match; simplify_eq; intros m Hm; discriminate Hm.
  - unfold start, bind, rmap in H. unfold without_images.
    repeat case_match; simplify_eq; intros m Hm; try discriminate Hm.
    + inversion Hm; subst. split; reflexivity.
    + exfalso. apply Hn. apply String.eqb_eq. assumption.
    + exfalso. apply Hn. apply String.eqb_eq. assumption.
Qed.

Lemma root_without_images tag a t cs ctx ctx' stack' ys' :
  parse_without_images parse ->
  run_events parse (ctx, [], []) (events_of (Element tag a t cs)) = Ok (ctx', stack', ys') ->
  Context.path ctx' = Context.path ctx
  /\ forall o, last ys' = Some o -> without_images (Context.path ctx) o.
Proof.
  intros Hp Hrun.
  assert (Hpath : forall c p c' ys, parse c p = Ok (c', ys) ->
            Context.path c' = Context.path c).
  { intros c p c' ys E. apply (Hp c p c' ys E). }
  assert (Hall : forall evs st st',
            run_events parse st evs = Ok st' ->
            Context.path (fst (fst st')) = Context.path (fst (fst st))).
  { induction evs as [| ev evs IH]; intros st st' E; cbn [run_events] in E.
    - inversion E; subst. reflexivity.
    - apply bind_Ok in E as (st1 & E1 & E2). rewrite (IH _ _ E2).
      destruct st as [[c stack] ys]. unfold step in E1. destruct (ev_kind ev).
      + apply bind_Ok in E1 as ([c1 o1] & Es & E1). inversion E1; subst.
        cbn [fst]. apply (start_path _ _ _ _ _ _ Hpath Es).
      + destruct stack as [| tk [| parent below]]; [discriminate | |];
          apply bind_Ok in E1 as ([[c1 p1] ch] & Ee & E1); inversion E1; subst;
          cbn [fst]; apply (end_keeps EmptyString) in Ee as [Ee _]; exact Ee. }
  split; [apply (Hall _ _ _ Hrun) |].
  apply run_element_inv in Hrun as (st1 & st2 & H1 & H2 & H3).
  apply step_start_inv in H1 as (ctx1 & o & Hs & ->).
  destruct (run_children_frame parse cs _ _ _ _ _ H2) as (ctx2 & tk2 & ys2 & -> & Ht2).
  assert (Hq : without_images (Context.path ctx) (Token.obj tk2)).
  { apply (children_preserve (without_images (Context.path ctx))) with (2 := H2).
    - intros c0 path0 p c c0' p' c' He Hq.
      apply (end_keeps (Context.path ctx)) in He as (_ & _ & _ & He).
      apply (He p eq_refl). exact Hq.
    - cbn [Token.obj]. apply (start_without_images _ _ _ _ _ _ Hp Hs). }
  apply step_end_root_inv in H3 as (ctx3 & p' & c' & He & E). inversion E; subst.
  intros o' Ho'. rewrite last_snoc in Ho'. inversion Ho'; subst.
  apply (end_keeps (Context.path ctx)) in He as (_ & _ & He & _). apply He. exact Hq.
Qed.

End WithRuntime.

Section Loading.
Context {RT : Runtime}.

Lemma iter_tmx_without_images (depth : nat) : parse_without_images (iter_tmx depth).
Proof.
  induction depth as [| depth IH]; intros ctx p ctx' ys H; cbn [iter_tmx] in H.
  - discriminate H.
  - destruct (iterparse p) as [[tag a t cs] |]; [| discriminate H].
    apply bind_Ok in H as ([[c1 stack1] ys1] & Hrun & H). inversion H; subst.
    cbn [fst snd]. apply (root_without_images (iter_tmx depth) _ _ _ _ _ _ _ _ IH Hrun).
Qed.

(** Nothing the parser does fills the image table of a map. *)
Lemma load_tmx_images_nil (depth : nat) (path : string) (m : Map.t) :
  load_tmx depth path = Ok (OMap m) -> Map.images m = [].
Proof.
  unfold load_tmx. intros H. apply bind_Ok in H as ([ctx' ys] & Hit & H).
  cbn [snd] in H. destruct (last ys) as [o |] eqn:Hlast; inversion H; subst.
  apply iter_tmx_without_images in Hit as [_ Hit].
  destruct (Hit _ Hlast m eq_refl) as [Hi _]. exact Hi.
Qed.

(** X8. A document is loaded only if it is in the parser's grammar: the root
    is a [map] or a [tileset], and every other element stands under a
    parent the reducer table pairs it with. *)
Theorem load_tmx_conforms (depth : nat) (path : string) (o : obj) :
  load_tmx depth path = Ok o ->
  exists root,
    iterparse path = Some root
    /\ conforms_root root = true
    /\ (name_of root = "Map" \/ name_of root = "Tileset").
Proof.
  unfold load_tmx. intros H. apply bind_Ok in H as ([ctx' ys] & Hit & _).
  destruct depth as [| depth]; cbn [iter_tmx] in Hit; [discriminate Hit |].
  destruct (iterparse path) as [root |]; [| discriminate Hit].
  apply bind_Ok in Hit as (st & Hrun & _).
  exists root. split; [reflexivity |].
  split; [apply (root_conforms _ _ _ _ Hrun) |].
  destruct root as [tag a t cs]. apply (root_name _ _ _ _ _ _ _ Hrun).
Qed.

(** X9. Listing [iter_tmx] gives one object for every element of the
    document, so the list is never empty and [load_tmx] never fails for
    want of a last item. *)
Theorem iter_tmx_yields_one_per_element (depth : nat) (ctx ctx' : Context.t)
    (path : string) (ys : list obj) :
  iter_tmx depth ctx path = Ok (ctx', ys) ->
  exists root,
    iterparse path = Some root
    /\ length ys = size root
    /\ is_Some (last ys).
Proof.
  intros H. destruct depth as [| depth]; cbn [iter_tmx] in H; [discriminate H |].
  destruct (iterparse path) as [root |]; [| discriminate H].
  apply bind_Ok in H as ([[c1 stack1] ys1] & Hrun & H). inversion H; subst.
  cbn [fst snd]. exists root. split; [reflexivity |].
  apply element_yields in Hrun as (zs & -> & Hl). cbn [snd app].
  split; [exact Hl |].
  destruct root as [tag a t cs]. destruct zs as [| z zs] using rev_ind.
  - discriminate Hl.
  - rewrite last_snoc. eauto.
Qed.


End Loading.

Lemma load_tmx_conforms_witness :
  exists root,
    @iterparse SampleRuntime.sample "maps/town.tmx" = Some root
    /\ conforms_root root = true
    /\ (name_of root = "Map" \/ name_of root = "Tileset").
Proof.
  destruct (@load_tmx SampleRuntime.sample 2 "maps/town.tmx") as [o | e] eqn:E;
    [| vm_compute in E; discriminate E].
  apply (@load_tmx_conforms SampleRuntime.sample 2 "maps/town.tmx" o E).
Defined.

Lemma iter_tmx_yields_one_per_element_witness :
  exists ctx' ys,
    @iter_tmx SampleRuntime.sample 2 SampleRuntime.town_context "maps/town.tmx"
      = Ok (ctx', ys)
    /\ length ys = size SampleRuntime.town_tmx
    /\ is_Some (last ys).
Proof.
  destruct (@iter_tmx SampleRuntime.sample 2 SampleRuntime.town_context "maps/town.tmx")
    as [[ctx' ys] | e] eqn:E; [| vm_compute in E; discriminate E].
  exists ctx', ys. split; [reflexivity |].
  destruct (@iter_tmx_yields_one_per_element SampleRuntime.sample 2
              SampleRuntime.town_context ctx' "maps/town.tmx" ys E)
    as (root & Hroot & Hlen & Hlast).
  split; [| exact Hlast].
  assert (Hfile : @iterparse SampleRuntime.sample "maps/town.tmx"
                  = Some SampleRuntime.town_tmx) by (vm_compute; reflexivity).
  rewrite Hfile in Hroot. inversion Hroot; subst root. exact Hlen.
Defined.


End DocumentFacts.

(** ** What a loaded map holds *)

Module LayerFacts.
Import Builtins Dc Mason Document ParserFacts DocumentFacts.

Section WithRuntime.
Context {RT : Runtime}.
Variable parse : Context.t -> string -> result (Context.t * list obj).

(** *** The layers of a map *)

Lemma start_layer_info ctx tag a t cs ctx1 o :
  start parse ctx (Str.title tag) a t = Ok (ctx1, o) ->
  is_Some (declared_layer (Element tag a t cs)) ->
  obj_layer_info o = declared_layer (Element tag a t cs).
Proof.
  unfold declared_layer. intros Hs [info Hinfo].
  destruct (String.eqb_spec (Str.title tag) "Layer") as [E | _];
    [| destruct (String.eqb_spec (Str.title tag) "Objectgroup") as [E | _];
       [| destruct (String.eqb_spec (Str.title tag) "Group") as [E | _];
          [| destruct (String.eqb_spec (Str.title tag) "Imagelayer") as [E | _];
             [| discriminate Hinfo]]]];
    rewrite E in Hs; unfold start in Hs; cbn [String.eqb Ascii.eqb Bool.eqb] in Hs;
    unfold get_or, get_as, get, bool_, bind, rmap in Hs;
    repeat case_match; simplify_eq; reflexivity.
Qed.

Lemma child_layer_info tag a t cs ctx tk below ys ctx1 o ctx2 tkc stack2 ys2 :
  start parse ctx (Str.title tag) a t = Ok (ctx1, o) ->
  run_events parse (ctx1, Token.mk (Str.title tag) a t o :: tk :: below, ys)
    (flat_map events_of cs) = Ok (ctx2, tkc :: stack2, ys2) ->
  is_Some (declared_layer (Element tag a t cs)) ->
  obj_layer_info (Token.obj tkc) = declared_layer (Element tag a t cs).
Proof.
  intros Hs Hcs Hd. rewrite <- (start_layer_info _ _ _ _ cs _ _ Hs Hd).
  apply (children_preserve parse (fun x => obj_layer_info x = obj_layer_info o))
    with (2 := Hcs); [| reflexivity].
  intros c0 path0 p c c0' p' c' He Hq.
  apply (end_keeps EmptyString) in He as (_ & _ & _ & He).
  destruct (He p eq_refl) as (_ & Hi & _). congruence.
Qed.

Lemma map_child c ctx tk below ys ctx' stack' ys' m :
  Token.type tk = "Map" -> Token.obj tk = OMap m ->
  run_events parse (ctx, tk :: below, ys) (events_of c) = Ok (ctx', stack', ys') ->
  exists tk' m',
    stack' = tk' :: below /\ Token.type tk' = "Map" /\ Token.obj tk' = OMap m'
    /\ map layer_info (Map.layers m')
       = map layer_info (Map.layers m) ++ option_list (declared_layer c)
    /\ length (Map.tilesets m')
       = (length (Map.tilesets m) + if is_tileset c then 1 else 0)%nat.
Proof.
  intros Hty Hobj H. destruct c as [tag a t cs].
  apply run_element_shape in H
    as (ctx1 & o & ctx2 & tkc & ys2 & ctx3 & p' & c' & Hs & Hc & Ht & He & Hst).
  inversion Hst; subst ctx' stack' ys'; clear Hst.
  pose proof (child_layer_info _ _ _ _ _ _ _ _ _ _ _ _ _ _ Hs Hc) as Hinfo.
  rewrite Hty, Hobj in He.
  pose proof (start_known _ _ _ _ _ _ Hs) as Hname.
  unfold is_tileset, name_of. unfold declared_layer in *.
  remember (Str.title tag) as name eqn:En. clear En Hs Hc Ht.
  each_name Hname; try dead_path (@end_unknown RT) He.
  all: unfold end_ in He; cbn [String.eqb Ascii.eqb Bool.eqb] in He;
    cbn [String.eqb Ascii.eqb Bool.eqb] in Hinfo |- *;
    destruct (Token.obj tkc) eqn:Eo; try discriminate He;
    inversion He; subst ctx3 p' c'; clear He;
    eexists _, _; (split; [reflexivity |]); (split; [exact Hty |]);
    (split; [reflexivity |]); cbn [default Token_set_obj Token.obj].
  - (* Group *)
    specialize (Hinfo ltac:(eauto)). cbn in Hinfo. inversion Hinfo.
    cbn. rewrite map_app. cbn. split; [reflexivity | lia].
  - (* Imagelayer *)
    specialize (Hinfo ltac:(eauto)). cbn in Hinfo. inversion Hinfo.
    cbn. rewrite map_app. cbn. split; [reflexivity | lia].
  - (* Layer *)
    specialize (Hinfo ltac:(eauto)). cbn in Hinfo. inversion Hinfo.
    cbn. rewrite map_app. cbn. split; [reflexivity | lia].
  - (* Objectgroup *)
    specialize (Hinfo ltac:(eauto)). cbn in Hinfo. inversion Hinfo.
    cbn. rewrite map_app. cbn. split; [reflexivity | lia].
  - (* Properties *)
    cbn. rewrite app_nil_r. split; [reflexivity | lia].
  - (* Tileset *)
    cbn. rewrite app_nil_r, length_app. split; [reflexivity | cbn; lia].
Qed.

Lemma map_child_properties c ctx tk below ys ctx' stack' ys' m :
  Token.type tk = "Map" -> Token.obj tk = OMap m ->
  run_events parse (ctx, tk :: below, ys) (events_of c) = Ok (ctx', stack', ys') ->
  exists tk' m',
    stack' = tk' :: below /\ Token.type tk' = "Map" /\ Token.obj tk' = OMap m'
    /\ Map.properties m' = map_properties_effect (Map.properties m) c.
Proof.
  intros Hty Hobj H. destruct c as [tag a t cs].
  apply run_element_shape in H
    as (ctx1 & o & ctx2 & tkc & ys2 & ctx3 & p' & c' & Hs & Hc & Ht & He & Hst).
  inversion Hst; subst ctx' stack' ys'; clear Hst.
  rewrite Hty, Hobj in He.
  pose proof (start_known _ _ _ _ _ _ Hs) as Hname.
  unfold map_properties_effect, name_of, children_of.
  remember (Str.title tag) as name eqn:En. clear En Ht.
  each_name Hname; try dead_path (@end_unknown RT) He.
  5: { (* Properties *)
    unfold start in Hs. cbn [String.eqb Ascii.eqb Bool.eqb] in Hs.
    inversion Hs; subst ctx1 o; clear Hs.
    eapply (property_children parse cs) in Hc; [| reflexivity | reflexivity].
    destruct Hc as (tk' & Hstack & Hty' & Hobj').
    inversion Hstack; subst tk'; clear Hstack.
    rewrite Hobj' in He. unfold end_ in He. cbn [String.eqb Ascii.eqb Bool.eqb] in He.
    inversion He; subst ctx3 p' c'; clear He.
    eexists _, _. split; [reflexivity |]. split; [exact Hty |]. split; reflexivity. }
  all: clear Hs Hc; unfold end_ in He; cbn [String.eqb Ascii.eqb Bool.eqb] in He;
    cbn [String.eqb Ascii.eqb Bool.eqb];
    destruct (Token.obj tkc) eqn:Eo; try discriminate He;
    inversion He; subst ctx3 p' c'; clear He;
    eexists _, _; (split; [reflexivity |]); (split; [exact Hty |]);
    split; reflexivity.
Qed.

Lemma map_children_properties cs : forall ctx tk below ys ctx' stack' ys' m,
  Token.type tk = "Map" -> Token.obj tk = OMap m ->
  run_events parse (ctx, tk :: below, ys) (flat_map events_of cs)
    = Ok (ctx', stack', ys') ->
  exists tk' m',
    stack' = tk' :: below /\ Token.type tk' = "Map" /\ Token.obj tk' = OMap m'
    /\ Map.properties m' = fold_left map_properties_effect cs (Map.properties m).
Proof.
  induction cs as [| c cs IH]; intros ctx tk below ys ctx' stack' ys' m Hty Hobj H.
  - cbn in H. inversion H; subst. exists tk, m. auto.
  - apply run_children_inv in H as ([[ctx1 stack1] ys1] & H1 & H2).
    apply (map_child_properties c _ _ _ _ _ _ _ m Hty Hobj) in H1
      as (tk1 & m1 & -> & Hty1 & Hobj1 & Hp1).
    apply (IH _ _ _ _ _ _ _ _ Hty1 Hobj1) in H2
      as (tk2 & m2 & -> & Hty2 & Hobj2 & Hp2).
    exists tk2, m2. split; [reflexivity |]. split; [exact Hty2 |]. split; [exact Hobj2 |].
    rewrite Hp2, Hp1. reflexivity.
Qed.

Lemma map_root_properties tag a t cs ctx st' :
  Str.title tag = "Map" ->
  run_events parse (ctx, [], []) (events_of (Element tag a t cs)) = Ok st' ->
  exists m,
    last (snd st') = Some (OMap m)
    /\ Map.properties m = fold_left map_properties_effect cs ∅.
Proof.
  intros Htag H.
  apply run_element_inv in H as (st1 & st2 & H1 & H2 & H3).
  apply step_start_inv in H1 as (ctx1 & o & Hs & ->).
  rewrite Htag in *.
  assert (Ho : exists m0, o = OMap m0 /\ Map.properties m0 = ∅).
  { unfold start in Hs. cbn [String.eqb Ascii.eqb Bool.eqb] in Hs.
    unfold bind in Hs. repeat case_match; simplify_eq. eexists. eauto. }
  destruct Ho as (m0 & -> & Hp0).
  destruct st2 as [[ctx2 stack2] ys2].
  eapply (map_children_properties cs) in H2; [| reflexivity | reflexivity].
  destruct H2 as (tk2 & m2 & -> & Hty2 & Hobj2 & Hp2).
  apply step_end_root_inv in H3 as (ctx3 & p' & c' & He & ->).
  rewrite Hty2, Hobj2 in He. unfold end_ in He.
  cbn [String.eqb Ascii.eqb Bool.eqb] in He.
  apply bind_Ok in He as (layers' & Hres & He). inversion He; subst ctx3 p' c'; clear He.
  exists (Map_set_layers m2 layers'). cbn [snd].
  split; [apply last_snoc |]. cbn [Map_set_layers Map_update Map.properties].
  rewrite Hp2, Hp0. reflexivity.
Qed.

(** *** The objects of a map *)

Lemma objectgroup_child c ctx tk below ys ctx' stack' ys' g :
  Token.type tk = "Objectgroup" -> Token.obj tk = OObjectGroup g ->
  run_events parse (ctx, tk :: below, ys) (events_of c) = Ok (ctx', stack', ys') ->
  exists tk' g',
    stack' = tk' :: below /\ Token.type tk' = "Objectgroup"
    /\ Token.obj tk' = OObjectGroup g'
    /\ map Object.name (ObjectGroup.objects g')
       = map Object.name (ObjectGroup.objects g) ++ [attrib_of c !! "name"].
Proof.
  intros Hty Hobj H. destruct c as [tag a t cs].
  apply run_element_shape in H
    as (ctx1 & o & ctx2 & tkc & ys2 & ctx3 & p' & c' & Hs & Hc & Ht & He & Hst).
  inversion Hst; subst ctx' stack' ys'; clear Hst.
  rewrite Hty, Hobj in He.
  pose proof (start_known _ _ _ _ _ _ Hs) as Hname.
  assert (Hkeep : object_name_of (Token.obj tkc) = object_name_of o).
  { apply (children_preserve parse (fun x => object_name_of x = object_name_of o))
      with (2 := Hc); [| reflexivity].
    intros c0 path0 p c c0' q' c1 He' Hq.
    apply (end_keeps EmptyString) in He' as (_ & _ & _ & He').
    destruct (He' p eq_refl) as (_ & _ & Hn & _). congruence. }
  remember (Str.title tag) as name eqn:En. clear En Ht Hc.
  each_name Hname; try dead_path (@end_unknown RT) He.
  unfold start, bind, rmap in Hs. cbn [String.eqb Ascii.eqb Bool.eqb] in Hs.
  assert (Ho : object_name_of o = Some (a !! "name")).
  { repeat case_match; simplify_eq; reflexivity. }
  clear Hs. rewrite Ho in Hkeep.
  unfold end_ in He. cbn [String.eqb Ascii.eqb Bool.eqb] in He.
  destruct (Token.obj tkc) as [| | | | | | | | ob | | | | | | | | |] eqn:Eo;
    try discriminate He.
  inversion He; subst ctx3 p' c'; clear He.
  cbn [object_name_of] in Hkeep. inversion Hkeep as [Hn].
  eexists _, _. split; [reflexivity |]. split; [exact Hty |]. split; [reflexivity |].
  cbn [ObjectGroup_append ObjectGroup.objects attrib_of]. rewrite map_app.
  cbn [map]. rewrite Hn. reflexivity.
Qed.

Lemma objectgroup_children cs : forall ctx tk below ys ctx' stack' ys' g,
  Token.type tk = "Objectgroup" -> Token.obj tk = OObjectGroup g ->
  run_events parse (ctx, tk :: below, ys) (flat_map events_of cs)
    = Ok (ctx', stack', ys') ->
  exists tk' g',
    stack' = tk' :: below /\ Token.type tk' = "Objectgroup"
    /\ Token.obj tk' = OObjectGroup g'
    /\ map Object.name (ObjectGroup.objects g')
       = map Object.name (ObjectGroup.objects g)
         ++ map (fun o => attrib_of o !! "name") cs.
Proof.
  induction cs as [| c cs IH]; intros ctx tk below ys ctx' stack' ys' g Hty Hobj H.
  - cbn in H. inversion H; subst. exists tk, g. cbn [map]. rewrite app_nil_r. auto.
  - apply run_children_inv in H as ([[ctx1 stack1] ys1] & H1 & H2).
    apply (objectgroup_child c _ _ _ _ _ _ _ g Hty Hobj) in H1
      as (tk1 & g1 & -> & Hty1 & Hobj1 & Hn1).
    apply (IH _ _ _ _ _ _ _ _ Hty1 Hobj1) in H2
      as (tk2 & g2 & -> & Hty2 & Hobj2 & Hn2).
    exists tk2, g2. split; [reflexivity |]. split; [exact Hty2 |]. split; [exact Hobj2 |].
    rewrite Hn2, Hn1. cbn [map]. rewrite <- app_assoc. reflexivity.
Qed.

Lemma map_child_objects c ctx tk below ys ctx' stack' ys' m :
  Token.type tk = "Map" -> Token.obj tk = OMap m ->
  run_events parse (ctx, tk :: below, ys) (events_of c) = Ok (ctx', stack', ys') ->
  exists tk' m',
    stack' = tk' :: below /\ Token.type tk' = "Map" /\ Token.obj tk' = OMap m'
    /\ flat_map layer_object_names (Map.layers m')
       = flat_map layer_object_names (Map.layers m) ++ declared_object_names c.
Proof.
  intros Hty Hobj H. destruct c as [tag a t cs].
  apply run_element_shape in H
    as (ctx1 & o & ctx2 & tkc & ys2 & ctx3 & p' & c' & Hs & Hc & Ht & He & Hst).
  inversion Hst; subst ctx' stack' ys'; clear Hst.
  rewrite Hty, Hobj in He.
  pose proof (start_known _ _ _ _ _ _ Hs) as Hname.
  unfold declared_object_names, name_of, children_of.
  remember (Str.title tag) as name eqn:En. clear En Ht.
  each_name Hname; try dead_path (@end_unknown RT) He.
  4: { (* Objectgroup *)
    unfold start in Hs. cbn [String.eqb Ascii.eqb Bool.eqb] in Hs.
    apply bind_Ok in Hs as (op & _ & Hs). apply bind_Ok in Hs as (vis & _ & Hs).
    apply bind_Ok in Hs as (ox & _ & Hs). apply bind_Ok in Hs as (oy & _ & Hs).
    inversion Hs; subst ctx1 o; clear Hs.
    eapply (objectgroup_children cs) in Hc; [| reflexivity | reflexivity].
    destruct Hc as (tk' & g' & Hstack & Hty' & Hobj' & Hn).
    inversion Hstack; subst tk'; clear Hstack.
    rewrite Hobj' in He. unfold end_ in He. cbn [String.eqb Ascii.eqb Bool.eqb] in He.
    inversion He; subst ctx3 p' c'; clear He.
    eexists _, _. split; [reflexivity |]. split; [exact Hty |]. split; [reflexivity |].
    cbn [default Token_set_obj Token.obj add_layer Map_set_layers Map_update Map.layers].
    rewrite flat_map_app. cbn [flat_map layer_object_names]. rewrite app_nil_r, Hn.
    reflexivity. }
  all: clear Hs Hc; unfold end_ in He; cbn [String.eqb Ascii.eqb Bool.eqb] in He;
    cbn [String.eqb Ascii.eqb Bool.eqb];
    destruct (Token.obj tkc) eqn:Eo; try discriminate He;
    inversion He; subst ctx3 p' c'; clear He;
    eexists _, _; (split; [reflexivity |]); (split; [exact Hty |]);
    (split; [reflexivity |]);
    cbn [default Token_set_obj Token.obj add_layer add_tileset Map_set_properties
         Map_set_layers Map_update Map.layers];
    rewrite ?flat_map_app; cbn [flat_map layer_object_names app]; rewrite ?app_nil_r;
    reflexivity.
Qed.

Lemma map_children_objects cs : forall ctx tk below ys ctx' stack' ys' m,
  Token.type tk = "Map" -> Token.obj tk = OMap m ->
  run_events parse (ctx, tk :: below, ys) (flat_map events_of cs)
    = Ok (ctx', stack', ys') ->
  exists tk' m',
    stack' = tk' :: below /\ Token.type tk' = "Map" /\ Token.obj tk' = OMap m'
    /\ flat_map layer_object_names (Map.layers m')
       = flat_map layer_object_names (Map.layers m) ++ flat_map declared_object_names cs.
Proof.
  induction cs as [| c cs IH]; intros ctx tk below ys ctx' stack' ys' m Hty Hobj H.
  - cbn in H. inversion H; subst. exists tk, m. cbn [flat_map]. rewrite app_nil_r. auto.
  - apply run_children_inv in H as ([[ctx1 stack1] ys1] & H1 & H2).
    apply (map_child_objects c _ _ _ _ _ _ _ m Hty Hobj) in H1
      as (tk1 & m1 & -> & Hty1 & Hobj1 & Hn1).
    apply (IH _ _ _ _ _ _ _ _ Hty1 Hobj1) in H2
      as (tk2 & m2 & -> & Hty2 & Hobj2 & Hn2).
    exists tk2, m2. split; [reflexivity |]. split; [exact Hty2 |]. split; [exact Hobj2 |].
    rewrite Hn2, Hn1. cbn [flat_map]. rewrite <- app_assoc. reflexivity.
Qed.

Lemma resolve_layers_objects tiles width : forall layers layers',
  traverse (resolve_layer tiles width) layers = Ok layers' ->
  flat_map layer_object_names layers' = flat_map layer_object_names layers.
Proof.
  induction layers as [| l layers IH]; intros layers' H; cbn [traverse] in H.
  - inversion H; subst. reflexivity.
  - apply bind_Ok in H as (l1 & Hl & H). apply bind_Ok in H as (ls1 & Hls & H).
    inversion H; subst. cbn [flat_map]. rewrite (IH _ Hls). f_equal.
    destruct l as [tl | og | g | il]; cbn [resolve_layer] in Hl.
    + apply bind_Ok in Hl as (gids & _ & Hl). apply bind_Ok in Hl as (data & _ & Hl).
      apply bind_Ok in Hl as (rows & _ & Hl). inversion Hl; subst. reflexivity.
    + inversion Hl; subst. reflexivity.
    + inversion Hl; subst. reflexivity.
    + inversion Hl; subst. reflexivity.
Qed.

Lemma map_root_objects tag a t cs ctx st' :
  Str.title tag = "Map" ->
  run_events parse (ctx, [], []) (events_of (Element tag a t cs)) = Ok st' ->
  exists m,
    last (snd st') = Some (OMap m)
    /\ flat_map layer_object_names (Map.layers m) = flat_map declared_object_names cs.
Proof.
  intros Htag H.
  apply run_element_inv in H as (st1 & st2 & H1 & H2 & H3).
  apply step_start_inv in H1 as (ctx1 & o & Hs & ->).
  rewrite Htag in *.
  assert (Ho : exists m0, o = OMap m0 /\ Map.layers m0 = []).
  { unfold start in Hs. cbn [String.eqb Ascii.eqb Bool.eqb] in Hs.
    unfold bind in Hs. repeat case_match; simplify_eq. eexists. eauto. }
  destruct Ho as (m0 & -> & Hl0).
  destruct st2 as [[ctx2 stack2] ys2].
  eapply (map_children_objects cs) in H2; [| reflexivity | reflexivity].
  destruct H2 as (tk2 & m2 & -> & Hty2 & Hobj2 & Hn2).
  apply step_end_root_inv in H3 as (ctx3 & p' & c' & He & ->).
  rewrite Hty2, Hobj2 in He. unfold end_ in He.
  cbn [String.eqb Ascii.eqb Bool.eqb] in He.
  apply bind_Ok in He as (layers' & Hres & He). inversion He; subst ctx3 p' c'; clear He.
  apply resolve_layers_objects in Hres.
  exists (Map_set_layers m2 layers'). cbn [snd].
  split; [apply last_snoc |]. cbn [Map_set_layers Map_update Map.layers].
  rewrite Hres, Hn2, Hl0. reflexivity.
Qed.

Lemma omap_cons_option_list {A B : Type} (f : A -> option B) (a : A) (l : list A) :
  omap f (a :: l) = option_list (f a) ++ omap f l.
Proof. cbn [omap list_omap]. destruct (f a); reflexivity. Qed.

Lemma map_children cs : forall ctx tk below ys ctx' stack' ys' m,
  Token.type tk = "Map" -> Token.obj tk = OMap m ->
  run_events parse (ctx, tk :: below, ys) (flat_map events_of cs)
    = Ok (ctx', stack', ys') ->
  exists tk' m',
    stack' = tk' :: below /\ Token.type tk' = "Map" /\ Token.obj tk' = OMap m'
    /\ map layer_info (Map.layers m')
       = map layer_info (Map.layers m) ++ omap declared_layer cs
    /\ length (Map.tilesets m')
       = (length (Map.tilesets m) + length (List.filter is_tileset cs))%nat.
Proof.
  induction cs as [| c cs IH]; intros ctx tk below ys ctx' stack' ys' m Hty Hobj H.
  - cbn in H. inversion H; subst. exists tk, m. cbn. rewrite app_nil_r.
    repeat split; try assumption. lia.
  - apply run_children_inv in H as ([[ctx1 stack1] ys1] & H1 & H2).
    apply (map_child c _ _ _ _ _ _ _ m Hty Hobj) in H1
      as (tk1 & m1 & -> & Hty1 & Hobj1 & Hl1 & Hn1).
    apply (IH _ _ _ _ _ _ _ _ Hty1 Hobj1) in H2
      as (tk2 & m2 & -> & Hty2 & Hobj2 & Hl2 & Hn2).
    exists tk2, m2. split; [reflexivity |]. split; [exact Hty2 |]. split; [exact Hobj2 |].
    split.
    + rewrite Hl2, Hl1, omap_cons_option_list, app_assoc. reflexivity.
    + rewrite Hn2, Hn1. cbn [List.filter]. destruct (is_tileset c); cbn [length]; lia.
Qed.

Lemma resolve_layer_info tiles width l l' :
  resolve_layer tiles width l = Ok l' ->
  layer_info l' = layer_info l /\ has_grid l' = true.
Proof.
  destruct l as [tl | og | g | il]; cbn [resolve_layer].
  - intros H. apply bind_Ok in H as (gids & _ & H). apply bind_Ok in H as (data & _ & H).
    apply bind_Ok in H as (rows & _ & H). inversion H; subst. split; reflexivity.
  - intros H. inversion H; subst. split; reflexivity.
  - intros H. inversion H; subst. split; reflexivity.
  - intros H. inversion H; subst. split; reflexivity.
Qed.

Lemma resolve_layers_info tiles width : forall layers layers',
  traverse (resolve_layer tiles width) layers = Ok layers' ->
  map layer_info layers' = map layer_info layers
  /\ forallb has_grid layers' = true.
Proof.
  induction layers as [| l layers IH]; intros layers' H; cbn [traverse] in H.
  - inversion H; subst. split; reflexivity.
  - apply bind_Ok in H as (l1 & Hl & H). apply bind_Ok in H as (ls1 & Hls & H).
    inversion H; subst. apply resolve_layer_info in Hl as [Hi Hg].
    apply IH in Hls as [His Hgs]. cbn [map forallb]. rewrite Hi, His, Hg, Hgs.
    split; reflexivity.
Qed.

Lemma map_root tag a t cs ctx st' :
  Str.title tag = "Map" ->
  run_events parse (ctx, [], []) (events_of (Element tag a t cs)) = Ok st' ->
  exists m,
    last (snd st') = Some (OMap m)
    /\ map layer_info (Map.layers m) = omap declared_layer cs
    /\ forallb has_grid (Map.layers m) = true
    /\ length (Map.tilesets m) = length (List.filter is_tileset cs).
Proof.
  intros Htag H.
  apply run_element_inv in H as (st1 & st2 & H1 & H2 & H3).
  apply step_start_inv in H1 as (ctx1 & o & Hs & ->).
  rewrite Htag in *.
  assert (Ho : exists m0, o = OMap m0 /\ Map.layers m0 = [] /\ Map.tilesets m0 = []).
  { unfold start in Hs. cbn [String.eqb Ascii.eqb Bool.eqb] in Hs.
    unfold bind in Hs. repeat case_match; simplify_eq. eexists. eauto. }
  destruct Ho as (m0 & -> & Hl0 & Ht0).
  destruct st2 as [[ctx2 stack2] ys2].
  eapply (map_children cs) in H2; [| reflexivity | reflexivity].
  destruct H2 as (tk2 & m2 & -> & Hty2 & Hobj2 & Hl2 & Hn2).
  apply step_end_root_inv in H3 as (ctx3 & p' & c' & He & ->).
  rewrite Hty2, Hobj2 in He. unfold end_ in He.
  cbn [String.eqb Ascii.eqb Bool.eqb] in He.
  apply bind_Ok in He as (layers' & Hres & He). inversion He; subst ctx3 p' c'; clear He.
  apply resolve_layers_info in Hres as [Hi Hg].
  exists (Map_set_layers m2 layers'). cbn [snd].
  split; [apply last_snoc |]. cbn [Map_set_layers Map_update Map.layers Map.tilesets].
  split; [rewrite Hi, Hl2, Hl0; reflexivity |].
  split; [exact Hg |].
  rewrite Hn2, Ht0. reflexivity.
Qed.

End WithRuntime.

Section Loading.
Context {RT : Runtime}.

(** X11. The layers of a loaded map are the [layer], [objectgroup], [group]
    and [imagelayer] children of the [map] tag in document order, each
    with the class of its tag, its [name] attribute, and a visibility
    that is false only for an empty [visible] attribute (for an image
    layer, also for a missing one).  Every tile layer among them holds a
    grid of rows, and there is one tileset per [tileset] child. *)
Theorem loaded_map_layers (depth : nat) (path : string) (o : obj)
    (tag : string) (a : gmap string string) (t : option string) (cs : list element) :
  load_tmx depth path = Ok o ->
  iterparse path = Some (Element tag a t cs) ->
  Str.title tag = "Map" ->
  exists m,
    o = OMap m
    /\ map layer_info (Map.layers m) = omap declared_layer cs
    /\ forallb has_grid (Map.layers m) = true
    /\ length (Map.tilesets m) = length (List.filter is_tileset cs).
Proof.
  unfold load_tmx. intros H Hfile Htag. apply bind_Ok in H as ([ctx' ys] & Hit & H).
  destruct depth as [| depth]; cbn [iter_tmx] in Hit; [discriminate Hit |].
  rewrite Hfile in Hit. apply bind_Ok in Hit as (st & Hrun & Hit).
  inversion Hit; subst ctx' ys; clear Hit.
  apply (map_root _ _ _ _ _ _ _ Htag) in Hrun as (m & Hlast & Hrest).
  cbn [snd] in H. rewrite Hlast in H. inversion H; subst o.
  exists m. split; [reflexivity | exact Hrest].
Qed.

(** Closing the map leaves every tile layer of the map with a grid of
    resolved tiles. *)
Lemma loaded_map_has_grids (depth : nat) (path : string) (m : Map.t)
    (tag : string) (a : gmap string string) (t : option string) (cs : list element) :
  load_tmx depth path = Ok (OMap m) ->
  iterparse path = Some (Element tag a t cs) ->
  Str.title tag = "Map" ->
  forallb has_grid (Map.layers m) = true.
Proof.
  unfold load_tmx. intros H Hfile Htag. apply bind_Ok in H as ([ctx' ys] & Hit & H).
  destruct depth as [| depth]; cbn [iter_tmx] in Hit; [discriminate Hit |].
  rewrite Hfile in Hit. apply bind_Ok in Hit as (st & Hrun & Hit).
  inversion Hit; subst ctx' ys; clear Hit.
  apply (map_root _ _ _ _ _ _ _ Htag) in Hrun as (m' & Hlast & _ & Hg & _).
  cbn [snd] in H. rewrite Hlast in H. inversion H; subst m'. exact Hg.
Qed.

Lemma last_property_lookup (n : string) (ps : list element) :
  forall p : gmap string string,
    fold_left property_effect ps p !! n = last_property n ps (p !! n).
Proof.
  induction ps as [| [tag a t cs] ps IH]; intros p; cbn [fold_left last_property].
  - reflexivity.
  - rewrite IH. f_equal. unfold property_effect.
    destruct (String.eqb_spec (default EmptyString (a !! "name")) n) as [<- | Hne].
    + apply lookup_insert_eq.
    + apply lookup_insert_ne. exact Hne.
Qed.

(** X12. The properties of a loaded map are those of the last [properties]
    child of the [map] tag, an earlier one being replaced as a whole;
    each name maps to the [value] string of the last [property] element
    of that name, the [type] attribute playing no part. *)
Theorem loaded_map_properties (depth : nat) (path : string) (m : Map.t)
    (tag : string) (a : gmap string string) (t : option string) (cs : list element) :
  load_tmx depth path = Ok (OMap m) ->
  iterparse path = Some (Element tag a t cs) ->
  Str.title tag = "Map" ->
  Map.properties m = fold_left map_properties_effect cs ∅
  /\ forall n : string,
       Map.properties m !! n
       = match last (List.filter (fun c => String.eqb (name_of c) "Properties") cs) with
         | Some c => last_property n (children_of c) None
         | None => None
         end.
Proof.
  unfold load_tmx. intros H Hfile Htag. apply bind_Ok in H as ([ctx' ys] & Hit & H).
  destruct depth as [| depth]; cbn [iter_tmx] in Hit; [discriminate Hit |].
  rewrite Hfile in Hit. apply bind_Ok in Hit as (st & Hrun & Hit).
  inversion Hit; subst ctx' ys; clear Hit.
  apply (map_root_properties _ _ _ _ _ _ _ Htag) in Hrun as (m' & Hlast & Hp).
  cbn [snd] in H. rewrite Hlast in H. inversion H; subst m'.
  split; [exact Hp |].
  intros n. rewrite Hp. clear.
  assert (Hgen : forall p : gmap string string,
            fold_left map_properties_effect cs p !! n
            = match last (List.filter (fun c => String.eqb (name_of c) "Properties") cs) with
              | Some c => last_property n (children_of c) None
              | None => p !! n
              end).
  { induction cs as [| c cs IH] using rev_ind; intros p.
    - reflexivity.
    - rewrite fold_left_app, List.filter_app. cbn [fold_left List.filter].
      unfold map_properties_effect at 1.
      destruct (String.eqb (name_of c) "Properties").
      + rewrite last_snoc, last_property_lookup, lookup_empty. reflexivity.
      + rewrite app_nil_r. apply IH. }
  rewrite Hgen, lookup_empty. destruct (last _); reflexivity.
Qed.

Lemma objects_names (m : Map.t) :
  map Object.name (DcViews.objects m) = flat_map layer_object_names (Map.layers m).
Proof.
  unfold DcViews.objects, DcViews.objectgroups.
  induction (Map.layers m) as [| l ls IH]; [reflexivity |].
  cbn [flat_map]. rewrite <- IH.
  destruct l; cbn [omap list_omap layer_object_names map concat app]; try reflexivity.
  apply map_app.
Qed.

Lemma find_object_is_Ok (n : string) (objs : list Object.t) :
  is_Ok (DcViews.find_object objs (PyStr n)) = true
  <-> In (Some n) (map Object.name objs).
Proof.
  induction objs as [| o objs IH]; cbn [DcViews.find_object map In].
  - split; [discriminate | tauto].
  - unfold DcViews.name_eqb at 1. destruct (Object.name o) as [s |].
    + destruct (String.eqb_spec s n) as [-> | Hne].
      * split; [auto | reflexivity].
      * rewrite IH. split; [auto | intros [E | H]; [congruence | exact H]].
    + rewrite IH. split; [auto | intros [E | H]; [discriminate | exact H]].
Qed.

(** X13. The objects of a loaded map are the children of the [objectgroup]
    children of the [map] tag, in document order and with their [name]
    attributes, so [get_object_by_name] finds a name exactly when one of
    those elements carries it; object groups inside a [group] contribute
    nothing. *)
Theorem loaded_map_objects (depth : nat) (path : string) (m : Map.t)
    (tag : string) (a : gmap string string) (t : option string) (cs : list element) :
  load_tmx depth path = Ok (OMap m) ->
  iterparse path = Some (Element tag a t cs) ->
  Str.title tag = "Map" ->
  map Object.name (DcViews.objects m) = flat_map declared_object_names cs
  /\ forall n : string,
       is_Ok (DcViews.get_object_by_name m (PyStr n)) = true
       <-> In (Some n) (flat_map declared_object_names cs).
Proof.
  unfold load_tmx. intros H Hfile Htag. apply bind_Ok in H as ([ctx' ys] & Hit & H).
  destruct depth as [| depth]; cbn [iter_tmx] in Hit; [discriminate Hit |].
  rewrite Hfile in Hit. apply bind_Ok in Hit as (st & Hrun & Hit).
  inversion Hit; subst ctx' ys; clear Hit.
  apply (map_root_objects _ _ _ _ _ _ _ Htag) in Hrun as (m' & Hlast & Hn).
  cbn [snd] in H. rewrite Hlast in H. inversion H; subst m'.
  assert (Hnames : map Object.name (DcViews.objects m) = flat_map declared_object_names cs).
  { rewrite objects_names. exact Hn. }
  split; [exact Hnames |].
  intros n. unfold DcViews.get_object_by_name. rewrite find_object_is_Ok, Hnames.
  reflexivity.
Qed.

(** X14. Loading a tileset file by itself gives the tileset its root tag
    declares, changed by the root's children in order: the firstgid is
    the declared one (0 without the attribute), whatever the children. *)
Theorem load_tmx_tileset_file (depth : nat) (path : string) (o : obj)
    (tag : string) (a : gmap string string) (t : option string) (cs : list element) :
  load_tmx depth path = Ok o ->
  iterparse path = Some (Element tag a t cs) ->
  Str.title tag = "Tileset" ->
  truthy_str (a !! "source") = false ->
  exists ts0,
    inline_tileset a = Ok ts0
    /\ o = OTileset (fold_left (tileset_child_effect (Tileset.firstgid ts0)) cs ts0)
    /\ get_or a "firstgid" int_ 0 = Ok (Tileset.firstgid ts0)
    /\ (forall ts, o = OTileset ts -> Tileset.firstgid ts = Tileset.firstgid ts0).
Proof.
  unfold load_tmx. intros H Hfile Htag Hsrc. apply bind_Ok in H as ([ctx' ys] & Hit & H).
  apply (iter_tmx_inline_root _ _ _ _ _ _ _ _ _ Hfile Htag Hsrc) in Hit
    as (g & ts0 & Hg & Hts & Hfg & Hlast).
  cbn [snd] in H. rewrite Hlast in H. inversion H; subst o; clear H.
  assert (Hpend : Context.firstgid
                    (pending_firstgid
                       (Context.mk path (Str.dirname path) true {[ 0 := None ]} 0) g)
                  = Tileset.firstgid ts0).
  { rewrite Hfg. unfold pending_firstgid, truthy_int.
    destruct g as [z |]; cbn [default]; [| reflexivity].
    destruct (Z.eqb_spec z 0) as [-> | _]; reflexivity. }
  rewrite Hpend. exists ts0. split; [exact Hts |]. split; [reflexivity |].
  split.
  - unfold inline_tileset in Hts. apply bind_Ok in Hts as (fg & Hfg' & Hts).
    rewrite Hfg'. f_equal. unfold bind in Hts. repeat case_match; simplify_eq.
    reflexivity.
  - intros ts Hts'. inversion Hts'; subst ts.
    apply effects_firstgid_stable. reflexivity.
Qed.

(** X15. A tileset file whose root names the file itself as its [source] is
    never parsed to an end: at every depth the parser is still opening
    the same file. *)
Theorem iter_tmx_self_reference (path src tag : string) (a : gmap string string)
    (t : option string) (cs : list element) (g : option Z) :
  iterparse path = Some (Element tag a t cs) ->
  Str.title tag = "Tileset" ->
  a !! "source" = Some src -> src <> EmptyString ->
  get_as a "firstgid" int_ = Ok g ->
  forall (depth : nat) (ctx : Context.t),
    Str.path_join (Context.folder ctx) src = path ->
    iter_tmx depth ctx path = Raise RecursionError.
Proof.
  intros Hfile Htag Hsrc Hne Hg. induction depth as [| depth IH]; intros ctx Hjoin.
  - reflexivity.
  - cbn [iter_tmx]. rewrite Hfile. cbn [events_of run_events].
    unfold step at 1. cbn [ev_kind ev_tag ev_attrib ev_text]. rewrite Htag.
    unfold start. cbn [String.eqb Ascii.eqb Bool.eqb]. rewrite Hg. cbn [bind].
    unfold get. rewrite Hsrc. unfold truthy_str.
    destruct (String.eqb_spec src EmptyString) as [E | _]; [contradiction |].
    cbn [negb default]. fold (pending_firstgid ctx g).
    assert (Hfold : Context.folder (pending_firstgid ctx g) = Context.folder ctx).
    { unfold pending_firstgid. destruct (truthy_int g); reflexivity. }
    rewrite Hfold. unfold id. rewrite Hjoin, IH; [reflexivity |]. rewrite Hfold. exact Hjoin.
Qed.

End Loading.

Import SampleRuntime MoreSamples.

Lemma loaded_map_layers_witness :
  exists m,
    @load_tmx sample 2 "maps/town.tmx" = Ok (OMap m)
    /\ map layer_info (Map.layers m)
       = [("TileLayer", Some "ground", true); ("ObjectGroup", Some "things", true)]
    /\ forallb has_grid (Map.layers m) = true
    /\ length (Map.tilesets m) = 1%nat.
Proof.
  assert (Hfile : @iterparse sample "maps/town.tmx"
                  = Some (Element "map" (attrib_of town_tmx) None (children_of town_tmx)))
    by (vm_compute; reflexivity).
  destruct (@load_tmx sample 2 "maps/town.tmx") as [o | e] eqn:E;
    [| vm_compute in E; discriminate E].
  destruct (@loaded_map_layers sample 2 "maps/town.tmx" o "map" (attrib_of town_tmx)
              None (children_of town_tmx) E Hfile eq_refl)
    as (m & -> & Hl & Hg & Hn).
  exists m. split; [reflexivity |].
  split; [rewrite Hl; vm_compute; reflexivity |].
  split; [exact Hg |]. rewrite Hn. vm_compute. reflexivity.
Defined.

Lemma loaded_map_properties_witness :
  exists m,
    @load_tmx labelled 2 "maps/labelled.tmx" = Ok (OMap m)
    /\ Map.properties m = {[ "season" := "summer"; "level" := "3" ]}
    /\ Map.properties m !! "season" = Some "summer"
    /\ Map.properties m !! "level" = Some "3"
    /\ Map.properties m !! "old" = None.
Proof.
  assert (Hfile : @iterparse labelled "maps/labelled.tmx"
                  = Some (Element "map" (attrib_of labelled_tmx) None
                            (children_of labelled_tmx)))
    by (vm_compute; reflexivity).
  assert (E : exists m, @load_tmx labelled 2 "maps/labelled.tmx" = Ok (OMap m))
    by (vm_compute; eexists; reflexivity).
  destruct E as [m E]. exists m. split; [exact E |].
  destruct (@loaded_map_properties labelled 2 "maps/labelled.tmx" m "map"
              (attrib_of labelled_tmx) None (children_of labelled_tmx) E Hfile eq_refl)
    as [Hp Hn].
  split; [rewrite Hp; vm_compute; reflexivity |].
  split; [rewrite Hn; vm_compute; reflexivity |].
  split; [rewrite Hn; vm_compute; reflexivity |].
  rewrite Hn. vm_compute. reflexivity.
Defined.

Lemma loaded_map_objects_witness :
  exists m,
    @load_tmx sample 2 "maps/town.tmx" = Ok (OMap m)
    /\ map Object.name (DcViews.objects m) = [None].
Proof.
  assert (Hfile : @iterparse sample "maps/town.tmx"
                  = Some (Element "map" (attrib_of town_tmx) None (children_of town_tmx)))
    by (vm_compute; reflexivity).
  assert (E : exists m, @load_tmx sample 2 "maps/town.tmx" = Ok (OMap m))
    by (vm_compute; eexists; reflexivity).
  destruct E as [m E]. exists m. split; [exact E |].
  destruct (@loaded_map_objects sample 2 "maps/town.tmx" m "map" (attrib_of town_tmx)
              None (children_of town_tmx) E Hfile eq_refl) as [Hn _].
  rewrite Hn. vm_compute. reflexivity.
Defined.

Lemma load_tmx_tileset_file_witness :
  exists ts,
    @load_tmx sample 2 "maps/shared.tsx" = Ok (OTileset ts) /\ Tileset.firstgid ts = 0.
Proof.
  assert (Hfile : @iterparse sample "maps/shared.tsx"
                  = Some (Element "tileset" shared_attrib None shared_children))
    by (vm_compute; reflexivity).
  assert (Hsrc : truthy_str (shared_attrib !! "source") = false)
    by (vm_compute; reflexivity).
  destruct (@load_tmx sample 2 "maps/shared.tsx") as [o | e] eqn:E;
    [| vm_compute in E; discriminate E].
  destruct (@load_tmx_tileset_file sample 2 "maps/shared.tsx" o "tileset" shared_attrib
              None shared_children E Hfile eq_refl Hsrc)
    as (ts0 & Hts & -> & Hg & Hfg).
  eexists. split; [reflexivity |]. rewrite (Hfg _ eq_refl).
  assert (H0 : get_or shared_attrib "firstgid" (@int_ sample) 0 = Ok 0)
    by (vm_compute; reflexivity).
  congruence.
Defined.

Lemma iter_tmx_self_reference_witness :
  @iter_tmx looping 7 (Context.mk "maps/loop.tsx" "maps" true {[ 0 := None ]} 0)
    "maps/loop.tsx"
  = Raise RecursionError.
Proof.
  assert (Hfile : @iterparse looping "maps/loop.tsx"
                  = Some (Element "tileset" (reference "1" "loop.tsx") None []))
    by (vm_compute; reflexivity).
  assert (Hsrc : reference "1" "loop.tsx" !! "source" = Some "loop.tsx")
    by (vm_compute; reflexivity).
  assert (Hg : get_as (reference "1" "loop.tsx") "firstgid" (@int_ looping) = Ok (Some 1))
    by (vm_compute; reflexivity).
  apply (@iter_tmx_self_reference looping "maps/loop.tsx" "loop.tsx" "tileset"
           (reference "1" "loop.tsx") None [] (Some 1) Hfile eq_refl Hsrc
           ltac:(discriminate) Hg 7%nat).
  reflexivity.
Defined.

End LayerFacts.

(** ** The tile queries on a loaded map *)

Module LoadedMapFacts.
Import Dc Mason Document ParserFacts DcFacts DocumentFacts LayerFacts.

Lemma list_getitem_Ok_In {A : Type} (l : list A) (i : pyval) (a : A) :
  list_getitem l i = Ok a -> In a l.
Proof.
  unfold list_getitem. destruct i as [| z | f | s | cls]; try discriminate.
  destruct (_ && _); [| discriminate].
  destruct (l !! Z.to_nat _) as [b |] eqn:E; [| discriminate].
  intros [= ->]. apply list_elem_of_In. apply (list_elem_of_lookup_2 _ _ _ E).
Qed.

(** A layer with a grid of tiles answers [data[y][x]] with a tile or
    [None], if it answers. *)
Lemma grid_cell_is_tile (l : layer) (y x : pyval) (c : cell) :
  has_grid l = true ->
  (d <- layer_data_attr l ;; data_getitem2 d y x) = Ok c ->
  exists t, c = CellTile t.
Proof.
  intros Hg H. destruct l as [tl | og | g | il]; cbn [layer_data_attr bind] in H;
    try discriminate H.
  cbn [has_grid] in Hg. destruct (TileLayer.data tl) as [| s | gids | rows | rows];
    try discriminate Hg.
  cbn [data_getitem2] in H.
  apply bind_Ok in H as (row & _ & H). apply bind_Ok in H as (t & _ & H).
  inversion H. eauto.
Qed.

Lemma get_tile_gid_Ok_layer (self : Map.t) (x y layer : pyval) (c : cell) :
  get_tile_gid self x y layer = Ok c ->
  exists l, In l (Map.layers self)
    /\ (d <- layer_data_attr l ;; data_getitem2 d y x) = Ok c.
Proof.
  unfold get_tile_gid. intros H.
  apply bind_Ok in H as (u & _ & H). apply bind_Ok in H as (l & Hl & H).
  exists l. split.
  - apply (list_getitem_Ok_In _ layer).
    destruct (list_getitem (Map.layers self) layer) as [l' | e]; [exact Hl |].
    destruct e; discriminate Hl.
  - destruct (d <- layer_data_attr l ;; data_getitem2 d y x) as [c' | e]; [exact H |].
    destruct e; discriminate H.
Qed.

Section Loading.
Context {RT : Runtime}.


(** X17. On a loaded map [Map.get_tile_image] never returns an image,
    whatever the arguments: an error of [get_tile_gid] is passed on, and
    a cell that [get_tile_gid] returns is looked up in the empty image
    table, which raises TypeError for a tile, [None] or a character and
    ValueError for an integer. *)
Theorem get_tile_image_on_loaded_map (depth : nat) (path : string)
    (m : Map.t) (x y layer : pyval) :
  load_tmx depth path = Ok (OMap m) ->
  is_Ok (get_tile_image m x y layer) = false
  /\ (forall e, get_tile_gid m x y layer = Raise e ->
        get_tile_image m x y layer = Raise e)
  /\ (forall c, get_tile_gid m x y layer = Ok c ->
        get_tile_image m x y layer
        = Raise (match c with
                 | CellGid _ => ValueError GID_NOT_FOUND_MSG
                 | _ => TypeError GID_NOT_NUMBER_MSG
                 end)).
Proof.
  intros Hload. pose proof (load_tmx_images_nil _ _ _ Hload) as Hnil.
  assert (Hc : forall c, get_tile_gid m x y layer = Ok c ->
             get_tile_image m x y layer
             = Raise (match c with
                      | CellGid _ => ValueError GID_NOT_FOUND_MSG
                      | _ => TypeError GID_NOT_NUMBER_MSG
                      end)).
  { intros c E. unfold get_tile_image. rewrite E. cbn [bind].
    destruct c as [[t |] | s | g]; try reflexivity.
    cbn [pyval_of_cell]. unfold get_tile_image_by_gid, list_getitem. rewrite Hnil.
    rewrite lookup_nil. destruct (_ && _); reflexivity. }
  assert (He : forall e, get_tile_gid m x y layer = Raise e ->
             get_tile_image m x y layer = Raise e).
  { intros e E. unfold get_tile_image. rewrite E. reflexivity. }
  split; [| split; assumption].
  destruct (get_tile_gid m x y layer) as [c | e] eqn:E.
  - rewrite (Hc c eq_refl). reflexivity.
  - rewrite (He e eq_refl). reflexivity.
Qed.

(** X28. On a map loaded from a file rooted at a [map] tag,
    [get_tile_gid] never returns a gid: what it returns is the tile
    object that closing the map put into the grid, or [None], and
    [get_tile_image] rejects it with TypeError. *)
Theorem loaded_map_cells_are_tiles (depth : nat) (path : string) (m : Map.t)
    (tag : string) (a : gmap string string) (t : option string) (cs : list element)
    (x y layer : pyval) (c : cell) :
  load_tmx depth path = Ok (OMap m) ->
  iterparse path = Some (Element tag a t cs) ->
  Str.title tag = "Map" ->
  get_tile_gid m x y layer = Ok c ->
  (exists tile, c = CellTile tile)
  /\ (forall g, c <> CellGid g)
  /\ get_tile_image m x y layer = Raise (TypeError GID_NOT_NUMBER_MSG).
Proof.
  intros Hload Hfile Htag Hc.
  pose proof (loaded_map_has_grids _ _ _ _ _ _ _ Hload Hfile Htag) as Hg.
  destruct (get_tile_gid_Ok_layer _ _ _ _ _ Hc) as (l & Hin & Hcell).
  rewrite forallb_forall in Hg.
  destruct (grid_cell_is_tile _ _ _ _ (Hg _ Hin) Hcell) as [tile ->].
  split; [eauto |]. split; [discriminate |].
  unfold get_tile_image. rewrite Hc. cbn [bind]. destruct tile; reflexivity.
Qed.

End Loading.

Import SampleRuntime.


Lemma get_tile_image_on_loaded_map_witness :
  exists m,
    @load_tmx sample 2 "maps/town.tmx" = Ok (OMap m)
    /\ is_Ok (get_tile_image m (PyInt 0) (PyInt 0) (PyInt 0)) = false
    /\ is_Ok (get_tile_image m (PyInt 0) (PyInt 0) (PyInt 7)) = false.
Proof.
  assert (E : exists m, @load_tmx sample 2 "maps/town.tmx" = Ok (OMap m))
    by (vm_compute; eexists; reflexivity).
  destruct E as [m E]. exists m. split; [exact E |].
  split.
  - apply (@get_tile_image_on_loaded_map sample 2 "maps/town.tmx" m
             (PyInt 0) (PyInt 0) (PyInt 0) E).
  - apply (@get_tile_image_on_loaded_map sample 2 "maps/town.tmx" m
             (PyInt 0) (PyInt 0) (PyInt 7) E).
Defined.

Lemma loaded_map_cells_are_tiles_witness :
  exists m c,
    @load_tmx sample 2 "maps/town.tmx" = Ok (OMap m)
    /\ get_tile_gid m (PyInt 1) (PyInt 0) (PyInt 0) = Ok c
    /\ (exists tile, c = CellTile tile)
    /\ get_tile_image m (PyInt 1) (PyInt 0) (PyInt 0)
       = Raise (TypeError GID_NOT_NUMBER_MSG).
Proof.
  assert (Hfile : @iterparse sample "maps/town.tmx"
                  = Some (Element "map" (attrib_of town_tmx) None (children_of town_tmx)))
    by (vm_compute; reflexivity).
  assert (E : exists m c, @load_tmx sample 2 "maps/town.tmx" = Ok (OMap m)
                          /\ get_tile_gid m (PyInt 1) (PyInt 0) (PyInt 0) = Ok c)
    by (vm_compute; eexists _, _; split; reflexivity).
  destruct E as (m & c & E & Hc). exists m, c.
  split; [exact E |]. split; [exact Hc |].
  destruct (@loaded_map_cells_are_tiles sample 2 "maps/town.tmx" m "map"
              (attrib_of town_tmx) None (children_of town_tmx)
              (PyInt 1) (PyInt 0) (PyInt 0) c E Hfile eq_refl Hc)
    as (Htile & _ & Himg).
  split; [exact Htile | exact Himg].
Defined.

(** C6, where the code departs from it.  The map loaded from
    [maps/town.tmx] has one tile layer whose data is [5,6].
    [get_tile_gid 0 0 0] does not return the gid 5 stored there: closing
    the map has replaced every gid of the layer with the tile object
    cached for it, so the call returns the [Tile] of local id 0, whose
    [gid] field is [None].  On layer 1, an object group, the call ends
    with AttributeError, and for the layer index 0.5 with the TypeError
    of the list index; neither is a ValueError. *)
Theorem get_tile_gid_on_loaded_town :
  exists m tile,
    @load_tmx sample 2 "maps/town.tmx" = Ok (OMap m)
    /\ get_tile_gid m (PyInt 0) (PyInt 0) (PyInt 0) = Ok (CellTile (Some tile))
    /\ Tile.id tile = Some 0
    /\ Tile.gid tile = None
    /\ get_tile_gid m (PyInt 0) (PyInt 0) (PyInt 0) <> Ok (CellGid 5)
    /\ get_tile_gid m (PyInt 0) (PyInt 0) (PyInt 1)
       = Raise (AttributeError "'ObjectGroup' object has no attribute 'data'")
    /\ get_tile_gid m (PyInt 0) (PyInt 0) (PyFloat 0.5%float)
       = Raise (TypeError "list indices must be integers or slices").
Proof.
  eexists _, _. split; [vm_compute; reflexivity |].
  split; [vm_compute; reflexivity |]. split; [reflexivity |]. split; [reflexivity |].
  split; [vm_compute; discriminate |].
  split; vm_compute; reflexivity.
Qed.

End LoadedMapFacts.

(** ** Tile layers inside groups stay unresolved *)

Module GroupFacts.
Import Builtins Dc Mason Document Groups ParserFacts DocumentFacts.

Lemma resolve_layers_groups tiles width : forall layers layers',
  traverse (resolve_layer tiles width) layers = Ok layers' ->
  groups_unresolved layers' = groups_unresolved layers.
Proof.
  induction layers as [| l layers IH]; intros layers' H; cbn [traverse] in H.
  - inversion H; subst. reflexivity.
  - apply bind_Ok in H as (l1 & Hl & H). apply bind_Ok in H as (ls1 & Hls & H).
    inversion H; subst. unfold groups_unresolved in *. cbn [forallb].
    rewrite (IH _ Hls). f_equal.
    destruct l as [tl | og | g | il]; cbn [resolve_layer] in Hl.
    + apply bind_Ok in Hl as (gids & _ & Hl). apply bind_Ok in Hl as (data & _ & Hl).
      apply bind_Ok in Hl as (rows & _ & Hl). inversion Hl; subst. reflexivity.
    + inversion Hl; subst. reflexivity.
    + inversion Hl; subst. reflexivity.
    + inversion Hl; subst. reflexivity.
Qed.

Section WithRuntime.
Context {RT : Runtime}.
Variable parse : Context.t -> string -> result (Context.t * list obj).

(** No reducer resolves a tile layer that is not a layer of the map
    being closed. *)
Lemma end_unresolved ctx path p c ctx' p' c' :
  end_ ctx path p c = Ok (ctx', p', c') ->
  unresolved c = true ->
  (forall q, p = Some q -> unresolved q = true) ->
  unresolved c' = true /\ forall q, p = Some q -> unresolved (default q p') = true.
Proof.
  intros H Hc Hp. destruct (String.eqb_spec path "Map") as [-> | Hne].
  - unfold end_ in H. cbn [String.eqb Ascii.eqb Bool.eqb] in H.
    destruct c as [| | | | | | | m | | | | | | | | | |]; try discriminate H.
    apply bind_Ok in H as (layers' & Hres & H). inversion H; subst ctx' p' c'; clear H.
    split.
    + cbn [unresolved Map_set_layers Map_update Map.layers].
      rewrite (resolve_layers_groups _ _ _ _ Hres). exact Hc.
    + intros q ->. cbn [default]. apply Hp. reflexivity.
  - unfold end_, bind, not_none in H.
    repeat case_match; simplify_eq; cbn [default].
    all: try match goal with
             | E : String.eqb ?s "Map" = true, N : ?s <> "Map" |- _ =>
                 apply String.eqb_eq in E; contradiction
             end.
    all: split; [exact Hc |].
    all: intros q Hq; inversion Hq; subst; cbn [default];
      specialize (Hp _ eq_refl); unfold id;
      cbn [unresolved] in *; unfold groups_unresolved, group_unresolved in *;
      cbn [unresolved groups_unresolved group_unresolved flat_data
           Group_append Group.layers add_layer add_tileset Map_set_layers
           Map_set_properties Map_set_orientation Map_update Map.layers
           TileLayer_set_data TileLayer_set_properties TileLayer.data] in *;
      rewrite ?forallb_app; cbn [forallb];
      rewrite ?Hp, ?Hc; try reflexivity; try exact Hp.
Qed.

Lemma start_unresolved ctx name a t ctx' o :
  parse_unresolved parse ->
  start parse ctx name a t = Ok (ctx', o) -> unresolved o = true.
Proof.
  intros Hp H. destruct (String.eqb_spec name "Tileset") as [-> | Hn].
  - unfold start in H. cbn [String.eqb Ascii.eqb Bool.eqb] in H.
    apply bind_Ok in H as (g & _ & H).
    destruct (truthy_str (get a "source")).
    + apply bind_Ok in H as ([c' ys] & Hr & H). cbn [snd fst] in H.
      destruct (last ys) as [o' |] eqn:Hl; inversion H; subst.
      apply (Hp _ _ _ _ _ Hr Hl).
    + unfold bind, rmap in H. repeat case_match; simplify_eq; reflexivity.
  - unfold start, bind, rmap in H.
    repeat case_match; simplify_eq; try reflexivity.
    all: exfalso; apply Hn; apply String.eqb_eq; assumption.
Qed.

Lemma children_unresolved cs :
  Forall (fun c => forall ctx tk below ys ctx' tk' stack' ys',
            run_events parse (ctx, tk :: below, ys) (events_of c)
              = Ok (ctx', tk' :: stack', ys') ->
            unresolved (Token.obj tk) = true -> unresolved (Token.obj tk') = true) cs ->
  forall ctx tk below ys ctx' tk' stack' ys',
    run_events parse (ctx, tk :: below, ys) (flat_map events_of cs)
      = Ok (ctx', tk' :: stack', ys') ->
    unresolved (Token.obj tk) = true -> unresolved (Token.obj tk') = true.
Proof.
  induction 1 as [| c cs Hc _ IH]; intros ctx tk below ys ctx' tk' stack' ys' Hrun Hu.
  - cbn in Hrun. inversion Hrun; subst. exact Hu.
  - apply run_children_inv in Hrun as (st1 & H1 & H2).
    destruct (element_frame parse c _ _ _ _ _ H1) as (ctx1 & tk1 & ys1 & -> & _).
    apply (IH _ _ _ _ _ _ _ _ H2). apply (Hc _ _ _ _ _ _ _ _ H1 Hu).
Qed.

Lemma element_unresolved e :
  parse_unresolved parse ->
  forall ctx tk below ys ctx' tk' stack' ys',
    run_events parse (ctx, tk :: below, ys) (events_of e) = Ok (ctx', tk' :: stack', ys') ->
    unresolved (Token.obj tk) = true -> unresolved (Token.obj tk') = true.
Proof.
  intros Hp. induction e as [tag a t cs IH] using element_children_ind.
  intros ctx tk below ys ctx' tk' stack' ys' Hrun Hu.
  apply run_element_shape in Hrun
    as (ctx1 & o & ctx2 & tkc & ys2 & ctx3 & p' & c' & Hs & Hcs & Htc & He & Hst).
  inversion Hst; subst; clear Hst.
  assert (Hchild : unresolved (Token.obj tkc) = true).
  { apply (children_unresolved cs IH _ _ _ _ _ _ _ _ Hcs).
    cbn [Token.obj]. apply (start_unresolved _ _ _ _ _ _ Hp Hs). }
  apply end_unresolved in He as [_ He]; [| exact Hchild | intros q [= <-]; exact Hu].
  cbn [Token_set_obj Token.obj]. apply He. reflexivity.
Qed.

Lemma root_unresolved tag a t cs ctx ctx' stack' ys' o :
  parse_unresolved parse ->
  run_events parse (ctx, [], []) (events_of (Element tag a t cs)) = Ok (ctx', stack', ys') ->
  last ys' = Some o -> unresolved o = true.
Proof.
  intros Hp Hrun Hlast.
  apply run_element_inv in Hrun as (st1 & st2 & H1 & H2 & H3).
  apply step_start_inv in H1 as (ctx1 & o1 & Hs & ->).
  destruct (run_children_frame parse cs _ _ _ _ _ H2) as (ctx2 & tk2 & ys2 & -> & _).
  assert (Hu : unresolved (Token.obj tk2) = true).
  { apply (children_unresolved cs) with (2 := H2).
    - apply List.Forall_forall. intros c _. apply element_unresolved. exact Hp.
    - cbn [Token.obj]. apply (start_unresolved _ _ _ _ _ _ Hp Hs). }
  apply step_end_root_inv in H3 as (ctx3 & p' & c' & He & E). inversion E; subst.
  rewrite last_snoc in Hlast. inversion Hlast; subst.
  apply end_unresolved in He as [He _]; [exact He | exact Hu | discriminate].
Qed.

End WithRuntime.

Section Loading.
Context {RT : Runtime}.

Lemma iter_tmx_unresolved (depth : nat) : parse_unresolved (iter_tmx depth).
Proof.
  induction depth as [| depth IH]; intros ctx p ctx' ys o H Hlast; cbn [iter_tmx] in H.
  - discriminate H.
  - destruct (iterparse p) as [[tag a t cs] |]; [| discriminate H].
    apply bind_Ok in H as ([[c1 stack1] ys1] & Hrun & H). inversion H; subst.
    cbn [snd] in Hlast. apply (root_unresolved (iter_tmx depth) _ _ _ _ _ _ _ _ _ IH Hrun Hlast).
Qed.

(** X22. Closing the map resolves only its own tile layers: in a loaded map
    no tile layer inside a group layer holds a grid, of tiles or of gids;
    its data is still what the [data] tag decoded to: the decoded gid
    list, the [data] attribute, or [None]. *)
Theorem loaded_map_groups_unresolved (depth : nat) (path : string) (m : Map.t) :
  load_tmx depth path = Ok (OMap m) ->
  forall (g : Group.t) (tl : TileLayer.t),
    In (LGroup g) (Map.layers m) -> In (inl tl) (Group.layers g) ->
    (forall rows, TileLayer.data tl <> DataGrid rows)
    /\ (forall rows, TileLayer.data tl <> DataGids rows)
    /\ flat_data tl = true.
Proof.
  unfold load_tmx. intros H g tl Hg Htl. apply bind_Ok in H as ([ctx' ys] & Hit & H).
  cbn [snd] in H. destruct (last ys) as [o |] eqn:Hlast; inversion H; subst.
  pose proof (iter_tmx_unresolved _ _ _ _ _ _ Hit Hlast) as Hu.
  cbn [unresolved] in Hu. unfold groups_unresolved in Hu.
  rewrite forallb_forall in Hu. specialize (Hu _ Hg). cbn in Hu.
  unfold group_unresolved in Hu. rewrite forallb_forall in Hu.
  specialize (Hu _ Htl). cbn in Hu.
  split; [| split; [| exact Hu]].
  - intros rows Hrows. unfold flat_data in Hu. rewrite Hrows in Hu. discriminate Hu.
  - intros rows Hrows. unfold flat_data in Hu. rewrite Hrows in Hu. discriminate Hu.
Qed.

End Loading.

Lemma loaded_map_groups_unresolved_witness :
  exists m g tl,
    @load_tmx grouped 2 "maps/grouped.tmx" = Ok (OMap m)
    /\ Map.layers m = [LGroup g]
    /\ Group.layers g = [inl tl]
    /\ TileLayer.data tl = DataFlat [7]
    /\ (forall rows, TileLayer.data tl <> DataGrid rows)
    /\ (forall rows, TileLayer.data tl <> DataGids rows)
    /\ flat_data tl = true.
Proof.
  assert (E : exists m g tl,
            @load_tmx grouped 2 "maps/grouped.tmx" = Ok (OMap m)
            /\ Map.layers m = [LGroup g] /\ Group.layers g = [inl tl]
            /\ TileLayer.data tl = DataFlat [7])
    by (vm_compute; eexists _, _, _; repeat split; reflexivity).
  destruct E as (m & g & tl & E & Hm & Hg & Hd).
  exists m, g, tl. split; [exact E |]. split; [exact Hm |]. split; [exact Hg |].
  split; [exact Hd |].
  apply (@loaded_map_groups_unresolved grouped 2 "maps/grouped.tmx" m E g tl).
  - rewrite Hm. left. reflexivity.
  - rewrite Hg. left. reflexivity.
Defined.

End GroupFacts.

(** ** Tile elements and the cache *)

Module TileFacts.
Import Builtins Dc Mason Document ParserFacts DocumentFacts.

Section WithRuntime.
Context {RT : Runtime}.
Variable parse : Context.t -> string -> result (Context.t * list obj).

Lemma not_a_cache_path p name :
  In p tag_names -> p <> "Tileset" ->
  p +:+ "." +:+ name <> "Tileset.Image" /\ p +:+ "." +:+ name <> "Tileset.Tile".
Proof.
  intros H Hn. each_name H; first [congruence | split; discriminate].
Qed.

Lemma children_keep_context cs :
  Forall (keeps_context parse) cs ->
  forall ctx tk below ys ctx' stack' ys',
    In (Token.type tk) tag_names ->
    Token.type tk <> "Map" -> Token.type tk <> "Tileset" ->
    run_events parse (ctx, tk :: below, ys) (flat_map events_of cs)
      = Ok (ctx', stack', ys') ->
    ctx' = ctx.
Proof.
  induction 1 as [| c cs Hc _ IH]; intros ctx tk below ys ctx' stack' ys' Hin Hm Ht H.
  - cbn in H. inversion H; subst. reflexivity.
  - apply run_children_inv in H as (st1 & H1 & H2).
    pose proof (element_frame parse c _ _ _ _ _ H1) as (ctx1 & tk1 & ys1 & -> & Ht1).
    apply Hc in H1; [| assumption | assumption | assumption].
    apply IH in H2; [| rewrite Ht1; assumption | rewrite Ht1; assumption
                     | rewrite Ht1; assumption].
    congruence.
Qed.

Lemma element_keeps_context e : keeps_context parse e.
Proof.
  induction e as [tag a t cs IH] using element_children_ind.
  intros ctx tk below ys ctx' stack' ys' Hin Hm Hts H.
  apply run_element_shape in H
    as (ctx1 & o & ctx2 & tkc & ys2 & ctx3 & p' & c' & Hs & Hc & Ht & He & Hst).
  inversion Hst; subst ctx' stack' ys'; clear Hst.
  pose proof (start_known _ _ _ _ _ _ Hs) as Hname.
  destruct (String.eqb_spec (Str.title tag) "Map") as [E | NM].
  { rewrite E in He. rewrite end_unknown in He by (apply map_is_no_child; assumption).
    discriminate. }
  destruct (String.eqb_spec (Str.title tag) "Tileset") as [E | NT].
  { rewrite E in He.
    rewrite end_unknown in He by (apply tileset_is_child_of_map_only; assumption).
    discriminate. }
  apply (start_ctx parse) in Hs; [| assumption]. subst ctx1.
  apply (children_keep_context cs IH) in Hc; [| assumption | assumption | assumption].
  subst ctx2.
  destruct (not_a_cache_path (Token.type tk) (Str.title tag) Hin Hts) as [N1 N2].
  apply (end_keeps EmptyString) in He as (_ & He & _). apply He; assumption.
Qed.

(** X23. A [tile] element under a tileset is cached under the tileset's
    firstgid plus its own [id], the firstgid being the pending one of the
    context when the tileset has none of its own; what is cached is the
    tile as its children left it, and nothing else in the context
    changes. *)
Theorem tile_element_is_cached (c : element) (ctx : Context.t) (tk : Token.t)
    (below : list Token.t) (ys : list obj) (ctx' : Context.t)
    (stack' : list Token.t) (ys' : list obj) (ts : Tileset.t) :
  Token.type tk = "Tileset" -> Token.obj tk = OTileset ts ->
  is_tile c = true ->
  run_events parse (ctx, tk :: below, ys) (events_of c) = Ok (ctx', stack', ys') ->
  exists (i : Z) (tile : Tile.t),
    get_as (attrib_of c) "id" int_ = Ok (Some i)
    /\ Tile.id tile = Some i
    /\ last ys' = Some (OTile tile)
    /\ ctx' = Context_set_tiles ctx
                (<[(if Tileset.firstgid ts =? 0 then Context.firstgid ctx
                    else Tileset.firstgid ts) + i := Some tile]> (Context.tiles ctx)).
Proof.
  intros Hty Hobj Htile H. destruct c as [tag a t cs].
  cbn [is_tile] in Htile. apply String.eqb_eq in Htile.
  apply run_element_shape in H
    as (ctx1 & o & ctx2 & tkc & ys2 & ctx3 & p' & c' & Hs & Hc & Ht & He & Hst).
  inversion Hst; subst ctx' stack' ys'; clear Hst.
  rewrite Htile in *. rewrite Hty, Hobj in He.
  assert (Hkeep : tile_id_of (Token.obj tkc) = tile_id_of o).
  { apply (children_preserve parse (fun x => tile_id_of x = tile_id_of o))
      with (2 := Hc); [| reflexivity].
    intros c0 path0 p c c0' q' c1 He' Hq.
    apply (end_keeps EmptyString) in He' as (_ & _ & _ & He').
    destruct (He' p eq_refl) as (_ & _ & _ & Hn). congruence. }
  assert (Hctx : ctx2 = ctx1).
  { apply (children_keep_context cs) with (5 := Hc).
    - apply List.Forall_forall. intros x _. apply element_keeps_context.
    - cbv [In tag_names Token.type]. tauto.
    - discriminate.
    - discriminate. }
  subst ctx2.
  unfold start in Hs. cbn [String.eqb Ascii.eqb Bool.eqb] in Hs.
  apply bind_Ok in Hs as (i & Hi & Hs). apply bind_Ok in Hs as (g & _ & Hs).
  inversion Hs; subst ctx1 o; clear Hs.
  unfold end_ in He. cbn [String.eqb Ascii.eqb Bool.eqb] in He.
  destruct (Token.obj tkc) as [| | | | | | | | | | | | | | | tile | |] eqn:Eo;
    try discriminate He.
  cbn [tile_id_of Tile.id] in Hkeep. inversion Hkeep as [Hid].
  apply bind_Ok in He as (i' & Hi' & He). inversion He; subst ctx3 p' c'; clear He.
  rewrite Hid in Hi'. destruct i as [i |]; cbn [not_none] in Hi'; [| discriminate Hi'].
  inversion Hi'; subst i'.
  exists i, tile. cbn [attrib_of]. split; [exact Hi |]. split; [exact Hid |].
  split; [apply last_snoc |].
  destruct (Tileset.firstgid ts =? 0); reflexivity.
Qed.

End WithRuntime.

Import SampleRuntime MoreSamples.

Lemma tile_element_is_cached_witness :
  exists ctx' stack' ys' tile,
    @run_events sample (@iter_tmx sample 1) (pending_context, [open_tileset_token], [])
      (events_of tile_one) = Ok (ctx', stack', ys')
    /\ Tile.id tile = Some 1
    /\ last ys' = Some (OTile tile)
    /\ Context.tiles ctx' !! 6 = Some (Some tile).
Proof.
  destruct (@run_events sample (@iter_tmx sample 1) (pending_context, [open_tileset_token], [])
              (events_of tile_one)) as [[[ctx' stack'] ys'] | e] eqn:E;
    [| vm_compute in E; discriminate E].
  destruct (@tile_element_is_cached sample (@iter_tmx sample 1) tile_one pending_context
              open_tileset_token [] [] ctx' stack' ys' open_tileset
              eq_refl eq_refl eq_refl E)
    as (i & tile & Hi & Hid & Hlast & Hctx).
  assert (Hi1 : get_as (attrib_of tile_one) "id" (@int_ sample) = Ok (Some 1))
    by (vm_compute; reflexivity).
  rewrite Hi1 in Hi. inversion Hi; subst i.
  exists ctx', stack', ys', tile. split; [reflexivity |]. split; [exact Hid |].
  split; [exact Hlast |]. rewrite Hctx. cbn [Context_set_tiles Context_update Context.tiles].
  apply lookup_insert_eq.
Defined.

End TileFacts.

(** ** The tile cache: filling it from a sheet, reading it when the map closes *)

Module CacheFacts.
Import Builtins Dc Mason Document Gid GidMoreFacts ReshapeFacts.

Lemma decode_gid_small (g : Z) :
  0 <= g < 2 ^ 29 -> decode_gid g = (g, mkTileFlags false false false).
Proof.
  intros Hg. unfold decode_gid.
  rewrite strip_is_low_bits by lia. rewrite Z.mod_small by lia.
  unfold GID_TRANS_FLIPX, GID_TRANS_FLIPY, GID_TRANS_ROT.
  rewrite !flag_test by lia.
  rewrite <- (Z.mod_small g (2 ^ 29)) by lia.
  rewrite !Z.mod_pow2_bits_high by lia. reflexivity.
Qed.

Lemma slice_sheet_lookup path trans tw th (origins : list (Z * Z)) :
  forall (firstgid : Z) (tiles : gmap Z (option Tile.t)) (q : Z),
    0 <= firstgid -> firstgid + Z.of_nat (length origins) <= 2 ^ 29 ->
    slice_sheet path trans tw th tiles (enumerate origins firstgid) !! q
    = match (if decide (firstgid <= q) then origins !! Z.to_nat (q - firstgid) else None) with
      | Some yx => Some (sheet_tile path trans tw th q yx)
      | None => tiles !! q
      end.
Proof.
  induction origins as [| yx origins IH]; intros firstgid tiles q H0 Hmax.
  - cbn [enumerate slice_sheet fold_left]. rewrite lookup_nil.
    destruct (decide (firstgid <= q)); reflexivity.
  - destruct yx as [y x]. cbn [length] in Hmax. cbn [enumerate]. unfold slice_sheet.
    cbn [fold_left]. rewrite decode_gid_small by lia.
    fold (sheet_tile path trans tw th firstgid (y, x)).
    match goal with
    | |- fold_left ?f ?l ?acc !! q = _ =>
        change (fold_left f l acc) with (slice_sheet path trans tw th acc l)
    end.
    rewrite IH by lia.
    destruct (decide (firstgid + 1 <= q)) as [Hq | Hq].
    + destruct (decide (firstgid <= q)) as [_ | ?]; [| lia].
      replace (Z.to_nat (q - firstgid)) with (S (Z.to_nat (q - (firstgid + 1)))) by lia.
      cbn [lookup list_lookup].
      destruct (origins !! Z.to_nat (q - (firstgid + 1))); [reflexivity |].
      apply lookup_insert_ne. lia.
    + destruct (decide (firstgid <= q)) as [Hq' | Hq'].
      * assert (q = firstgid) as -> by lia. rewrite Z.sub_diag.
        change (Z.to_nat 0) with 0%nat. cbn [lookup list_lookup].
        apply lookup_insert_eq.
      * apply lookup_insert_ne. lia.
Qed.

Section WithRuntime.
Context {RT : Runtime}.

(** X6. The [Tileset.Image] reducer caches the tiles of a sprite sheet under
    consecutive gids from the tileset's firstgid on, in the order of
    [iter_image_tiles] (row by row), each with its own rectangle of the
    sheet and no flip flags; every other cache entry, the tileset and the
    image are left as they were. *)
Theorem tileset_image_fills_cache (ctx : Context.t) (ts : Tileset.t) (i : Image.t)
    (src : string) (tw th : Z) (origins : list (Z * Z)) :
  Image.source i = Some src ->
  Tileset.tilewidth ts = Some tw -> Tileset.tileheight ts = Some th ->
  Slicing.iter_image_tiles (Image.width i) (Image.height i) (Some tw) (Some th)
    (Tileset.margin ts) (Tileset.spacing ts) = Ok origins ->
  0 <= Tileset.firstgid ts ->
  Tileset.firstgid ts + Z.of_nat (length origins) <= 2 ^ 29 ->
  exists tiles',
    end_ ctx "Tileset.Image" (Some (OTileset ts)) (OImage i)
      = Ok (Context_set_tiles ctx tiles', Some (OTileset ts), OImage i)
    /\ (forall (k : nat) (yx : Z * Z),
          origins !! k = Some yx ->
          tiles' !! (Tileset.firstgid ts + Z.of_nat k)
          = Some (sheet_tile (Str.path_join (Context.folder ctx) src) (Image.trans i)
                    tw th (Tileset.firstgid ts + Z.of_nat k) yx))
    /\ (forall q : Z,
          q < Tileset.firstgid ts
          \/ Tileset.firstgid ts + Z.of_nat (length origins) <= q ->
          tiles' !! q = Context.tiles ctx !! q).
Proof.
  intros Hsrc Htw Hth Hor H0 Hmax.
  eexists. split.
  { unfold end_. cbn [String.eqb Ascii.eqb Bool.eqb].
    rewrite Hsrc, Htw, Hth, Hor. cbn [not_none bind]. reflexivity. }
  split.
  - intros k yx Hk. rewrite slice_sheet_lookup by assumption.
    destruct (decide _) as [_ | ?]; [| lia].
    replace (Z.to_nat (Tileset.firstgid ts + Z.of_nat k - Tileset.firstgid ts))
      with k by lia.
    rewrite Hk. reflexivity.
  - intros q Hq. rewrite slice_sheet_lookup by assumption.
    destruct (decide _) as [Hle | _]; [| reflexivity].
    rewrite lookup_ge_None_2 by lia. reflexivity.
Qed.

End WithRuntime.

Lemma tileset_image_fills_cache_witness :
  exists tiles',
    @end_ SampleRuntime.sample SampleRuntime.town_context "Tileset.Image"
      (Some (OTileset MoreSamples.sheet_tileset)) (OImage MoreSamples.sheet_picture)
      = Ok (Context_set_tiles SampleRuntime.town_context tiles',
            Some (OTileset MoreSamples.sheet_tileset), OImage MoreSamples.sheet_picture)
    /\ tiles' !! 1 = Some (sheet_tile "maps/tiles.png" None 32 32 1 (0, 0))
    /\ tiles' !! 2 = Some (sheet_tile "maps/tiles.png" None 32 32 2 (0, 32))
    /\ tiles' !! 0 = Some None.
Proof.
  destruct (@tileset_image_fills_cache SampleRuntime.sample SampleRuntime.town_context
              MoreSamples.sheet_tileset MoreSamples.sheet_picture "tiles.png" 32 32
              [(0, 0); (0, 32)] eq_refl eq_refl eq_refl eq_refl)
    as (tiles' & He & Hin & Hout).
  - cbn. lia.
  - cbn. lia.
  - exists tiles'. split; [exact He |].
    split; [exact (Hin 0%nat (0, 0) eq_refl) |].
    split; [exact (Hin 1%nat (0, 32) eq_refl) |].
    rewrite (Hout 0) by (cbn; lia). reflexivity.
Defined.

Lemma traverse_cache_hit (tiles : gmap Z (option Tile.t)) (gids : list Z) :
  Forall (fun g => is_Some (tiles !! fst (decode_gid g))) gids ->
  exists data,
    traverse (fun gid => match tiles !! fst (decode_gid gid) with
                         | Some t => Ok t
                         | None => Raise (KeyError "gid")
                         end) gids = Ok data
    /\ length data = length gids
    /\ forall n : nat,
         data !! n
         = match gids !! n with
           | Some g => tiles !! fst (decode_gid g)
           | None => None
           end.
Proof.
  induction 1 as [| g gids [c Hc] _ (data & Hd & Hl & Hn)]; cbn [traverse].
  - exists []. split; [reflexivity |]. split; [reflexivity |].
    intros n. rewrite !lookup_nil. reflexivity.
  - rewrite Hc, Hd. cbn [bind]. exists (c :: data). split; [reflexivity |].
    split; [cbn [length]; congruence |].
    intros [| n]; cbn [lookup list_lookup]; [symmetry; exact Hc | apply Hn].
Qed.

Lemma traverse_cache_miss (tiles : gmap Z (option Tile.t)) (gids : list Z) :
  Exists (fun g => tiles !! fst (decode_gid g) = None) gids ->
  traverse (fun gid => match tiles !! fst (decode_gid gid) with
                       | Some t => Ok t
                       | None => Raise (KeyError "gid")
                       end) gids = Raise (KeyError "gid").
Proof.
  induction 1 as [g gids Hg | g gids _ IH]; cbn [traverse].
  - rewrite Hg. reflexivity.
  - rewrite IH. destruct (tiles !! fst (decode_gid g)); reflexivity.
Qed.

(** X7. When the map closes, a tile layer holding decoded gids becomes a
    grid whose cell [x] of row [y] is the cache entry for gid number
    [y * width + x] of the data, looked up with the flip flags stripped
    and not kept; a gid without a cache entry makes the reducer raise
    KeyError. *)
Theorem resolve_layer_cells (tiles : gmap Z (option Tile.t)) (width : Z)
    (tl : TileLayer.t) (gids : list Z) :
  TileLayer.data tl = DataFlat gids -> 0 < width ->
  (Forall (fun g => is_Some (tiles !! fst (decode_gid g))) gids ->
   exists rows,
     resolve_layer tiles (Some width) (LTileLayer tl)
       = Ok (LTileLayer (TileLayer_set_data tl (DataGrid rows)))
     /\ Forall (fun row => 0 < Z.of_nat (length row) <= width) rows
     /\ forall x y : nat,
          Z.of_nat x < width ->
          match rows !! y with Some row => row !! x | None => None end
          = match gids !! (y * Z.to_nat width + x)%nat with
            | Some g => tiles !! fst (decode_gid g)
            | None => None
            end)
  /\ (Exists (fun g => tiles !! fst (decode_gid g) = None) gids ->
      resolve_layer tiles (Some width) (LTileLayer tl) = Raise (KeyError "gid")).
Proof.
  intros Hdata Hw. split.
  - intros Hall. destruct (traverse_cache_hit tiles gids Hall) as (data & Hd & Hl & Hn).
    destruct (reshape_rows data width Hw) as (rows & Hr & Hrow & Hcell).
    exists rows. split.
    { cbn [resolve_layer]. rewrite Hdata. cbn [iterate_data bind]. rewrite Hd. cbn [bind].
      rewrite Hr. reflexivity. }
    split; [exact Hrow |].
    intros x y Hx. rewrite (Hcell x y Hx). apply Hn.
  - intros Hmiss. cbn [resolve_layer]. rewrite Hdata. cbn [iterate_data bind].
    rewrite (traverse_cache_miss tiles gids Hmiss). reflexivity.
Qed.

Lemma resolve_layer_cells_witness :
  exists rows,
    resolve_layer MoreSamples.cache (Some 2) (LTileLayer MoreSamples.flat_layer)
      = Ok (LTileLayer (TileLayer_set_data MoreSamples.flat_layer (DataGrid rows)))
    /\ match rows !! 1%nat with Some row => row !! 0%nat | None => None end
       = Some (Samples.tile 1).
Proof.
  destruct (resolve_layer_cells MoreSamples.cache 2 MoreSamples.flat_layer
              MoreSamples.flat_gids eq_refl ltac:(lia))
    as [Hhit _].
  destruct Hhit as (rows & Hr & _ & Hcell).
  - unfold MoreSamples.flat_gids. repeat constructor; vm_compute; eauto.
  - exists rows. split; [exact Hr |].
    rewrite (Hcell 0%nat 1%nat) by lia. vm_compute. reflexivity.
Defined.

End CacheFacts.
